(** * google-photo-uploader: a model of [main.go] and its specification

    The program watches a directory, filters creation events by file
    extension, queues the paths on a buffered channel and has a pool of
    workers hand every path to [rclone copy], with retries and an optional
    removal of the local file.

    Each goroutine is modelled on its own: its code runs on the state it
    shares with the others, from one [select] to the next, and the draws of
    the [select]s and the answers of the operating system are inputs.  What
    the other goroutines do in between shows as a different state at the
    next call.

    The development follows the source file from top to bottom:
    - [GoString], [Utf8], [Unicode], [Strings], [Filepath]: the pieces of
      the Go library the program calls on strings ([filepath.Ext],
      [strings.EqualFold]);
    - [Config] and the other records of [main.go];
    - the state the goroutines share and the operating system around them,
      threaded through a small state monad;
    - [NewPhotoUploader], [Start], [Stop], [watchFiles],
      [handleFileCreated], [isSupportedFile], [uploadWorker], [uploadFile];
    - the vocabulary of the properties: readers of the event trace, the
      states the primitives leave, sample configurations;
    - facts about the library pieces and about the program;
    - the properties of the specification, C1 to C10, and further
      properties of the code. *)

From Stdlib Require Import ZArith List String Ascii Bool Lia.
From Equations Require Import Equations.
From stdpp Require Import gmap strings.

Local Open Scope Z_scope.

(** * Part I: the model *)

(** ** Go strings: sequences of bytes *)

Module GoString.

(** A Go [string] is a read-only slice of bytes; [s[i]] is a [uint8]. *)
Definition byte_of (c : ascii) : Z := Z.of_N (N_of_ascii c).

Definition bytes (s : string) : list Z :=
  List.map byte_of (list_ascii_of_string s).

End GoString.

(** ** Package [unicode/utf8]: decoding the first rune of a string *)

Module Utf8.

Definition RuneError : Z := 0xFFFD.
Definition RuneSelf : Z := 0x80.

(** Continuation bytes lie in [locb..hicb]. *)
Definition locb : Z := 0x80.
Definition hicb : Z := 0xBF.
Definition maskx : Z := 0x3F.
Definition mask2 : Z := 0x1F.
Definition mask3 : Z := 0x0F.
Definition mask4 : Z := 0x07.

(** Entries of the table [first]: the low three bits give the size of the
    encoding, the high four the index into [acceptRanges]. *)
Definition xx : Z := 0xF1.
Definition as_ : Z := 0xF0.
Definition s1 : Z := 0x02.
Definition s2 : Z := 0x13.
Definition s3 : Z := 0x03.
Definition s4 : Z := 0x23.
Definition s5 : Z := 0x34.
Definition s6 : Z := 0x04.
Definition s7 : Z := 0x44.

(** [first[b]], the 256-entry table written by ranges. *)
Definition first (b : Z) : Z :=
  if b <? 0x80 then as_
  else if b <? 0xC2 then xx
  else if b <? 0xE0 then s1
  else if b =? 0xE0 then s2
  else if b <? 0xED then s3
  else if b =? 0xED then s4
  else if b <? 0xF0 then s3
  else if b =? 0xF0 then s5
  else if b <? 0xF4 then s6
  else if b =? 0xF4 then s7
  else xx.

(** [acceptRanges[k]] as a pair [(lo, hi)]; the entries past the fifth are
    zero in the Go table. *)
Definition acceptRanges (k : Z) : Z * Z :=
  if k =? 0 then (locb, hicb)
  else if k =? 1 then (0xA0, hicb)
  else if k =? 2 then (locb, 0x9F)
  else if k =? 3 then (0x90, hicb)
  else if k =? 4 then (locb, 0x8F)
  else (0, 0).

(** [utf8.DecodeRuneInString]: the first rune of [s] and its width in
    bytes, [(RuneError, 0)] on the empty string and [(RuneError, 1)] on an
    invalid encoding. *)
Definition DecodeRuneInString (s : list Z) : Z * nat :=
  match s with
  | [] => (RuneError, 0%nat)
  | s0 :: rest =>
      let x := first s0 in
      if as_ <=? x then
        (* mask := rune(x) << 31 >> 31: all ones for xx, zero for as *)
        let mask := if Z.odd x then (-1) else 0 in
        (Z.lor (Z.land s0 (Z.lnot mask)) (Z.land RuneError mask), 1%nat)
      else
        let sz := Z.to_nat (Z.land x 7) in
        let '(lo, hi) := acceptRanges (Z.shiftr x 4) in
        if (List.length s <? sz)%nat then (RuneError, 1%nat)
        else
          let b1 := List.nth 0 rest 0 in
          if (b1 <? lo) || (hi <? b1) then (RuneError, 1%nat)
          else if (sz <=? 2)%nat then
            (Z.lor (Z.shiftl (Z.land s0 mask2) 6) (Z.land b1 maskx), 2%nat)
          else
            let b2 := List.nth 1 rest 0 in
            if (b2 <? locb) || (hicb <? b2) then (RuneError, 1%nat)
            else if (sz <=? 3)%nat then
              (Z.lor (Z.lor (Z.shiftl (Z.land s0 mask3) 12)
                            (Z.shiftl (Z.land b1 maskx) 6))
                     (Z.land b2 maskx), 3%nat)
            else
              let b3 := List.nth 2 rest 0 in
              if (b3 <? locb) || (hicb <? b3) then (RuneError, 1%nat)
              else
                (Z.lor (Z.lor (Z.lor (Z.shiftl (Z.land s0 mask4) 18)
                                     (Z.shiftl (Z.land b1 maskx) 12))
                              (Z.shiftl (Z.land b2 maskx) 6))
                       (Z.land b3 maskx), 4%nat)
  end.

(** The width is at least one on a string that is not empty, which is what
    makes a [range] over a string advance. *)
Lemma DecodeRune_width s : s <> [] -> (1 <= (DecodeRuneInString s).2 <= 4)%nat.
Proof.
  destruct s as [|s0 rest]; [congruence|]. intros _.
  unfold DecodeRuneInString.
  destruct (acceptRanges _) as [lo hi].
  repeat match goal with
         | |- context [if ?c then _ else _] => destruct c
         end; simpl; lia.
Qed.

End Utf8.

(** ** Package [unicode]: simple case folding *)

Module Unicode.

(** [asciiFold]: what [unicode.SimpleFold] returns below [RuneSelf].  An
    upper-case letter goes to its lower-case form; a lower-case letter goes
    back to the upper-case one, except [k] and [s], whose orbits go on to
    U+212A KELVIN SIGN and U+017F LATIN SMALL LETTER LONG S; every other
    rune folds to itself. *)
Definition asciiFold (r : Z) : Z :=
  if (0x41 <=? r) && (r <=? 0x5A) then r + 0x20
  else if r =? 0x6B then 0x212A
  else if r =? 0x73 then 0x17F
  else if (0x61 <=? r) && (r <=? 0x7A) then r - 0x20
  else r.

(** The folding tables [caseOrbit] and [CaseRanges] are data of the Go
    distribution, not of this repository, and are taken as a parameter.
    [orbitReaches sr tr] is consulted for a rune [sr] that [SimpleFold]
    moves and a rune [tr] with [sr < tr] and [RuneSelf <= tr], and tells
    whether the walk
    [r := SimpleFold(sr); for r != sr && r < tr { r = SimpleFold(r) }]
    ends with [r == tr]. *)
Class FoldTables := { orbitReaches : Z -> Z -> bool }.

(** The tables cut down to the two orbits that meet ASCII, [K k U+212A]
    and [S s U+017F]; enough to run the program on ASCII paths. *)
Definition asciiOrbits : FoldTables :=
  {| orbitReaches sr tr :=
       (((sr =? 0x4B) || (sr =? 0x6B)) && (tr =? 0x212A))
       || (((sr =? 0x53) || (sr =? 0x73)) && (tr =? 0x17F)) |}.

End Unicode.

(** ** Package [strings]: [EqualFold] *)

Module Strings.
Import GoString Utf8 Unicode.

(** [for _, r := range s]: the runes of [s], each invalid byte giving
    [RuneError] and a step of one byte. *)
Equations? rangeRunes (s : list Z) : list Z by wf (List.length s) lt :=
  rangeRunes [] := [];
  rangeRunes (s0 :: rest) :=
    let d := DecodeRuneInString (s0 :: rest) in
    d.1 :: rangeRunes (List.skipn d.2 (s0 :: rest)).
Proof.
  pose proof (DecodeRune_width (s0 :: rest) ltac:(discriminate)) as Hw.
  fold d in Hw. rewrite List.length_skipn. cbn [List.length]. lia.
Qed.

Section WithTables.
Context `{FoldTables}.

(** The two-byte test shared by both loops, on [sr < tr] below
    [RuneSelf]: [sr] is an upper-case letter and [tr] its lower-case
    form. *)
Definition asciiPair (sr tr : Z) : bool :=
  (0x41 <=? sr) && (sr <=? 0x5A) && (tr =? sr + 0x61 - 0x41).

(** The general case of the slow loop, on [sr < tr] and
    [RuneSelf <= tr].  When [SimpleFold(sr)] is [sr] the [for] does not
    run and [r == tr] fails; otherwise the tables decide. *)
Definition generalCase (sr tr : Z) : bool :=
  if (sr <? RuneSelf) && (asciiFold sr =? sr) then false
  else orbitReaches sr tr.

(** The code after the label [hasUnicode]: [srs] are the runes of the
    rest of [s], [t] is the rest of the second string. *)
Fixpoint hasUnicode (srs : list Z) (t : list Z) : bool :=
  match srs with
  | [] => (List.length t =? 0)%nat
  | sr :: srs' =>
      match t with
      | [] => false
      | t0 :: t1 =>
          let '(tr, t') :=
            if t0 <? RuneSelf then (t0, t1)
            else let d := DecodeRuneInString t in (d.1, List.skipn d.2 t) in
          if tr =? sr then hasUnicode srs' t'
          else
            let '(sr, tr) := if tr <? sr then (tr, sr) else (sr, tr) in
            if tr <? RuneSelf then
              if asciiPair sr tr then hasUnicode srs' t' else false
            else
              if generalCase sr tr then hasUnicode srs' t' else false
      end
  end.

(** The ASCII fast path; the first byte at or above [RuneSelf] in either
    string hands the two suffixes to [hasUnicode]. *)
Fixpoint EqualFold_bytes (s t : list Z) : bool :=
  match s, t with
  | sr :: s', tr :: t' =>
      if RuneSelf <=? Z.lor sr tr then hasUnicode (rangeRunes s) t
      else if tr =? sr then EqualFold_bytes s' t'
      else
        let '(sr, tr) := if tr <? sr then (tr, sr) else (sr, tr) in
        if asciiPair sr tr then EqualFold_bytes s' t' else false
  | _, _ => (List.length s =? List.length t)%nat
  end.

(** [strings.EqualFold(s, t)]. *)
Definition EqualFold (s t : string) : bool :=
  EqualFold_bytes (bytes s) (bytes t).

End WithTables.

End Strings.

(** ** Package [path/filepath]: [Ext] *)

Module Filepath.

(** [os.IsPathSeparator] on Unix. *)
Definition IsPathSeparator (c : ascii) : bool := Ascii.eqb c "/"%char.

(** The loop of [Ext], [for i := len(path) - 1; i >= 0 &&
    !os.IsPathSeparator(path[i]); i--]; [n] is [i + 1]. *)
Fixpoint Ext_from (path : string) (n : nat) : string :=
  match n with
  | O => ""
  | S i =>
      match String.get i path with
      | Some c =>
          if IsPathSeparator c then ""
          else if Ascii.eqb c "."%char
               then String.substring i (String.length path - i) path
               else Ext_from path i
      | None => ""
      end
  end.

(** [filepath.Ext(path)]: the suffix beginning at the final dot in the
    final element of [path], empty if there is no dot. *)
Definition Ext (path : string) : string :=
  Ext_from path (String.length path).

End Filepath.

(** ** The configuration records of [main.go] *)

(** Go's [int] is 64 bits wide on the platforms the program is built for. *)
Definition wrap64 (z : Z) : Z := (z + 2 ^ 63) mod 2 ^ 64 - 2 ^ 63.

Record RcloneConfig := {
  RemoteName : string;
  AlbumName : string;
  DeleteAfterUpload : bool;
  CheckDuplicates : bool
}.

Record LoggingConfig := {
  Level : string;
  FilePath : string;
  MaxSize : Z;
  MaxBackups : Z;
  MaxAge : Z
}.

Record UploadConfig := {
  ConcurrentUploads : Z;
  WaitTime : Z;
  RetryCount : Z;
  RetryInterval : Z
}.

Record Config := {
  WatchDirectory : string;
  SupportedExtensions : list string;
  Rclone : RcloneConfig;
  Logging : LoggingConfig;
  Upload : UploadConfig
}.

(** ** Channels, errors, events *)

(** A buffered [chan string]: the buffer in arrival order, the capacity given
    to [make], and whether [close] was called. *)
Record Chan := {
  buf : list string;
  cap : nat;
  closed : bool
}.

Definition make_chan (n : nat) : Chan :=
  {| buf := []; cap := n; closed := false |}.

(** A send can proceed when the buffer has room; on a closed channel it
    proceeds too, and panics. *)
Definition send_ready (c : Chan) : bool :=
  closed c || (List.length (buf c) <? cap c)%nat.

(** A receive can proceed when a value is buffered or the channel is
    closed. *)
Definition recv_ready (c : Chan) : bool :=
  closed c || negb (List.length (buf c) =? 0)%nat.

Definition chan_push (x : string) (c : Chan) : Chan :=
  {| buf := buf c ++ [x]; cap := cap c; closed := closed c |}.

Definition chan_pop (c : Chan) : option string * Chan :=
  match buf c with
  | x :: rest => (Some x, {| buf := rest; cap := cap c; closed := closed c |})
  | [] => (None, c)
  end.

Definition chan_close (c : Chan) : Chan :=
  {| buf := buf c; cap := cap c; closed := true |}.

Inductive Errno := ENOENT | EACCES | ENOTDIR.

(** How a child process ended: it ran and exited with a status, or it could
    not be started at all (no [rclone] on the [PATH]). *)
Inductive RunResult :=
| Exited (status : Z)
| StartFailed.

(** The [error] values the program meets or builds. *)
Inductive error :=
| PathError (op path : string) (errno : Errno)
| ExitError (status : Z)
| ExecError
| FileMissing (path : string)
| UploadFailed (tries : Z) (cause : error)
| WatcherError (text : string).

Inductive LogLevel := DebugLevel | InfoLevel | WarnLevel | ErrorLevel.

(** One constructor per logging call of [main.go]. *)
Inductive Msg :=
| MsgStarting
| MsgWatching (dir : string)
| MsgStopping
| MsgStopped
| MsgDetected (path : string)
| MsgQueued (path : string)
| MsgWatchError (e : error)
| MsgWorkerStarted (workerID : Z)
| MsgUploading (workerID : Z) (path : string)
| MsgUploadFailed (workerID : Z) (path : string) (e : error)
| MsgUploadDone (workerID : Z) (path : string)
| MsgRemoveFailed (workerID : Z) (path : string) (e : error)
| MsgRemoved (workerID : Z) (path : string)
| MsgAttemptFailed (try tries : Z) (e : error).

(** What a goroutine does to the world around it, in the order it does it.
    [EvLog] records the call of the logger, whether or not the configured
    level lets the line through. *)
Inductive Event :=
| EvLog (l : LogLevel) (m : Msg)
| EvSleep (d : Z)
| EvRun (argv : list string) (r : RunResult)
| EvSend (path : string)
| EvRecv (path : string)
| EvRemove (path : string) (e : option error).

(** ** The state: the [PhotoUploader] and the operating system *)

Record State := {
  (** [p.config], read-only after start-up *)
  config : Config;
  (** [p.uploadChan] *)
  uploadChan : Chan;
  (** whether [p.cancel] was called, that is, [p.ctx.Done()] is closed *)
  ctxDone : bool;
  (** the local files: the paths that exist, each with whether [os.Remove]
      succeeds on it ([false] for a file in a directory the process may
      not write to, or a directory that is not empty) *)
  files : gmap string bool;
  (** the environment's answer to the [n]-th process started with [argv] *)
  exec : nat -> list string -> RunResult;
  (** processes started so far *)
  started : nat;
  (** nanoseconds spent in [time.Sleep] so far *)
  slept : Z;
  (** the events so far, oldest first *)
  trace : list Event;
  (** the errno with which [stat] and [unlink] fail on a path that is not
      among the files: [ENOENT] when nothing has that name, [ENOTDIR] when
      a component of the path is not a directory, [EACCES] when a directory
      on the way may not be searched *)
  lookupErr : string -> Errno
}.

Definition set_uploadChan (c : Chan) (s : State) : State :=
  {| config := config s; uploadChan := c; ctxDone := ctxDone s;
     files := files s; exec := exec s; started := started s;
     slept := slept s; trace := trace s; lookupErr := lookupErr s |}.

Definition set_ctxDone (b : bool) (s : State) : State :=
  {| config := config s; uploadChan := uploadChan s; ctxDone := b;
     files := files s; exec := exec s; started := started s;
     slept := slept s; trace := trace s; lookupErr := lookupErr s |}.

Definition set_files (m : gmap string bool) (s : State) : State :=
  {| config := config s; uploadChan := uploadChan s; ctxDone := ctxDone s;
     files := m; exec := exec s; started := started s;
     slept := slept s; trace := trace s; lookupErr := lookupErr s |}.

Definition set_started (n : nat) (s : State) : State :=
  {| config := config s; uploadChan := uploadChan s; ctxDone := ctxDone s;
     files := files s; exec := exec s; started := n;
     slept := slept s; trace := trace s; lookupErr := lookupErr s |}.

Definition set_slept (d : Z) (s : State) : State :=
  {| config := config s; uploadChan := uploadChan s; ctxDone := ctxDone s;
     files := files s; exec := exec s; started := started s;
     slept := d; trace := trace s; lookupErr := lookupErr s |}.

Definition set_trace (t : list Event) (s : State) : State :=
  {| config := config s; uploadChan := uploadChan s; ctxDone := ctxDone s;
     files := files s; exec := exec s; started := started s;
     slept := slept s; trace := t; lookupErr := lookupErr s |}.

Definition set_lookupErr (f : string -> Errno) (s : State) : State :=
  {| config := config s; uploadChan := uploadChan s; ctxDone := ctxDone s;
     files := files s; exec := exec s; started := started s;
     slept := slept s; trace := trace s; lookupErr := f |}.

(** ** A state monad for the goroutines *)

Definition M (A : Type) : Type := State -> A * State.

Definition ret {A} (a : A) : M A := fun s => (a, s).

Definition bind {A B} (m : M A) (k : A -> M B) : M B :=
  fun s => let '(a, s') := m s in k a s'.

Declare Scope go_scope.
Delimit Scope go_scope with go.
Notation "x <- m ;; k" := (bind m (fun x => k))
  (at level 100, m at next level, right associativity) : go_scope.
Notation "m ;;; k" := (bind m (fun _ => k))
  (at level 100, right associativity) : go_scope.
Local Open Scope go_scope.

Definition get : M State := fun s => (s, s).
Definition modify (f : State -> State) : M unit := fun s => (tt, f s).

Definition emit (e : Event) : M unit :=
  modify (fun s => set_trace (trace s ++ [e]) s).

(** *** The library calls of the program *)

Definition time_Second : Z := 1000000000.

(** [time.Duration(n) * time.Second], an [int64] product. *)
Definition seconds (n : Z) : Z := wrap64 (n * time_Second).

(** [time.Sleep(d)] returns at once when [d] is zero or negative, and after
    [d] nanoseconds otherwise; it takes no context. *)
Definition time_Sleep (d : Z) : M unit :=
  emit (EvSleep d) ;;;
  modify (fun s => set_slept (slept s + Z.max 0 d) s).

Definition logf (l : LogLevel) (m : Msg) : M unit := emit (EvLog l m).

(** [os.Stat(path)], keeping the error only: [nil] for a path that
    exists, and for one that does not the errno of the failed look-up,
    which is [ENOENT] only when nothing has that name. *)
Definition os_Stat (path : string) : M (option error) :=
  s <- get ;;
  match files s !! path with
  | Some _ => ret None
  | None => ret (Some (PathError "stat" path (lookupErr s path)))
  end.

(** [os.IsNotExist(err)]: of the errors [os.Stat] gives, those with
    [ENOENT]. *)
Definition os_IsNotExist (e : option error) : bool :=
  match e with
  | Some (PathError _ _ ENOENT) => true
  | _ => false
  end.

(** [os.Remove(path)]: the path is gone when the call succeeds; when it
    fails the files are as they were and the error is returned. *)
Definition os_Remove (path : string) : M (option error) :=
  s <- get ;;
  let r := match files s !! path with
           | Some true => None
           | Some false => Some (PathError "remove" path EACCES)
           | None => Some (PathError "remove" path (lookupErr s path))
           end in
  emit (EvRemove path r) ;;;
  match r with
  | None => modify (fun s => set_files (delete path (files s)) s) ;;; ret None
  | Some e => ret (Some e)
  end.

(** [cmd.Run()] with [Stdout] and [Stderr] set to the process's own files:
    [nil] exactly when the command ran and exited with status zero. *)
Definition run_error (r : RunResult) : option error :=
  match r with
  | Exited status => if status =? 0 then None else Some (ExitError status)
  | StartFailed => Some ExecError
  end.

Definition cmd_Run (name : string) (args : list string) : M (option error) :=
  s <- get ;;
  let r := exec s (started s) (name :: args) in
  emit (EvRun (name :: args) r) ;;;
  modify (fun s => set_started (S (started s)) s) ;;;
  ret (run_error r).

(** *** [select] *)

Inductive Choice := First | Second | Wait.

(** A [select] over two cases without [default]: it waits while neither can
    proceed, takes the one that can when there is only one, and picks by a
    uniform pseudo-random draw, here the argument [coin], when both can. *)
Definition select2 (ready1 ready2 coin : bool) : Choice :=
  match ready1, ready2 with
  | true, true => if coin then First else Second
  | true, false => First
  | false, true => Second
  | false, false => Wait
  end.

(** How a call made by a goroutine ends: it returns, it is parked at a
    [select] none of whose cases can proceed, or it panics (a send on a
    closed channel). *)
Inductive Outcome := Returned | Blocked | Panicked.

(** ** The program *)

(** [fsnotify.Event]: the path and the bit set of operations. *)
Record FsEvent := {
  Name : string;
  Op : Z
}.

Definition fsnotify_Create : Z := 1.
Definition fsnotify_Write : Z := 2.
Definition fsnotify_Remove : Z := 4.
Definition fsnotify_Rename : Z := 8.
Definition fsnotify_Chmod : Z := 16.

(** The fields of [PhotoUploader] that the model keeps. *)
Record PhotoUploader := {
  p_config : Config;
  p_uploadChan : Chan;
  p_ctxDone : bool
}.

Inductive InitError :=
| LoadConfigFailed (cause : error)
| NewWatcherFailed (cause : error).

(** [NewPhotoUploader], lines 66-89: [loaded] is what [loadConfig] returned
    and [watcher] the error of [fsnotify.NewWatcher], if any. *)
Definition NewPhotoUploader (loaded : Config + error) (watcher : option error)
  : PhotoUploader + InitError :=
  match loaded with
  | inr err => inr (LoadConfigFailed err)
  | inl config =>
      match watcher with
      | Some err => inr (NewWatcherFailed err)
      | None =>
          inl {| p_config := config;
                 p_uploadChan := make_chan 100;
                 p_ctxDone := false |}
      end
  end.

(** The state in which the goroutines of a fresh uploader start, given the
    files on disk and the behaviour of the processes to come; a path that
    is not on this disk is one that nothing has the name of. *)
Definition boot (p : PhotoUploader) (disk : gmap string bool)
    (env : nat -> list string -> RunResult) : State :=
  {| config := p_config p; uploadChan := p_uploadChan p;
     ctxDone := p_ctxDone p; files := disk; exec := env;
     started := 0; slept := 0; trace := [];
     lookupErr := fun _ => ENOENT |}.

(** The goroutines [Start] launches. *)
Inductive Goroutine :=
| Worker (workerID : Z)
| Watcher.

Inductive StartError :=
| WatchDirectoryMissing (dir : string)
| WatcherAddFailed (cause : error).

(** [for i := 0; i < ConcurrentUploads; i++ { go p.uploadWorker(i) }], with
    [n] the number of iterations left. *)
Fixpoint spawnWorkers (n : nat) (i : Z) : list Goroutine :=
  match n with
  | O => []
  | S n' => Worker i :: spawnWorkers n' (i + 1)
  end.

(** [Start], lines 127-153: [added] is the error of [p.watcher.Add], if
    any; the result lists the goroutines launched, in order. *)
Definition Start (added : option error) : M (list Goroutine + StartError) :=
  logf InfoLevel MsgStarting ;;;
  s <- get ;;
  err <- os_Stat (WatchDirectory (config s)) ;;
  if os_IsNotExist err
  then ret (inr (WatchDirectoryMissing (WatchDirectory (config s))))
  else
    match added with
    | Some e => ret (inr (WatcherAddFailed e))
    | None =>
        logf InfoLevel (MsgWatching (WatchDirectory (config s))) ;;;
        ret (inl (spawnWorkers (Z.to_nat (ConcurrentUploads (Upload (config s)))) 0
                  ++ [Watcher]))
    end.

(** [p.cancel()]. *)
Definition cancel : M unit := modify (set_ctxDone true).

(** [Stop], lines 156-165, up to [p.wg.Wait()]: the context is cancelled
    and the queue closed.  [p.watcher.Close()] closes the watcher's
    channels, which [watchFiles] meets as its input; the last line of the
    log is written once every goroutine has returned.  This is the call on
    a queue that is still open; a second call would panic at
    [close(p.uploadChan)]. *)
Definition Stop : M unit :=
  logf InfoLevel MsgStopping ;;;
  cancel ;;;
  modify (fun s => set_uploadChan (chan_close (uploadChan s)) s).

Definition Stop_after_wait : M unit := logf InfoLevel MsgStopped.

Section Program.
Import Filepath Strings Unicode.
Context `{FoldTables}.

(** The [for ... range p.config.SupportedExtensions] of
    [isSupportedFile]. *)
Fixpoint rangeExtensions (ext : string) (exts : list string) : bool :=
  match exts with
  | [] => false
  | supportedExt :: rest =>
      if EqualFold ext supportedExt then true
      else rangeExtensions ext rest
  end.

(** [isSupportedFile], lines 214-222. *)
Definition isSupportedFile (cfg : Config) (filePath : string) : bool :=
  let ext := Ext filePath in
  rangeExtensions ext (SupportedExtensions cfg).

(** The [select] that ends [handleFileCreated]: send [filePath], or give
    up when the context is done. *)
Definition enqueue (coin : bool) (filePath : string) : M Outcome :=
  s <- get ;;
  match select2 (send_ready (uploadChan s)) (ctxDone s) coin with
  | First =>
      if closed (uploadChan s) then ret Panicked
      else
        modify (fun s => set_uploadChan (chan_push filePath (uploadChan s)) s) ;;;
        emit (EvSend filePath) ;;;
        logf DebugLevel (MsgQueued filePath) ;;;
        ret Returned
  | Second => ret Returned
  | Wait => ret Blocked
  end.

(** [handleFileCreated], lines 194-211. *)
Definition handleFileCreated (coin : bool) (filePath : string) : M Outcome :=
  s <- get ;;
  if negb (isSupportedFile (config s) filePath) then ret Returned
  else
    logf InfoLevel (MsgDetected filePath) ;;;
    time_Sleep (seconds (WaitTime (Upload (config s)))) ;;;
    enqueue coin filePath.

(** The argument list built by [uploadFile]. *)
Definition rcloneArgs (cfg : Config) (filePath : string) : list string :=
  let remotePath :=
    RemoteName (Rclone cfg) +:+ ":" +:+ AlbumName (Rclone cfg) in
  let args := ["copy"; filePath; remotePath] in
  if CheckDuplicates (Rclone cfg) then args ++ ["--checksum"] else args.

(** The retry loop [for i := 0; i < RetryCount; i++].  [remaining] is the
    number of iterations the loop condition still admits,
    [RetryCount - i]; inside the body [0 <= i < RetryCount], so [i + 1] and
    [RetryCount - 1] do not wrap. *)
Fixpoint retryLoop (cfg : Config) (args : list string) (remaining : nat) (i : Z)
  : M (option error) :=
  match remaining with
  | O => ret None
  | S remaining' =>
      err <- cmd_Run "rclone" args ;;
      match err with
      | Some e =>
          logf WarnLevel (MsgAttemptFailed (i + 1) (RetryCount (Upload cfg)) e) ;;;
          if i <? RetryCount (Upload cfg) - 1 then
            time_Sleep (seconds (RetryInterval (Upload cfg))) ;;;
            retryLoop cfg args remaining' (i + 1)
          else ret (Some (UploadFailed (RetryCount (Upload cfg)) e))
      | None => ret None
      end
  end.

(** [uploadFile], lines 261-297. *)
Definition uploadFile (filePath : string) : M (option error) :=
  s <- get ;;
  let cfg := config s in
  err <- os_Stat filePath ;;
  if os_IsNotExist err then ret (Some (FileMissing filePath))
  else
    retryLoop cfg (rcloneArgs cfg filePath)
              (Z.to_nat (RetryCount (Upload cfg))) 0.

(** What [uploadWorker] does with a path it has received, lines 239-255;
    the [continue] of line 243 is the end of the first branch. *)
Definition process (workerID : Z) (filePath : string) : M unit :=
  logf InfoLevel (MsgUploading workerID filePath) ;;;
  err <- uploadFile filePath ;;
  match err with
  | Some e => logf ErrorLevel (MsgUploadFailed workerID filePath e)
  | None =>
      logf InfoLevel (MsgUploadDone workerID filePath) ;;;
      s <- get ;;
      if DeleteAfterUpload (Rclone (config s)) then
        err <- os_Remove filePath ;;
        match err with
        | Some e => logf ErrorLevel (MsgRemoveFailed workerID filePath e)
        | None => logf InfoLevel (MsgRemoved workerID filePath)
        end
      else ret tt
  end.

(** One turn of the loop of [uploadWorker], lines 231-256: [None] when the
    loop goes on to its next turn. *)
Definition workerTurn (workerID : Z) (coin : bool) : M (option Outcome) :=
  s <- get ;;
  match select2 (ctxDone s) (recv_ready (uploadChan s)) coin with
  | First => ret (Some Returned)
  | Second =>
      match chan_pop (uploadChan s) with
      | (Some filePath, c) =>
          modify (set_uploadChan c) ;;;
          emit (EvRecv filePath) ;;;
          process workerID filePath ;;;
          ret None
      | (None, _) => ret (Some Returned)
      end
  | Wait => ret (Some Blocked)
  end.

(** The loop, run for as many turns as there are draws in [coins]; [None]
    when the worker is still in its loop after them. *)
Fixpoint workerLoop (workerID : Z) (coins : list bool) : M (option Outcome) :=
  match coins with
  | [] => ret None
  | coin :: coins' =>
      r <- workerTurn workerID coin ;;
      match r with
      | Some o => ret (Some o)
      | None => workerLoop workerID coins'
      end
  end.

(** [uploadWorker], lines 225-258. *)
Definition uploadWorker (workerID : Z) (coins : list bool) : M (option Outcome) :=
  logf InfoLevel (MsgWorkerStarted workerID) ;;;
  workerLoop workerID coins.

(** What the watcher's channels hold when [watchFiles] reaches its
    [select]. *)
Inductive WatchInput :=
| NoInput
| GotEvent (event : FsEvent)
| EventsClosed
| GotError (err : error)
| ErrorsClosed.

Record WatchTurn := {
  input : WatchInput;
  (** the draw between [p.ctx.Done()] and the watcher's channel *)
  drawDone : bool;
  (** the draw of the [select] inside [handleFileCreated] *)
  drawSend : bool
}.

(** One turn of the loop of [watchFiles], lines 172-189.  The three-way
    [select] is read as a draw between the context and whatever the
    watcher's channels hold. *)
Definition watchTurn (t : WatchTurn) : M (option Outcome) :=
  s <- get ;;
  let ready := match input t with NoInput => false | _ => true end in
  match select2 (ctxDone s) ready (drawDone t) with
  | First => ret (Some Returned)
  | Wait => ret (Some Blocked)
  | Second =>
      match input t with
      | GotEvent event =>
          if Z.land (Op event) fsnotify_Create =? fsnotify_Create then
            o <- handleFileCreated (drawSend t) (Name event) ;;
            match o with
            | Returned => ret None
            | _ => ret (Some o)
            end
          else ret None
      | GotError err => logf ErrorLevel (MsgWatchError err) ;;; ret None
      | _ => ret (Some Returned)
      end
  end.

(** [watchFiles], lines 168-191, run over the inputs of [turns]. *)
Fixpoint watchFiles (turns : list WatchTurn) : M (option Outcome) :=
  match turns with
  | [] => ret None
  | t :: turns' =>
      r <- watchTurn t ;;
      match r with
      | Some o => ret (Some o)
      | None => watchFiles turns'
      end
  end.

End Program.

(** * Part II: the vocabulary of the properties *)

(** ** Reading a trace *)

Definition runs (t : list Event) : list (list string * RunResult) :=
  List.flat_map (fun e => match e with EvRun argv r => [(argv, r)] | _ => [] end) t.

Definition sleeps (t : list Event) : list Z :=
  List.flat_map (fun e => match e with EvSleep d => [d] | _ => [] end) t.

Definition sends (t : list Event) : list string :=
  List.flat_map (fun e => match e with EvSend x => [x] | _ => [] end) t.

Definition removes (t : list Event) : list string :=
  List.flat_map (fun e => match e with EvRemove x _ => [x] | _ => [] end) t.

(** The attempts and the pauses of a trace, in order. *)
Inductive Step := Attempt | Pause (d : Z).

Definition steps (t : list Event) : list Step :=
  List.flat_map (fun e => match e with
                          | EvRun _ _ => [Attempt]
                          | EvSleep d => [Pause d]
                          | _ => []
                          end) t.

(** [k] attempts with a pause of [d] between two consecutive ones. *)
Fixpoint paced (k : nat) (d : Z) : list Step :=
  match k with
  | O => []
  | S O => [Attempt]
  | S k' => Attempt :: Pause d :: paced k' d
  end.

(** The time a list of sleeps takes, in nanoseconds. *)
Definition nap (ds : list Z) : Z :=
  List.fold_right (fun d acc => Z.max 0 d + acc) 0 ds.

(** The events of [s'] that [s] does not have yet. *)
Definition since (s s' : State) : list Event :=
  List.skipn (List.length (trace s)) (trace s').

(** ** The state each primitive leaves *)

(** The state after [cmd.Run], after a line of log, after a sleep. *)
Definition ran (argv : list string) (s : State) : State :=
  set_started (S (started s))
    (set_trace (trace s ++ [EvRun argv (exec s (started s) argv)]) s).

Definition logged (l : LogLevel) (m : Msg) (s : State) : State :=
  set_trace (trace s ++ [EvLog l m]) s.

Definition paused (d : Z) (s : State) : State :=
  set_slept (slept s + Z.max 0 d) (set_trace (trace s ++ [EvSleep d]) s).

(** What [os.Remove] answers and the state it leaves. *)
Definition remove_result (path : string) (s : State) : option error :=
  match files s !! path with
  | Some true => None
  | Some false => Some (PathError "remove" path EACCES)
  | None => Some (PathError "remove" path (lookupErr s path))
  end.

Definition removed (path : string) (s : State) : State :=
  let s1 := set_trace (trace s ++ [EvRemove path (remove_result path s)]) s in
  match remove_result path s with
  | None => set_files (delete path (files s1)) s1
  | Some _ => s1
  end.

(** The state after a send of [x]. *)
Definition sent (x : string) (s : State) : State :=
  logged DebugLevel (MsgQueued x)
    (set_trace (trace s ++ [EvSend x])
       (set_uploadChan (chan_push x (uploadChan s)) s)).

(** The state after a receive of the head of the buffer. *)
Definition received (x : string) (s : State) : State :=
  set_trace (trace s ++ [EvRecv x])
    (set_uploadChan (chan_pop (uploadChan s)).2 s).

(** ** Relations between the state before and the state after *)

(** [s'] is [s] after the events [t], none of which touches the files or
    the channel. *)
Record after (s : State) (t : list Event) (s' : State) : Prop := {
  after_config : config s' = config s;
  after_chan : uploadChan s' = uploadChan s;
  after_ctx : ctxDone s' = ctxDone s;
  after_files : files s' = files s;
  after_exec : exec s' = exec s;
  after_trace : trace s' = trace s ++ t;
  after_started : started s' = (started s + List.length (runs t))%nat;
  after_slept : slept s' = slept s + nap (sleeps t)
}.

(** [s'] is [s] after the events [t], which may have changed the files
    but neither the channel nor the context. *)
Record framed (s : State) (t : list Event) (s' : State) : Prop := {
  framed_config : config s' = config s;
  framed_chan : uploadChan s' = uploadChan s;
  framed_ctx : ctxDone s' = ctxDone s;
  framed_exec : exec s' = exec s;
  framed_trace : trace s' = trace s ++ t
}.

(** What a worker does to the channel: it takes from the front and never
    puts anything in. *)
Record only_pops (s : State) (t : list Event) (s' : State) : Prop := {
  pops_trace : trace s' = trace s ++ t;
  pops_sends : sends t = [];
  pops_buf : exists k, buf (uploadChan s') = List.skipn k (buf (uploadChan s));
  pops_cap : cap (uploadChan s') = cap (uploadChan s);
  pops_closed : closed (uploadChan s') = closed (uploadChan s)
}.

(** What the watcher does to the channel: it puts the paths [xs] at the
    back, in that order, and takes nothing out. *)
Record only_pushes (s : State) (xs : list string) (s' : State) : Prop := {
  pushed_config : config s' = config s;
  pushed_ctx : ctxDone s' = ctxDone s;
  pushed_sends : sends (since s s') = xs;
  pushed_trace : exists t, trace s' = trace s ++ t;
  pushed_buf : buf (uploadChan s') = buf (uploadChan s) ++ xs;
  pushed_cap : cap (uploadChan s') = cap (uploadChan s);
  pushed_closed : closed (uploadChan s') = closed (uploadChan s)
}.

(** Two states in which [uploadFile] reads the same things. *)
Definition same_inputs (s1 s2 : State) : Prop :=
  config s1 = config s2 /\ files s1 = files s2 /\
  exec s1 = exec s2 /\ started s1 = started s2 /\
  lookupErr s1 = lookupErr s2.

(** Whether the existence check of [uploadFile] and of [Start] fires on
    [path]: [os.Stat] fails and [os.IsNotExist] holds of its error. *)
Definition reported_missing (path : string) (s : State) : bool :=
  os_IsNotExist (os_Stat path s).1.

(** The tool fails whenever it is started. *)
Definition always_fails (env : nat -> list string -> RunResult) : Prop :=
  forall k argv, env k argv <> Exited 0.

Definition failed (a : list string * RunResult) : Prop := a.2 <> Exited 0.

(** ** The specification's words on strings *)

Section SpecWords.
Import GoString Utf8.

(** "Case-insensitive", in the specification's words, read on ASCII: two
    strings are equal once their upper-case letters are lowered. *)
Definition toLowerASCII (b : Z) : Z :=
  if (0x41 <=? b) && (b <=? 0x5A) then b + 0x20 else b.

Definition equal_ignoring_case (s t : string) : Prop :=
  List.map toLowerASCII (bytes s) = List.map toLowerASCII (bytes t).

Definition isASCII (s : string) : Prop :=
  List.Forall (fun b => b < RuneSelf) (bytes s).

(** A string with neither a dot nor a path separator: what follows the
    "final dot in the final element". *)
Definition no_dot_sep (s : string) : Prop :=
  forall i c, String.get i s = Some c -> c <> "."%char /\ c <> "/"%char.

End SpecWords.

(** ** The watcher's inputs *)

Section WatcherWords.
Context `{Unicode.FoldTables}.

(** The path a turn of the watcher is to send: the name of an event that
    has the [Create] bit and a supported extension. *)
Definition qualifies (cfg : Config) (t : WatchTurn) : option string :=
  match input t with
  | GotEvent event =>
      if (Z.land (Op event) fsnotify_Create =? fsnotify_Create)
         && isSupportedFile cfg (Name event)
      then Some (Name event) else None
  | _ => None
  end.

Definition qualifying (cfg : Config) (turns : list WatchTurn) : list string :=
  omap (qualifies cfg) turns.

End WatcherWords.

(** Whether the watcher's channels hand the turn an event or an error. *)
Definition delivers (t : WatchTurn) : bool :=
  match input t with
  | GotEvent _ | GotError _ => true
  | _ => false
  end.

(** ** Sequences of channel operations *)

Fixpoint pushes (xs : list string) (c : Chan) : Chan :=
  match xs with
  | [] => c
  | x :: xs' => pushes xs' (chan_push x c)
  end.

Fixpoint pops (k : nat) (c : Chan) : list string * Chan :=
  match k with
  | O => ([], c)
  | S k' =>
      match chan_pop c with
      | (Some x, c') => let '(xs, c'') := pops k' c' in (x :: xs, c'')
      | (None, _) => ([], c)
      end
  end.

(** ** Runs of the goroutines *)

(** The paths a trace takes from the queue. *)
Definition recvs (t : list Event) : list string :=
  List.flat_map (fun e => match e with EvRecv x => [x] | _ => [] end) t.

(** What a run of the worker's loop does, [xs] being the paths it took and
    [t] its events. *)
Record worked (s : State) (xs : list string) (t : list Event) (s' : State)
  : Prop := {
  worked_config : config s' = config s;
  worked_ctx : ctxDone s' = ctxDone s;
  worked_exec : exec s' = exec s;
  worked_trace : trace s' = trace s ++ t;
  worked_buf : buf (uploadChan s) = xs ++ buf (uploadChan s');
  worked_cap : cap (uploadChan s') = cap (uploadChan s);
  worked_closed : closed (uploadChan s') = closed (uploadChan s);
  worked_recvs : recvs t = xs;
  worked_sends : sends t = [];
  worked_removes : removes t `sublist_of` xs;
  worked_runs :
    (List.length (runs t)
     <= List.length xs * Z.to_nat (RetryCount (Upload (config s))))%nat;
  worked_started : started s' = (started s + List.length (runs t))%nat;
  worked_argv :
    List.Forall (fun a => exists x, In x xs /\
                   a.1 = "rclone" :: rcloneArgs (config s) x) (runs t);
  worked_keep :
    DeleteAfterUpload (Rclone (config s)) = false ->
    files s' = files s /\ removes t = [];
  worked_files : forall p, p ∉ removes t -> files s' !! p = files s !! p;
  worked_sub : files s' ⊆ files s
}.

(** The attempt numbers of the warnings of a trace, each with the total it
    was printed with. *)
Definition warned (t : list Event) : list (Z * Z) :=
  List.flat_map (fun e => match e with
                          | EvLog WarnLevel (MsgAttemptFailed i k _) => [(i, k)]
                          | _ => []
                          end) t.

(** The numbers [i + 1 .. i + j], each paired with [k]. *)
Fixpoint numbered (j : nat) (i k : Z) : list (Z * Z) :=
  match j with
  | O => []
  | S j' => (i + 1, k) :: numbered j' (i + 1) k
  end.

(** The state in which the watcher reaches the [select] of
    [handleFileCreated] for the path [x]. *)
Definition settled (x : string) (s : State) : State :=
  paused (seconds (WaitTime (Upload (config s))))
         (logged InfoLevel (MsgDetected x) s).

(** What a run of the watcher's loop does: it sends [xs] and sleeps [n]
    settle delays. *)
Record watched (s : State) (xs : list string) (n : nat) (s' : State) : Prop := {
  watched_pushes : only_pushes s xs s';
  watched_sleeps :
    sleeps (since s s') = List.repeat (seconds (WaitTime (Upload (config s)))) n;
  watched_slept :
    slept s' = slept s
               + Z.of_nat n * Z.max 0 (seconds (WaitTime (Upload (config s))));
  watched_files : files s' = files s;
  watched_started : started s' = started s
}.

(** Numbers of seconds that [time.Sleep] does not wait for: those from
    -9223372036 to 0, whose nanoseconds fit an [int64] and are not positive,
    and those from 9223372037 to 18446744073, whose product with
    [time.Second] wraps around to a negative [int64]. *)
Definition no_wait (n : Z) : Prop :=
  -9223372036 <= n <= 0 \/ 9223372037 <= n <= 18446744073.

(** ** Sample data *)

(** The configuration file of the README, its two flags and its retry count
    left open. *)
Definition sample (delete check : bool) (retry : Z) : Config :=
  {| WatchDirectory := "/data/photos";
     SupportedExtensions := [".heif"; ".heic"; ".HEIF"; ".HEIC"];
     Rclone := {| RemoteName := "google-photos"; AlbumName := "Uploaded Photos";
                  DeleteAfterUpload := delete; CheckDuplicates := check |};
     Logging := {| Level := "info"; FilePath := ""; MaxSize := 0;
                   MaxBackups := 0; MaxAge := 0 |};
     Upload := {| ConcurrentUploads := 2; WaitTime := 30;
                  RetryCount := retry; RetryInterval := 5 |} |}.

Definition photo : string := "/data/photos/IMG_0001.HEIC".

(** A fresh uploader over a disk and an environment. *)
Definition fresh (cfg : Config) (disk : gmap string bool)
    (env : nat -> list string -> RunResult) : State :=
  boot {| p_config := cfg; p_uploadChan := make_chan 100; p_ctxDone := false |}
       disk env.

(** A tool that exits with status one every time, and one that exits with
    status zero every time. *)
Definition failing : nat -> list string -> RunResult := fun _ _ => Exited 1.
Definition succeeding : nat -> list string -> RunResult := fun _ _ => Exited 0.

(** The README's configuration with every number changed. *)
Definition other_config : Config :=
  {| WatchDirectory := "/srv/inbox";
     SupportedExtensions := [".jpg"];
     Rclone := {| RemoteName := "gphotos"; AlbumName := "Inbox";
                  DeleteAfterUpload := true; CheckDuplicates := false |};
     Logging := {| Level := "debug"; FilePath := "/var/log/uploader.log";
                   MaxSize := 500; MaxBackups := 7; MaxAge := 90 |};
     Upload := {| ConcurrentUploads := 64; WaitTime := 1;
                  RetryCount := 1000; RetryInterval := 600 |} |}.

(** An uploader whose context is done while its queue is full. *)
Definition stopped_full : State :=
  (cancel
     (set_uploadChan {| buf := List.repeat "/data/photos/old.heic" 100;
                        cap := 100; closed := false |}
        (fresh (sample false true 3) ∅ failing))).2.


(** An uploader whose watch directory has been replaced by a plain file:
    nothing is on disk, every look-up below the directory fails with
    [ENOTDIR], and the tool refuses every upload. *)
Definition misplaced : State :=
  set_lookupErr (fun _ => ENOTDIR) (fresh (sample false true 3) ∅ failing).


(** What the watcher sees when the photo is created, a text file is created
    beside it, the photo is only written to, the notification mechanism
    reports an error, and the photo is created a second time. *)
Definition seen (name : string) (op : Z) : WatchTurn :=
  {| input := GotEvent {| Name := name; Op := op |};
     drawDone := false; drawSend := true |}.

Definition recreated : list WatchTurn :=
  [ seen photo fsnotify_Create;
    seen "/data/photos/notes.txt" fsnotify_Create;
    seen photo fsnotify_Write;
    {| input := GotError (WatcherError "queue overflow");
       drawDone := false; drawSend := true |};
    seen photo (Z.lor fsnotify_Create fsnotify_Write) ].


(** An uploader with two photos waiting in its queue, the first of them on
    disk, and a tool that accepts every upload. *)
Definition queued : State :=
  set_uploadChan {| buf := [photo; "/data/photos/IMG_0002.heic"];
                    cap := 100; closed := false |}
    (fresh (sample true true 3) {[ photo := true ]} succeeding).

(** A tool that fails twice and then succeeds. *)
Definition flaky : nat -> list string -> RunResult :=
  fun k _ => if (k <? 2)%nat then Exited 1 else Exited 0.

(** An uploader whose queue is full while its context is not done. *)
Definition crowded : State :=
  set_uploadChan {| buf := List.repeat "/data/photos/old.heic" 100;
                    cap := 100; closed := false |}
    (fresh (sample false true 3) ∅ failing).

(** * Part III: facts about the library pieces *)

Module LibFacts.
Import GoString Utf8 Unicode Strings Filepath.

(** ** Bytes *)

Lemma byte_of_range c : 0 <= byte_of c < 256.
Proof.
  unfold byte_of. pose proof (N_ascii_bounded c). lia.
Qed.

Lemma byte_of_inj c d : byte_of c = byte_of d -> c = d.
Proof.
  unfold byte_of. intros H. apply N2Z.inj in H.
  rewrite <- (ascii_N_embedding c), <- (ascii_N_embedding d). now rewrite H.
Qed.

Lemma bytes_length s : List.length (bytes s) = String.length s.
Proof.
  unfold bytes. rewrite List.length_map.
  induction s as [|c s IH]; simpl; congruence.
Qed.

Lemma bytes_cons c s : bytes (String c s) = byte_of c :: bytes s.
Proof. reflexivity. Qed.

Lemma bytes_inj s t : bytes s = bytes t -> s = t.
Proof.
  revert t. induction s as [|c s IH]; intros [|d t]; simpl; try discriminate; auto.
  rewrite !bytes_cons. intros H. injection H as Hc Hs.
  f_equal; [now apply byte_of_inj | now apply IH].
Qed.

Lemma bytes_nonneg s : List.Forall (fun b => 0 <= b < 256) (bytes s).
Proof.
  induction s as [|c s IH]; [constructor|].
  rewrite bytes_cons. constructor; [apply byte_of_range | exact IH].
Qed.

(** ** Bitwise bounds *)

Lemma land_le_r a b : 0 <= b -> Z.land a b <= b.
Proof.
  intros Hb.
  assert (Hsum : Z.ldiff b a + Z.land b a = b).
  { rewrite Z.add_nocarry_lor.
    - apply Z.lor_ldiff_and.
    - apply Z.bits_inj'. intros n _.
      rewrite Z.land_spec, Z.ldiff_spec, Z.land_spec, Z.bits_0.
      destruct (Z.testbit b n), (Z.testbit a n); reflexivity. }
  assert (0 <= Z.ldiff b a) by (apply Z.ldiff_nonneg; lia).
  rewrite (Z.land_comm a b). lia.
Qed.

Lemma lor_lower a b : 0 <= a -> 0 <= b -> a <= Z.lor a b /\ b <= Z.lor a b.
Proof.
  intros Ha Hb. pose proof (Z.add_lor_land a b).
  pose proof (land_le_r a b Hb). pose proof (land_le_r b a Ha).
  rewrite (Z.land_comm b a) in *. lia.
Qed.

Lemma lor_lt_pow2 a b n : 0 <= a < 2 ^ n -> 0 <= b < 2 ^ n -> Z.lor a b < 2 ^ n.
Proof.
  intros Ha Hb.
  destruct (Z.eq_dec a 0) as [->|Ha0]; [rewrite Z.lor_0_l; lia|].
  destruct (Z.eq_dec b 0) as [->|Hb0]; [rewrite Z.lor_0_r; lia|].
  assert (0 < Z.lor a b).
  { pose proof (lor_lower a b). lia. }
  apply Z.log2_lt_pow2; [lia|].
  rewrite Z.log2_lor by lia.
  apply Z.max_lub_lt; apply Z.log2_lt_pow2; lia.
Qed.

Lemma land_mask_nonneg a m : 0 <= m -> 0 <= Z.land a m.
Proof. intros. apply Z.land_nonneg. now right. Qed.

Lemma land_low k a : 0 <= k -> Z.land a (Z.ones k) = a mod 2 ^ k.
Proof. apply Z.land_ones. Qed.

(** ** The decoder *)

Example decode_ascii : DecodeRuneInString [0x2E; 0x68] = (0x2E, 1%nat).
Proof. reflexivity. Qed.

(** U+212A KELVIN SIGN is E2 84 AA. *)
Example decode_kelvin : DecodeRuneInString [0xE2; 0x84; 0xAA] = (0x212A, 3%nat).
Proof. reflexivity. Qed.

Example decode_truncated : DecodeRuneInString [0xE2; 0x84] = (RuneError, 1%nat).
Proof. reflexivity. Qed.

Example decode_overlong : DecodeRuneInString [0xC0; 0xAE] = (RuneError, 1%nat).
Proof. reflexivity. Qed.

Lemma DecodeRune_ascii s0 rest : s0 < 0x80 -> DecodeRuneInString (s0 :: rest) = (s0, 1%nat).
Proof.
  intros H. unfold DecodeRuneInString, first.
  destruct (Z.ltb_spec s0 0x80); [|lia].
  cbn. now rewrite Z.lor_0_r, Z.land_m1_r.
Qed.

Lemma first_cases b :
  0x80 <= b ->
  first b = xx
  \/ (first b = s1 /\ 0xC2 <= b < 0xE0)
  \/ (first b = s2 /\ b = 0xE0)
  \/ (first b = s3 /\ 0xE1 <= b < 0xF0)
  \/ (first b = s4 /\ b = 0xED)
  \/ (first b = s5 /\ b = 0xF0)
  \/ (first b = s6 /\ 0xF1 <= b < 0xF4)
  \/ (first b = s7 /\ b = 0xF4).
Proof.
  intros Hb. unfold first.
  repeat match goal with
         | |- context [?x <? ?y] => destruct (Z.ltb_spec x y)
         | |- context [?x =? ?y] => destruct (Z.eqb_spec x y)
         end; try lia; intuition lia.
Qed.

Ltac nonneg_bits :=
  repeat (apply Z.lor_nonneg; split); Z.div_mod_to_equations; lia.

Ltac lor_bounds :=
  repeat match goal with
         | |- context [Z.lor ?a ?b] =>
             lazymatch goal with
             | _ : a <= Z.lor a b /\ b <= Z.lor a b |- _ => fail
             | _ =>
                 let Ha := fresh in let Hb := fresh in
                 assert (Ha : 0 <= a) by nonneg_bits;
                 assert (Hb : 0 <= b) by nonneg_bits;
                 pose proof (lor_lower a b Ha Hb)
             end
         end.

Lemma DecodeRune_nonascii s0 rest :
  0x80 <= s0 -> 0x80 <= (DecodeRuneInString (s0 :: rest)).1.
Proof.
  intros Hs0. unfold DecodeRuneInString.
  destruct (first_cases s0 Hs0) as [Hx|[[Hx Hr]|[[Hx Hr]|[[Hx Hr]|[[Hx Hr]|[[Hx Hr]|[[Hx Hr]|[Hx Hr]]]]]]]];
    rewrite Hx; clear Hx.
  { cbn. rewrite Z.land_0_r, Z.lor_0_l, Z.land_m1_r. unfold RuneError. lia. }
  all: set (b1 := List.nth 0 rest 0); set (b2 := List.nth 1 rest 0);
       set (b3 := List.nth 2 rest 0); set (n := List.length (s0 :: rest));
       clearbody b1 b2 b3 n.
  all: unfold mask2, mask3, mask4, maskx, locb, hicb.
  all: change 0x1F with (Z.ones 5) in *; change 0x3F with (Z.ones 6) in *;
       change 0x0F with (Z.ones 4) in *; change 0x07 with (Z.ones 3) in *.
  all: rewrite ?land_low by lia. 
  all: rewrite ?Z.shiftl_mul_pow2 by lia.
  all: repeat match goal with
         | |- context [acceptRanges ?k] =>
             let v := eval vm_compute in (acceptRanges k) in
             change (acceptRanges k) with v
         | |- context [Z.to_nat ?k] =>
             let v := eval vm_compute in (Z.to_nat k) in
             change (Z.to_nat k) with v
         end.
  all: cbn -[Z.lor Z.modulo Z.mul Z.pow Nat.ltb Z.ltb].
  all: repeat match goal with
         | |- context [if ?c then _ else _] => destruct c eqn:?
         end; cbn [fst]; try (unfold RuneError; lia).
  all: repeat match goal with
         | Hc : (_ || _)%bool = false |- _ => apply orb_false_elim in Hc; destruct Hc
         | Hc : (_ <? _) = false |- _ => apply Z.ltb_ge in Hc
         end.
  all: lor_bounds.
  all: Z.div_mod_to_equations; lia.
Qed.

Lemma rangeRunes_ascii_head s0 rest :
  s0 < 0x80 -> rangeRunes (s0 :: rest) = s0 :: rangeRunes rest.
Proof.
  intros H. simp rangeRunes. rewrite DecodeRune_ascii by exact H. reflexivity.
Qed.

(** ** [EqualFold] *)

Example EqualFold_heic : EqualFold (H := asciiOrbits) ".heic" ".HEIC" = true.
Proof. reflexivity. Qed.

Example EqualFold_heif : EqualFold (H := asciiOrbits) ".heic" ".HEIF" = false.
Proof. reflexivity. Qed.

(** [K] and U+212A KELVIN SIGN fold together, through the slow loop. *)
Example EqualFold_kelvin :
  EqualFold_bytes (H := asciiOrbits) [0x2E; 0x4B] [0x2E; 0xE2; 0x84; 0xAA] = true.
Proof. reflexivity. Qed.

Section FoldFacts.
Context `{FoldTables}.

Lemma EqualFold_bytes_nil_l t : EqualFold_bytes [] t = true <-> t = [].
Proof.
  destruct t; simpl; split; intros; congruence.
Qed.

Lemma EqualFold_empty_l e : EqualFold "" e = true <-> e = "".
Proof.
  unfold EqualFold. change (bytes "") with (@nil Z).
  rewrite EqualFold_bytes_nil_l. split.
  - intros He. apply bytes_inj. exact He.
  - intros ->. reflexivity.
Qed.

Lemma asciiPair_dot_l tr : asciiPair 0x2E tr = false.
Proof. reflexivity. Qed.

Lemma asciiPair_dot_r sr : sr < 0x2E -> asciiPair sr 0x2E = false.
Proof.
  intros Hs. unfold asciiPair.
  destruct (Z.leb_spec 0x41 sr); [lia | reflexivity].
Qed.

Lemma generalCase_dot tr : generalCase 0x2E tr = false.
Proof. reflexivity. Qed.

(** A string that begins with a dot folds to no string that does not. *)
Lemma EqualFold_dot_nodot rest e :
  (forall e', e <> String "." e') ->
  EqualFold (String "." rest) e = false.
Proof.
  intros Hne. unfold EqualFold. destruct e as [|c e'].
  - reflexivity.
  - rewrite !bytes_cons. change (byte_of ".") with 0x2E.
    assert (Hc : byte_of c <> 0x2E).
    { intros Hc. apply (Hne e'). f_equal.
      apply byte_of_inj. exact Hc. }
    pose proof (byte_of_range c) as Hr.
    set (tr := byte_of c) in *. clearbody tr.
    cbn [EqualFold_bytes].
    destruct (Z.ltb_spec tr 0x80) as [Hlo|Hhi].
    + assert (Hlor : Z.lor 0x2E tr < 2 ^ 7) by (apply lor_lt_pow2; lia).
      unfold RuneSelf.
      destruct (Z.leb_spec 0x80 (Z.lor 0x2E tr)); [lia|].
      destruct (Z.eqb_spec tr 0x2E); [lia|].
      destruct (Z.ltb_spec tr 0x2E).
      * now rewrite asciiPair_dot_r.
      * now rewrite asciiPair_dot_l.
    + assert (Hlor : tr <= Z.lor 0x2E tr) by (apply lor_lower; lia).
      unfold RuneSelf.
      destruct (Z.leb_spec 0x80 (Z.lor 0x2E tr)); [|lia].
      rewrite rangeRunes_ascii_head by lia.
      cbn [hasUnicode]. unfold RuneSelf.
      destruct (Z.ltb_spec tr 0x80); [lia|].
      pose proof (DecodeRune_nonascii tr (bytes e') Hhi) as Hd.
      set (d := DecodeRuneInString (tr :: bytes e')) in *. clearbody d.
      destruct (Z.eqb_spec d.1 0x2E); [lia|].
      destruct (Z.ltb_spec d.1 0x2E); [lia|].
      destruct (Z.ltb_spec d.1 0x80); [lia|].
      now rewrite generalCase_dot.
Qed.

Lemma asciiPair_lower sr tr :
  asciiPair sr tr = true -> toLowerASCII sr = toLowerASCII tr.
Proof.
  unfold asciiPair, toLowerASCII. intros Hp.
  apply andb_true_iff in Hp as [Hp Heq]. apply andb_true_iff in Hp as [Hlo Hhi].
  apply Z.leb_le in Hlo, Hhi. apply Z.eqb_eq in Heq. subst tr.
  destruct (Z.leb_spec 0x41 sr), (Z.leb_spec sr 0x5A); try lia.
  destruct (Z.leb_spec 0x41 (sr + 0x61 - 0x41)), (Z.leb_spec (sr + 0x61 - 0x41) 0x5A);
    simpl; lia.
Qed.

Lemma lower_asciiPair sr tr :
  sr < tr -> toLowerASCII sr = toLowerASCII tr -> asciiPair sr tr = true.
Proof.
  unfold asciiPair, toLowerASCII. intros Hlt.
  destruct (Z.leb_spec 0x41 sr), (Z.leb_spec sr 0x5A),
    (Z.leb_spec 0x41 tr), (Z.leb_spec tr 0x5A); simpl; intros Heq; try lia.
  all: apply Z.eqb_eq; lia.
Qed.

(** On ASCII strings [EqualFold] is equality up to the case of letters. *)
Lemma EqualFold_bytes_ascii s : forall t,
  List.Forall (fun b => 0 <= b < RuneSelf) s ->
  List.Forall (fun b => 0 <= b < RuneSelf) t ->
  EqualFold_bytes s t = true <->
  List.map toLowerASCII s = List.map toLowerASCII t.
Proof.
  induction s as [|sr s IH]; intros t Hs Ht.
  - destruct t; simpl; split; intros; congruence.
  - destruct t as [|tr t]; [simpl; split; intros; congruence|].
    inversion Hs as [|? ? Hsr Hs']; subst. inversion Ht as [|? ? Htr Ht']; subst.
    unfold RuneSelf in *.
    assert (Hlor : Z.lor sr tr < 2 ^ 7) by (apply lor_lt_pow2; lia).
    cbn [EqualFold_bytes List.map]. unfold RuneSelf.
    destruct (Z.leb_spec 0x80 (Z.lor sr tr)); [lia|].
    destruct (Z.eqb_spec tr sr) as [->|Hne].
    + rewrite (IH t Hs' Ht'). split; intros Heq; [now f_equal | now injection Heq].
    + destruct (Z.ltb_spec tr sr) as [Hlt|Hge].
      * destruct (asciiPair tr sr) eqn:Hp.
        -- rewrite (IH t Hs' Ht'). apply asciiPair_lower in Hp.
           split; intros Heq; [f_equal; [now symmetry | exact Heq] | now injection Heq].
        -- split; [discriminate|]. intros Heq. injection Heq as Hl _.
           symmetry in Hl. apply lower_asciiPair in Hl; [congruence | lia].
      * destruct (asciiPair sr tr) eqn:Hp.
        -- rewrite (IH t Hs' Ht'). apply asciiPair_lower in Hp.
           split; intros Heq; [f_equal; assumption | now injection Heq].
        -- split; [discriminate|]. intros Heq. injection Heq as Hl _.
           apply lower_asciiPair in Hl; [congruence | lia].
Qed.

Lemma isASCII_bytes s :
  isASCII s -> List.Forall (fun b => 0 <= b < RuneSelf) (bytes s).
Proof.
  unfold isASCII. intros Hs. pose proof (bytes_nonneg s) as Hn.
  rewrite List.Forall_forall in *. intros b Hb.
  specialize (Hs b Hb). specialize (Hn b Hb). lia.
Qed.

Lemma EqualFold_ascii s t :
  isASCII s -> isASCII t ->
  EqualFold s t = true <-> equal_ignoring_case s t.
Proof.
  intros Hs Ht. apply EqualFold_bytes_ascii; now apply isASCII_bytes.
Qed.

End FoldFacts.

(** ** [Ext] *)

Example Ext_heic : Ext "/data/photos/IMG_0001.HEIC" = ".HEIC".
Proof. reflexivity. Qed.

Example Ext_two_dots : Ext "a.tar.gz" = ".gz".
Proof. reflexivity. Qed.

Example Ext_dot_in_dir : Ext "/data/v1.2/README" = "".
Proof. reflexivity. Qed.

Example Ext_trailing_dot : Ext "photo." = ".".
Proof. reflexivity. Qed.

Example Ext_hidden : Ext ".heic" = ".heic".
Proof. reflexivity. Qed.

Lemma substring_all s : String.substring 0 (String.length s) s = s.
Proof. induction s as [|c s IH]; simpl; congruence. Qed.

Lemma get_split path : forall i c,
  String.get i path = Some c ->
  exists pre rest,
    path = pre +:+ String c rest /\ String.length pre = i /\
    String.substring i (String.length path - i) path = String c rest.
Proof.
  induction path as [|a p IH]; intros i c Hg; [destruct i; discriminate|].
  destruct i as [|i].
  - simpl in Hg. injection Hg as ->. exists "", p. repeat split.
    simpl. now rewrite substring_all.
  - simpl in Hg. destruct (IH i c Hg) as (pre & rest & Hp & Hl & Hs).
    exists (String a pre), rest. repeat split.
    + change (String a p = String a (pre +:+ String c rest)). now f_equal.
    + simpl. now rewrite Hl.
    + simpl. exact Hs.
Qed.

Lemma get_Some_lt s : forall i c,
  String.get i s = Some c -> (i < String.length s)%nat.
Proof.
  induction s as [|a s IH]; intros [|i] c Hg; simpl in *; try discriminate; try lia.
  apply IH in Hg. lia.
Qed.

Lemma Ext_from_spec path : forall n,
  Ext_from path n = ""
  \/ exists i, (i < n)%nat /\ String.get i path = Some "."%char /\
       Ext_from path n = String.substring i (String.length path - i) path /\
       forall j c, (i < j < n)%nat -> String.get j path = Some c ->
                   c <> "."%char /\ c <> "/"%char.
Proof.
  induction n as [|n IH]; [now left|].
  simpl. destruct (String.get n path) as [c|] eqn:Hg; [|now left].
  unfold IsPathSeparator.
  destruct (Ascii.eqb_spec c "/"); [now left|].
  destruct (Ascii.eqb_spec c ".") as [->|Hdot].
  - right. exists n. split; [lia|]. split; [exact Hg|]. split; [reflexivity|].
    intros j d Hj. lia.
  - destruct IH as [IH|(i & Hi & Hgi & He & Hrest)]; [now left|].
    right. exists i. split; [lia|]. split; [exact Hgi|]. split; [exact He|].
    intros j d Hj Hd.
    assert (j = n \/ (i < j < n)%nat) as [->|Hj'] by lia.
    + rewrite Hg in Hd. injection Hd as <-. now split.
    + now apply (Hrest j d Hj').
Qed.

(** [Ext path] is empty, or it is the suffix of [path] that starts at a dot
    and has no further dot and no separator. *)
Lemma Ext_shape path :
  Ext path = ""
  \/ exists pre rest,
       path = pre +:+ String "." rest /\ Ext path = String "." rest /\
       no_dot_sep rest.
Proof.
  unfold Ext.
  destruct (Ext_from_spec path (String.length path))
    as [He|(i & Hi & Hg & He & Hrest)]; [now left|].
  right. destruct (get_split path i _ Hg) as (pre & rest & Hp & Hl & Hs).
  exists pre, rest. split; [exact Hp|]. split; [now rewrite He, Hs|].
  intros k c Hk.
  assert (Hget : String.get k rest = String.get (S k + i) path).
  { rewrite Hp, <- Hl.
    rewrite <- (append_correct2 pre (String "." rest) (S k)). reflexivity. }
  rewrite Hget in Hk. pose proof (get_Some_lt _ _ _ Hk) as Hlt.
  apply (Hrest (S k + i)%nat c); [lia | exact Hk].
Qed.

(** ** [Ext] on paths built from their parts *)

Lemma length_append (p q : string) :
  String.length (p +:+ q) = (String.length p + String.length q)%nat.
Proof. induction p as [|c p IH]; [reflexivity | exact (f_equal S IH)]. Qed.

Lemma substring_append p q : forall i m,
  String.substring (String.length p + i) m (p +:+ q) = String.substring i m q.
Proof. induction p as [|c p IH]; intros i m; [reflexivity | apply IH]. Qed.

Lemma get_append p q i :
  String.get (String.length p + i) (p +:+ q) = String.get i q.
Proof.
  rewrite (append_correct2 p q i). f_equal. lia.
Qed.

(** Below a separator the scan of [Ext] sees only what follows it. *)
Lemma Ext_from_after_sep dir name : forall k,
  Ext_from (dir +:+ String "/" name) (String.length dir + 1 + k)
  = Ext_from name k.
Proof.
  set (path := dir +:+ String "/" name).
  assert (Hlen : String.length path = (String.length dir + 1 + String.length name)%nat).
  { unfold path. rewrite length_append. cbn. lia. }
  induction k as [|k IH].
  - replace (String.length dir + 1 + 0)%nat with (S (String.length dir)) by lia.
    cbn [Ext_from].
    replace (String.get (String.length dir) path) with (Some "/"%char); [reflexivity|].
    unfold path. rewrite <- (Nat.add_0_r (String.length dir)) at 1.
    now rewrite get_append.
  - replace (String.length dir + 1 + S k)%nat
      with (S (String.length dir + 1 + k)) by lia.
    cbn [Ext_from]. rewrite IH.
    replace (String.get (String.length dir + 1 + k) path)
      with (String.get k name).
    2: { unfold path. rewrite <- Nat.add_assoc, get_append.
         reflexivity. }
    destruct (String.get k name) as [c|]; [|reflexivity].
    destruct (IsPathSeparator c); [reflexivity|].
    destruct (Ascii.eqb c "."); [|reflexivity].
    unfold path at 2. rewrite <- Nat.add_assoc, substring_append.
    cbn [Nat.add String.substring]. f_equal. lia.
Qed.

Lemma Ext_last_element dir name :
  Ext (dir +:+ String "/" name) = Ext name.
Proof.
  unfold Ext. rewrite length_append. cbn [String.length].
  replace (String.length dir + S (String.length name))%nat
    with (String.length dir + 1 + String.length name)%nat by lia.
  apply Ext_from_after_sep.
Qed.

Lemma get_None_ge s : forall i,
  String.get i s = None -> (String.length s <= i)%nat.
Proof.
  induction s as [|a s IH]; intros [|i] Hg; cbn in *; try lia; try discriminate.
  apply IH in Hg. lia.
Qed.

(** The scan of [Ext] stops at the dot that begins a suffix without dot
    or separator. *)
Lemma Ext_from_suffix base rest :
  no_dot_sep rest ->
  forall k, (k <= String.length rest)%nat ->
  Ext_from (base +:+ String "." rest) (String.length base + 1 + k)
  = String "." rest.
Proof.
  intros Hrest. set (path := base +:+ String "." rest).
  assert (Hlen : String.length path = (String.length base + 1 + String.length rest)%nat).
  { unfold path. rewrite length_append. cbn. lia. }
  induction k as [|k IH]; intros Hk.
  - replace (String.length base + 1 + 0)%nat with (S (String.length base)) by lia.
    cbn [Ext_from].
    replace (String.get (String.length base) path) with (Some "."%char).
    2: { unfold path. rewrite <- (Nat.add_0_r (String.length base)) at 1.
         now rewrite get_append. }
    pose proof (substring_append base (String "." rest) 0
                  (String.length (String "." rest))) as Hs.
    rewrite Nat.add_0_r, substring_all in Hs. fold path in Hs.
    replace (String.length path - String.length base)%nat
      with (String.length (String "." rest)) by (rewrite Hlen; cbn; lia).
    rewrite Hs. reflexivity.
  - replace (String.length base + 1 + S k)%nat
      with (S (String.length base + 1 + k)) by lia.
    cbn [Ext_from]. rewrite IH by lia.
    replace (String.get (String.length base + 1 + k) path)
      with (String.get k rest).
    2: { unfold path. rewrite <- Nat.add_assoc, get_append. reflexivity. }
    destruct (String.get k rest) as [c|] eqn:Hc;
      [|apply get_None_ge in Hc; lia].
    destruct (Hrest k c Hc) as [Hdot Hsep].
    unfold IsPathSeparator.
    destruct (Ascii.eqb_spec c "/"); [contradiction|].
    destruct (Ascii.eqb_spec c "."); [contradiction | reflexivity].
Qed.

Lemma Ext_suffix base rest :
  no_dot_sep rest -> Ext (base +:+ String "." rest) = String "." rest.
Proof.
  intros Hrest. unfold Ext. rewrite length_append. cbn [String.length].
  replace (String.length base + S (String.length rest))%nat
    with (String.length base + 1 + String.length rest)%nat by lia.
  now apply Ext_from_suffix.
Qed.

Lemma Ext_idempotent path : Ext (Ext path) = Ext path.
Proof.
  destruct (Ext_shape path) as [->|(pre & rest & _ & -> & Hrest)]; [reflexivity|].
  now apply (Ext_suffix "" rest).
Qed.

Lemma Ext_no_dot name :
  (forall i, String.get i name <> Some "."%char) -> Ext name = "".
Proof.
  intros Hno. destruct (Ext_shape name) as [He|(pre & rest & Hp & _ & _)]; [exact He|].
  exfalso. apply (Hno (String.length pre)).
  rewrite Hp. rewrite <- (Nat.add_0_r (String.length pre)).
  now rewrite get_append.
Qed.

(** ** [EqualFold] of a string with itself *)

Section FoldRefl.
Context `{FoldTables}.

Lemma hasUnicode_refl : forall n s,
  (List.length s <= n)%nat -> hasUnicode (rangeRunes s) s = true.
Proof.
  induction n as [|n IH]; intros [|s0 rest] Hn; try reflexivity.
  - cbn in Hn. lia.
  - simp rangeRunes. cbv zeta. cbn [hasUnicode].
    unfold RuneSelf.
    destruct (Z.ltb_spec s0 0x80) as [Hlo|Hhi].
    + rewrite DecodeRune_ascii by exact Hlo. cbn [fst snd List.skipn].
      rewrite Z.eqb_refl. apply IH. cbn in Hn. lia.
    + rewrite Z.eqb_refl. apply IH.
      pose proof (DecodeRune_width (s0 :: rest) ltac:(discriminate)) as Hw.
      rewrite List.length_skipn. cbn [List.length] in *. lia.
Qed.

Lemma EqualFold_bytes_refl s : EqualFold_bytes s s = true.
Proof.
  induction s as [|sr s IH]; [reflexivity|].
  cbn [EqualFold_bytes]. rewrite Z.lor_diag.
  destruct (RuneSelf <=? sr); [now apply (hasUnicode_refl (List.length (sr :: s)))|].
  now rewrite Z.eqb_refl.
Qed.

Lemma EqualFold_refl s : EqualFold s s = true.
Proof. apply EqualFold_bytes_refl. Qed.

End FoldRefl.

End LibFacts.

(** * Part IV: facts about the program *)

Module ProgFacts.
Import GoString Utf8 Unicode Strings Filepath LibFacts.

(** ** Traces *)

Lemma runs_app a b : runs (a ++ b) = runs a ++ runs b.
Proof. apply List.flat_map_app. Qed.

Lemma sleeps_app a b : sleeps (a ++ b) = sleeps a ++ sleeps b.
Proof. apply List.flat_map_app. Qed.

Lemma sends_app a b : sends (a ++ b) = sends a ++ sends b.
Proof. apply List.flat_map_app. Qed.

Lemma removes_app a b : removes (a ++ b) = removes a ++ removes b.
Proof. apply List.flat_map_app. Qed.

Lemma steps_app a b : steps (a ++ b) = steps a ++ steps b.
Proof. apply List.flat_map_app. Qed.

Lemma nap_app a b : nap (a ++ b) = nap a + nap b.
Proof. unfold nap. induction a as [|d a IH]; simpl; [reflexivity | rewrite IH; lia]. Qed.

Lemma nap_repeat d n : nap (List.repeat d n) = Z.of_nat n * Z.max 0 d.
Proof.
  induction n as [|n IH]; [reflexivity|].
  change (nap (List.repeat d (S n))) with (Z.max 0 d + nap (List.repeat d n)).
  rewrite IH. lia.
Qed.

Lemma since_app s s' t : trace s' = trace s ++ t -> since s s' = t.
Proof.
  intros Ht. unfold since. rewrite Ht, List.skipn_app, List.skipn_all, Nat.sub_diag.
  reflexivity.
Qed.

Lemma paced_S k d : paced (S (S k)) d = Attempt :: Pause d :: paced (S k) d.
Proof. reflexivity. Qed.

(** ** The primitives *)

(** Below the overflow of [int64] nanoseconds a duration of [n] seconds is
    [n] thousand million nanoseconds. *)
Lemma seconds_exact n :
  -9223372036 <= n <= 9223372036 -> seconds n = n * 1000000000.
Proof.
  intros Hn. unfold seconds, wrap64, time_Second.
  rewrite Z.mod_small; lia.
Qed.

Lemma cmd_Run_eq name args s :
  cmd_Run name args s = (run_error (exec s (started s) (name :: args)), ran (name :: args) s).
Proof. reflexivity. Qed.

Lemma logf_eq l m s : logf l m s = (tt, logged l m s).
Proof. reflexivity. Qed.

Lemma time_Sleep_eq d s : time_Sleep d s = (tt, paused d s).
Proof. reflexivity. Qed.

Lemma os_Remove_eq path s :
  os_Remove path s = (remove_result path s, removed path s).
Proof.
  unfold os_Remove, removed, remove_result, bind, get, emit, modify, ret.
  destruct (files s !! path) as [[]|]; reflexivity.
Qed.

Lemma run_error_None r : run_error r = None <-> r = Exited 0.
Proof.
  destruct r as [status|]; simpl; [|split; discriminate].
  destruct (Z.eqb_spec status 0) as [->|Hne]; split; try congruence; try discriminate.
Qed.

Lemma enqueue_eq coin x s :
  enqueue coin x s =
  match select2 (send_ready (uploadChan s)) (ctxDone s) coin with
  | First => if closed (uploadChan s) then (Panicked, s) else (Returned, sent x s)
  | Second => (Returned, s)
  | Wait => (Blocked, s)
  end.
Proof.
  unfold enqueue, bind, get. destruct (select2 _ _ _); try reflexivity.
  destruct (closed _); reflexivity.
Qed.

(** ** Composing runs *)

Lemma after_refl s : after s [] s.
Proof.
  split; try reflexivity.
  - now rewrite List.app_nil_r.
  - simpl. lia.
  - simpl. lia.
Qed.

Lemma after_trans s t1 s1 t2 s2 :
  after s t1 s1 -> after s1 t2 s2 -> after s (t1 ++ t2) s2.
Proof.
  intros [] []. split; try congruence.
  - rewrite List.app_assoc. congruence.
  - rewrite runs_app, List.length_app. lia.
  - rewrite sleeps_app, nap_app. lia.
Qed.

Lemma after_ran argv s : after s [EvRun argv (exec s (started s) argv)] (ran argv s).
Proof. split; try reflexivity; simpl; lia. Qed.

Lemma after_logged l m s : after s [EvLog l m] (logged l m s).
Proof. split; try reflexivity; simpl; lia. Qed.

Lemma after_paused d s : after s [EvSleep d] (paused d s).
Proof. split; try reflexivity; simpl; lia. Qed.

Lemma framed_trans s t1 s1 t2 s2 :
  framed s t1 s1 -> framed s1 t2 s2 -> framed s (t1 ++ t2) s2.
Proof.
  intros [] []. split; try congruence.
  rewrite List.app_assoc. congruence.
Qed.

Lemma framed_after s t s' : after s t s' -> framed s t s'.
Proof. intros []. now split. Qed.

Lemma framed_logged l m s : framed s [EvLog l m] (logged l m s).
Proof. now split. Qed.

Lemma framed_removed path s :
  framed s [EvRemove path (remove_result path s)] (removed path s).
Proof. unfold removed. destruct (remove_result path s); now split. Qed.

Lemma only_pops_refl s : only_pops s [] s.
Proof.
  split; try reflexivity; [now rewrite List.app_nil_r | now exists 0%nat].
Qed.

Lemma only_pops_trans s t1 s1 t2 s2 :
  only_pops s t1 s1 -> only_pops s1 t2 s2 -> only_pops s (t1 ++ t2) s2.
Proof.
  intros [Ht1 Hs1 [k1 Hb1] Hc1 Hd1] [Ht2 Hs2 [k2 Hb2] Hc2 Hd2]. split; try congruence.
  - rewrite List.app_assoc. congruence.
  - rewrite sends_app, Hs1, Hs2. reflexivity.
  - exists (k1 + k2)%nat. rewrite Hb2, Hb1, List.skipn_skipn. f_equal. lia.
Qed.

(** ** The retry loop *)

(** The loop in the shape of the source: the count [remaining] stands for
    the loop condition [i < RetryCount]. *)
Lemma retryLoop_for cfg args i :
  retryLoop cfg args (Z.to_nat (RetryCount (Upload cfg) - i)) i =
  if i <? RetryCount (Upload cfg) then
    (err <- cmd_Run "rclone" args ;;
     match err with
     | Some e =>
         logf WarnLevel (MsgAttemptFailed (i + 1) (RetryCount (Upload cfg)) e) ;;;
         if i <? RetryCount (Upload cfg) - 1 then
           time_Sleep (seconds (RetryInterval (Upload cfg))) ;;;
           retryLoop cfg args (Z.to_nat (RetryCount (Upload cfg) - (i + 1))) (i + 1)
         else ret (Some (UploadFailed (RetryCount (Upload cfg)) e))
     | None => ret None
     end)
  else ret None.
Proof.
  destruct (Z.ltb_spec i (RetryCount (Upload cfg))) as [Hlt|Hge].
  - replace (Z.to_nat (RetryCount (Upload cfg) - i))
      with (S (Z.to_nat (RetryCount (Upload cfg) - (i + 1)))) by lia.
    reflexivity.
  - replace (Z.to_nat (RetryCount (Upload cfg) - i)) with 0%nat by lia.
    reflexivity.
Qed.

Lemma retryLoop_S cfg args n i s :
  retryLoop cfg args (S n) i s =
  match run_error (exec s (started s) ("rclone" :: args)) with
  | None => (None, ran ("rclone" :: args) s)
  | Some e =>
      let s1 := logged WarnLevel (MsgAttemptFailed (i + 1) (RetryCount (Upload cfg)) e)
                       (ran ("rclone" :: args) s) in
      if i <? RetryCount (Upload cfg) - 1
      then retryLoop cfg args n (i + 1) (paused (seconds (RetryInterval (Upload cfg))) s1)
      else (Some (UploadFailed (RetryCount (Upload cfg)) e), s1)
  end.
Proof.
  cbn [retryLoop]. unfold bind at 1. rewrite cmd_Run_eq.
  destruct (run_error _); [|reflexivity].
  unfold bind at 1. rewrite logf_eq. cbv zeta.
  destruct (_ <? _); [|reflexivity].
  unfold bind at 1. rewrite time_Sleep_eq. reflexivity.
Qed.

(** The loop touches neither the files nor the channel, and its events are
    attempts with the same command line, warnings and pauses. *)
Lemma retryLoop_after cfg args : forall n i s,
  exists t,
    after s t (retryLoop cfg args n i s).2 /\
    List.Forall (fun a => a.1 = "rclone" :: args) (runs t) /\
    removes t = [] /\ sends t = [].
Proof.
  induction n as [|n IH]; intros i s.
  - exists []. simpl. split; [apply after_refl|]. repeat split; constructor.
  - rewrite retryLoop_S.
    set (argv := "rclone" :: args).
    destruct (run_error _) as [e|].
    + cbv zeta. set (s1 := logged _ _ _).
      assert (H1 : after s [EvRun argv (exec s (started s) argv);
                            EvLog WarnLevel (MsgAttemptFailed (i + 1) (RetryCount (Upload cfg)) e)] s1).
      { apply (after_trans s [_] (ran argv s) [_]); [apply after_ran | apply after_logged]. }
      destruct (_ <? _).
      * destruct (IH (i + 1) (paused (seconds (RetryInterval (Upload cfg))) s1))
          as (t & Ht & Hargs & Hrm & Hsn).
        eexists. split; [|split; [|split]].
        -- eapply after_trans; [exact H1|].
           eapply (after_trans _ [_] _ t); [apply after_paused | exact Ht].
        -- simpl. constructor; [reflexivity | exact Hargs].
        -- simpl. exact Hrm.
        -- simpl. exact Hsn.
      * eexists. split; [exact H1|]. simpl. repeat split; repeat constructor.
    + eexists. split; [apply after_ran|]. simpl. repeat split; repeat constructor.
Qed.

(** With a tool that always fails the loop makes every attempt the
    condition admits, pauses between two attempts, and returns the error. *)
Lemma retryLoop_all_fail cfg args : forall n i s,
  always_fails (exec s) ->
  i + Z.of_nat (S n) = RetryCount (Upload cfg) ->
  exists t cause,
    retryLoop cfg args (S n) i s =
      (Some (UploadFailed (RetryCount (Upload cfg)) cause),
       (retryLoop cfg args (S n) i s).2) /\
    after s t (retryLoop cfg args (S n) i s).2 /\
    steps t = paced (S n) (seconds (RetryInterval (Upload cfg))) /\
    List.length (runs t) = S n /\
    sleeps t = List.repeat (seconds (RetryInterval (Upload cfg))) n.
Proof.
  induction n as [|n IH]; intros i s Hfail Hi.
  - rewrite retryLoop_S. set (argv := "rclone" :: args).
    destruct (run_error _) as [e|] eqn:He.
    2: { apply run_error_None in He. now apply Hfail in He. }
    cbv zeta. destruct (Z.ltb_spec i (RetryCount (Upload cfg) - 1)); [lia|].
    exists [EvRun argv (exec s (started s) argv);
            EvLog WarnLevel (MsgAttemptFailed (i + 1) (RetryCount (Upload cfg)) e)], e.
    split; [reflexivity|]. split.
    + apply (after_trans s [_] (ran argv s) [_]); [apply after_ran | apply after_logged].
    + repeat split.
  - rewrite retryLoop_S. set (argv := "rclone" :: args).
    destruct (run_error _) as [e|] eqn:He.
    2: { apply run_error_None in He. now apply Hfail in He. }
    cbv zeta. destruct (Z.ltb_spec i (RetryCount (Upload cfg) - 1)); [|lia].
    set (s2 := paused _ _).
    destruct (IH (i + 1) s2) as (t & cause & Heq & Ht & Hsteps & Hruns & Hsl).
    { exact Hfail. }
    { lia. }
    exists ([EvRun argv (exec s (started s) argv);
             EvLog WarnLevel (MsgAttemptFailed (i + 1) (RetryCount (Upload cfg)) e);
             EvSleep (seconds (RetryInterval (Upload cfg)))] ++ t), cause.
    split; [rewrite Heq at 1; reflexivity|]. split.
    + eapply after_trans; [|exact Ht].
      apply (after_trans s [_; _] (logged WarnLevel (MsgAttemptFailed (i + 1) (RetryCount (Upload cfg)) e) (ran argv s)) [_]);
        [|apply after_paused].
      apply (after_trans s [_] (ran argv s) [_]); [apply after_ran | apply after_logged].
    + split; [|split].
      * change (Attempt :: Pause (seconds (RetryInterval (Upload cfg))) :: steps t =
                paced (S (S n)) (seconds (RetryInterval (Upload cfg)))).
        rewrite paced_S. now rewrite Hsteps.
      * change (S (List.length (runs t)) = S (S n)). now rewrite Hruns.
      * change (seconds (RetryInterval (Upload cfg)) :: sleeps t =
                seconds (RetryInterval (Upload cfg)) ::
                List.repeat (seconds (RetryInterval (Upload cfg))) n).
        now rewrite Hsl.
Qed.

(** How the loop ends: with [nil] right after an attempt that exited with
    status zero (or at once, when the condition admits no attempt), with an
    error after attempts none of which did. *)
Lemma retryLoop_verdict cfg args : forall n i s,
  n = 0%nat \/ i + Z.of_nat n = RetryCount (Upload cfg) ->
  exists t,
    after s t (retryLoop cfg args n i s).2 /\
    match (retryLoop cfg args n i s).1 with
    | None =>
        (n = 0%nat /\ t = [])
        \/ exists t0, t = t0 ++ [EvRun ("rclone" :: args) (Exited 0)] /\
                      List.Forall failed (runs t0)
    | Some e =>
        List.Forall failed (runs t) /\ runs t <> [] /\
        exists cause, e = UploadFailed (RetryCount (Upload cfg)) cause
    end.
Proof.
  induction n as [|n IH]; intros i s Hinv.
  - exists []. split; [apply after_refl|]. simpl. now left.
  - destruct Hinv as [|Hinv]; [discriminate|].
    rewrite retryLoop_S. set (argv := "rclone" :: args).
    destruct (run_error _) as [e|] eqn:He.
    + assert (Hf : exec s (started s) argv <> Exited 0).
      { intros Hz. apply run_error_None in Hz. congruence. }
      cbv zeta. set (s1 := logged _ _ _).
      assert (H1 : after s [EvRun argv (exec s (started s) argv);
                            EvLog WarnLevel (MsgAttemptFailed (i + 1) (RetryCount (Upload cfg)) e)] s1).
      { apply (after_trans s [_] (ran argv s) [_]); [apply after_ran | apply after_logged]. }
      destruct (Z.ltb_spec i (RetryCount (Upload cfg) - 1)) as [Hlt|Hge].
      * destruct (IH (i + 1) (paused (seconds (RetryInterval (Upload cfg))) s1))
          as (t & Ht & Hv); [right; lia|].
        exists ([EvRun argv (exec s (started s) argv);
                 EvLog WarnLevel (MsgAttemptFailed (i + 1) (RetryCount (Upload cfg)) e);
                 EvSleep (seconds (RetryInterval (Upload cfg)))] ++ t).
        split.
        -- eapply after_trans; [|exact Ht].
           apply (after_trans s [_; _] s1 [_]); [exact H1 | apply after_paused].
        -- destruct (retryLoop cfg args n (i + 1) _).1 as [e'|].
           ++ destruct Hv as (Hall & Hne & Hc). split; [|split; [|exact Hc]].
              ** simpl. constructor; [exact Hf | exact Hall].
              ** simpl. discriminate.
           ++ right. destruct Hv as [[-> ->]|(t0 & -> & Hall)].
              ** lia.
              ** eexists (_ :: _ :: _ :: t0). split; [reflexivity|].
                 simpl. constructor; [exact Hf | exact Hall].
      * exists [EvRun argv (exec s (started s) argv);
                EvLog WarnLevel (MsgAttemptFailed (i + 1) (RetryCount (Upload cfg)) e)].
        split; [exact H1|]. simpl. split; [|split].
        -- constructor; [exact Hf | constructor].
        -- discriminate.
        -- now exists e.
    + apply run_error_None in He.
      exists [EvRun argv (exec s (started s) argv)]. split; [apply after_ran|].
      simpl. right. exists []. split; [now rewrite He | constructor].
Qed.

Lemma retryLoop_inputs cfg args : forall n i s1 s2,
  same_inputs s1 s2 ->
  (retryLoop cfg args n i s1).1 = (retryLoop cfg args n i s2).1.
Proof.
  induction n as [|n IH]; intros i s1 s2 Hs; [reflexivity|].
  rewrite !retryLoop_S. destruct Hs as (Hc & Hf & He & Hn & Hl).
  rewrite He, Hn. destruct (run_error _); [|reflexivity].
  cbv zeta. destruct (_ <? _); [|reflexivity].
  apply IH. repeat split; simpl; congruence.
Qed.

(** The events of the loop, one iteration unfolded. *)
Lemma retryLoop_since_S cfg args n i s :
  let argv := "rclone" :: args in
  let r := exec s (started s) argv in
  since s (retryLoop cfg args (S n) i s).2 =
  match run_error r with
  | None => [EvRun argv r]
  | Some e =>
      EvRun argv r
      :: EvLog WarnLevel (MsgAttemptFailed (i + 1) (RetryCount (Upload cfg)) e)
      :: (if i <? RetryCount (Upload cfg) - 1
          then
            let s2 := paused (seconds (RetryInterval (Upload cfg)))
                        (logged WarnLevel
                           (MsgAttemptFailed (i + 1) (RetryCount (Upload cfg)) e)
                           (ran argv s)) in
            EvSleep (seconds (RetryInterval (Upload cfg)))
            :: since s2 (retryLoop cfg args n (i + 1) s2).2
          else [])
  end.
Proof.
  cbv zeta. rewrite retryLoop_S. set (argv := "rclone" :: args).
  destruct (run_error _) as [e|]; cbv zeta.
  - destruct (_ <? _).
    + set (s2 := paused _ _).
      destruct (retryLoop_after cfg args n (i + 1) s2) as (t & Ht & _).
      pose proof (after_trace _ _ _ Ht) as Htr.
      rewrite (since_app _ _ _ Htr). apply since_app. rewrite Htr.
      cbn. now rewrite <- !List.app_assoc.
    + apply since_app. cbn. now rewrite <- !List.app_assoc.
  - now apply since_app.
Qed.

(** The invocations of the loop are the answers of the environment to the
    processes started, one after the other. *)
Lemma retryLoop_runs_env cfg args : forall n i s,
  let s' := (retryLoop cfg args n i s).2 in
  runs (since s s')
  = List.map (fun k => ("rclone" :: args,
                        exec s (started s + k)%nat ("rclone" :: args)))
             (List.seq 0 (started s' - started s)).
Proof.
  induction n as [|n IH]; intros i s; cbv zeta.
  - cbn. unfold since. now rewrite List.skipn_all, Nat.sub_diag.
  - rewrite retryLoop_since_S. cbv zeta. rewrite retryLoop_S.
    set (argv := "rclone" :: args).
    destruct (run_error _) as [e|]; cbv zeta.
    + destruct (_ <? _).
      * set (s2 := paused _ _).
        specialize (IH (i + 1) s2). cbv zeta in IH.
        destruct (retryLoop_after cfg args n (i + 1) s2) as (t & Ht & _).
        pose proof (after_started _ _ _ Ht) as Hst.
        change (started s2) with (S (started s)) in *.
        change (exec s2) with (exec s) in IH.
        replace (started (retryLoop cfg args n (i + 1) s2).2 - started s)%nat
          with (S (started (retryLoop cfg args n (i + 1) s2).2 - S (started s)))
          by lia.
        cbn [runs List.flat_map List.app List.seq List.map].
        rewrite <- plus_n_O. f_equal.
        change (List.flat_map _ (since s2 (retryLoop cfg args n (i + 1) s2).2))
          with (runs (since s2 (retryLoop cfg args n (i + 1) s2).2)).
        rewrite IH, <- List.seq_shift, List.map_map.
        apply List.map_ext. intros k. do 2 f_equal. lia.
      * cbn [snd started logged ran set_started set_trace].
        replace (S (started s) - started s)%nat with 1%nat by lia.
        cbn. now rewrite <- plus_n_O.
    + cbn [snd started logged ran set_started set_trace].
      replace (S (started s) - started s)%nat with 1%nat by lia.
      cbn. now rewrite <- plus_n_O.
Qed.

(** The loop makes the same invocations from two states with the same
    inputs. *)
Lemma retryLoop_runs_inputs cfg args : forall n i s1 s2,
  same_inputs s1 s2 ->
  runs (since s1 (retryLoop cfg args n i s1).2)
  = runs (since s2 (retryLoop cfg args n i s2).2).
Proof.
  induction n as [|n IH]; intros i s1 s2 Hs.
  - cbn. unfold since. now rewrite !List.skipn_all.
  - rewrite !retryLoop_since_S. cbv zeta.
    destruct Hs as (Hc & Hf & He & Hn & Hl). rewrite He, Hn.
    destruct (run_error _) as [e|]; [|reflexivity].
    destruct (_ <? _); [|reflexivity].
    cbn [runs List.flat_map List.app]. f_equal.
    apply IH. repeat split; simpl; congruence.
Qed.

(** ** [uploadFile] and the worker *)

Lemma reported_missing_eq path s :
  reported_missing path s =
  match files s !! path with
  | None => match lookupErr s path with ENOENT => true | _ => false end
  | Some _ => false
  end.
Proof.
  unfold reported_missing, os_Stat, bind, get, ret.
  destruct (files s !! path); [reflexivity|].
  cbn. destruct (lookupErr s path); reflexivity.
Qed.

Lemma reported_missing_None path s :
  reported_missing path s = true -> files s !! path = None.
Proof.
  rewrite reported_missing_eq. destruct (files s !! path); [discriminate | reflexivity].
Qed.

Lemma uploadFile_guard path s :
  uploadFile path s =
  if reported_missing path s then (Some (FileMissing path), s)
  else retryLoop (config s) (rcloneArgs (config s) path)
                 (Z.to_nat (RetryCount (Upload (config s)))) 0 s.
Proof.
  unfold uploadFile, reported_missing, bind, get.
  destruct (os_Stat path s) as [err s1] eqn:Hst.
  assert (s1 = s) as ->.
  { unfold os_Stat, bind, get, ret in Hst.
    destruct (files s !! path); now injection Hst. }
  cbn [fst]. destruct (os_IsNotExist err); reflexivity.
Qed.

Lemma uploadFile_eq path s :
  uploadFile path s =
  match files s !! path with
  | None =>
      match lookupErr s path with
      | ENOENT => (Some (FileMissing path), s)
      | _ =>
          retryLoop (config s) (rcloneArgs (config s) path)
                    (Z.to_nat (RetryCount (Upload (config s)))) 0 s
      end
  | Some _ =>
      retryLoop (config s) (rcloneArgs (config s) path)
                (Z.to_nat (RetryCount (Upload (config s)))) 0 s
  end.
Proof.
  rewrite uploadFile_guard, reported_missing_eq.
  destruct (files s !! path); [reflexivity|].
  destruct (lookupErr s path); reflexivity.
Qed.

Lemma uploadFile_inputs path s1 s2 :
  same_inputs s1 s2 -> (uploadFile path s1).1 = (uploadFile path s2).1.
Proof.
  intros Hs. rewrite !uploadFile_eq. pose proof Hs as (Hc & Hf & _ & _ & Hl).
  rewrite Hc, Hf, Hl.
  destruct (files s2 !! path); [now apply retryLoop_inputs|].
  destruct (lookupErr s2 path); try reflexivity; now apply retryLoop_inputs.
Qed.

Lemma same_inputs_logged l m s : same_inputs (logged l m s) s.
Proof. repeat split. Qed.

(** [uploadFile] in full: its frame, its command line, its verdict. *)
Lemma uploadFile_spec path s :
  exists t,
    after s t (uploadFile path s).2 /\
    List.Forall (fun a => a.1 = "rclone" :: rcloneArgs (config s) path) (runs t) /\
    removes t = [] /\ sends t = [].
Proof.
  rewrite uploadFile_guard. destruct (reported_missing path s).
  - exists []. split; [apply after_refl|]. repeat split; constructor.
  - apply retryLoop_after.
Qed.

Lemma process_eq workerID path s :
  process workerID path s =
  let s1 := logged InfoLevel (MsgUploading workerID path) s in
  match (uploadFile path s1).1 with
  | Some e =>
      (tt, logged ErrorLevel (MsgUploadFailed workerID path e) (uploadFile path s1).2)
  | None =>
      let s3 := logged InfoLevel (MsgUploadDone workerID path) (uploadFile path s1).2 in
      if DeleteAfterUpload (Rclone (config s3)) then
        match remove_result path s3 with
        | Some e => (tt, logged ErrorLevel (MsgRemoveFailed workerID path e) (removed path s3))
        | None => (tt, logged InfoLevel (MsgRemoved workerID path) (removed path s3))
        end
      else (tt, s3)
  end.
Proof.
  unfold process. unfold bind at 1. rewrite logf_eq. cbv zeta.
  unfold bind at 1. destruct (uploadFile path _) as [[e|] s2]; cbn [fst snd].
  - apply logf_eq.
  - unfold bind at 1. rewrite logf_eq. unfold bind at 1, get.
    destruct (DeleteAfterUpload _); [|reflexivity].
    unfold bind at 1. rewrite os_Remove_eq.
    destruct (remove_result _ _); apply logf_eq.
Qed.

(** [process] touches neither the channel nor the context, sends nothing,
    and its attempts carry the command line of [uploadFile]. *)
Lemma process_frame workerID path s :
  exists t,
    framed s t (process workerID path s).2 /\
    sends t = [] /\
    List.Forall (fun a => a.1 = "rclone" :: rcloneArgs (config s) path) (runs t).
Proof.
  rewrite process_eq. cbv zeta.
  set (s1 := logged InfoLevel (MsgUploading workerID path) s).
  destruct (uploadFile_spec path s1) as (t & Ht & Hargs & Hrm & Hsn).
  apply framed_after in Ht.
  pose proof (framed_trans _ _ _ _ _ (framed_logged InfoLevel (MsgUploading workerID path) s) Ht) as H2.
  change (config s1) with (config s) in Hargs.
  set (s2 := (uploadFile path s1).2) in *.
  destruct (uploadFile path s1).1 as [e|].
  - eexists. split; [|split].
    + cbn [snd]. eapply framed_trans; [exact H2 | apply framed_logged].
    + rewrite !sends_app, Hsn. reflexivity.
    + rewrite !runs_app. cbn. rewrite ?List.app_nil_r. exact Hargs.
  - set (s3 := logged InfoLevel (MsgUploadDone workerID path) s2).
    pose proof (framed_trans _ _ _ _ _ H2 (framed_logged InfoLevel (MsgUploadDone workerID path) s2)) as H3.
    fold s3 in H3.
    destruct (DeleteAfterUpload _).
    + pose proof (framed_trans _ _ _ _ _ H3 (framed_removed path s3)) as H4.
      destruct (remove_result path s3) as [e|]; cbn [snd].
      * eexists. split; [|split].
        -- eapply framed_trans; [exact H4 | apply framed_logged].
        -- rewrite !sends_app, Hsn. reflexivity.
        -- rewrite !runs_app. cbn. rewrite ?List.app_nil_r. exact Hargs.
      * eexists. split; [|split].
        -- eapply framed_trans; [exact H4 | apply framed_logged].
        -- rewrite !sends_app, Hsn. reflexivity.
        -- rewrite !runs_app. cbn. rewrite ?List.app_nil_r. exact Hargs.
    + eexists. split; [|split].
      * cbn [snd]. exact H3.
      * rewrite !sends_app, Hsn. reflexivity.
      * rewrite !runs_app. cbn. rewrite ?List.app_nil_r. exact Hargs.
Qed.

(** The invocations [uploadFile] makes depend on its inputs only, and they
    are all the invocations of [process]. *)
Lemma uploadFile_runs_inputs path s1 s2 :
  same_inputs s1 s2 ->
  runs (since s1 (uploadFile path s1).2) = runs (since s2 (uploadFile path s2).2).
Proof.
  intros Hs. rewrite !uploadFile_guard, !reported_missing_eq.
  pose proof Hs as (Hc & Hf & _ & _ & Hl). rewrite Hc, Hf, Hl.
  assert (Hnone : forall s0 : State, runs (since s0 s0) = []).
  { intros s0. unfold since. now rewrite List.skipn_all. }
  destruct (files s2 !! path); [now apply retryLoop_runs_inputs|].
  destruct (lookupErr s2 path); cbn [snd]; rewrite ?Hnone; try reflexivity;
    now apply retryLoop_runs_inputs.
Qed.

Lemma process_runs workerID path s :
  runs (since s (process workerID path s).2)
  = runs (since s (uploadFile path s).2).
Proof.
  rewrite <- (uploadFile_runs_inputs path _ s
                (same_inputs_logged InfoLevel (MsgUploading workerID path) s)).
  rewrite process_eq. cbv zeta.
  set (s1 := logged InfoLevel (MsgUploading workerID path) s).
  destruct (uploadFile_spec path s1) as (t & Ht & _).
  pose proof (after_trace _ _ _ Ht) as Htr.
  rewrite (since_app _ _ _ Htr).
  set (s2 := (uploadFile path s1).2) in *.
  assert (Htr2 : trace s2 = trace s ++ [EvLog InfoLevel (MsgUploading workerID path)] ++ t).
  { rewrite Htr. cbn. now rewrite <- List.app_assoc. }
  destruct (uploadFile path s1).1 as [e|]; cbn [snd].
  - rewrite (since_app s _ ([EvLog InfoLevel (MsgUploading workerID path)] ++ t
                             ++ [EvLog ErrorLevel (MsgUploadFailed workerID path e)])).
    + rewrite !runs_app. cbn. now rewrite List.app_nil_r.
    + cbn [logged trace set_trace]. rewrite Htr2. now rewrite <- !List.app_assoc.
  - set (s3 := logged InfoLevel (MsgUploadDone workerID path) s2).
    assert (Htr3 : trace s3 = trace s ++ [EvLog InfoLevel (MsgUploading workerID path)]
                     ++ t ++ [EvLog InfoLevel (MsgUploadDone workerID path)]).
    { cbn [s3 logged trace set_trace]. rewrite Htr2. now rewrite <- !List.app_assoc. }
    destruct (DeleteAfterUpload _).
    + assert (Htr4 : trace (removed path s3) = trace s ++
                [EvLog InfoLevel (MsgUploading workerID path)] ++ t ++
                [EvLog InfoLevel (MsgUploadDone workerID path);
                 EvRemove path (remove_result path s3)]).
      { unfold removed. destruct (remove_result path s3);
          cbn [trace set_trace set_files]; rewrite Htr3;
          now rewrite <- !List.app_assoc. }
      destruct (remove_result path s3) as [e|] eqn:Hres; cbn [snd].
      * rewrite (since_app s _ ([EvLog InfoLevel (MsgUploading workerID path)] ++ t ++
                  [EvLog InfoLevel (MsgUploadDone workerID path);
                   EvRemove path (Some e);
                   EvLog ErrorLevel (MsgRemoveFailed workerID path e)])).
        -- rewrite !runs_app. cbn. now rewrite List.app_nil_r.
        -- cbn [logged trace set_trace]. rewrite Htr4.
           now rewrite <- !List.app_assoc.
      * rewrite (since_app s _ ([EvLog InfoLevel (MsgUploading workerID path)] ++ t ++
                  [EvLog InfoLevel (MsgUploadDone workerID path);
                   EvRemove path None;
                   EvLog InfoLevel (MsgRemoved workerID path)])).
        -- rewrite !runs_app. cbn. now rewrite List.app_nil_r.
        -- cbn [logged trace set_trace]. rewrite Htr4.
           now rewrite <- !List.app_assoc.
    + cbn [snd]. rewrite (since_app _ _ _ Htr3).
      rewrite !runs_app. cbn. now rewrite List.app_nil_r.
Qed.

Lemma workerTurn_eq workerID coin s :
  workerTurn workerID coin s =
  match select2 (ctxDone s) (recv_ready (uploadChan s)) coin with
  | First => (Some Returned, s)
  | Second =>
      match buf (uploadChan s) with
      | x :: _ => (None, (process workerID x (received x s)).2)
      | [] => (Some Returned, s)
      end
  | Wait => (Some Blocked, s)
  end.
Proof.
  unfold workerTurn, bind, get. destruct (select2 _ _ _); try reflexivity.
  unfold chan_pop, received, chan_pop. destruct (buf (uploadChan s)) as [|x rest] eqn:Hb.
  - reflexivity.
  - unfold modify, emit, modify, ret. cbn [snd].
    destruct (process workerID x _) as [[] s']. reflexivity.
Qed.

Lemma workerTurn_only_pops workerID coin s :
  exists t, only_pops s t (workerTurn workerID coin s).2.
Proof.
  rewrite workerTurn_eq.
  destruct (select2 _ _ _); try (exists []; apply only_pops_refl).
  destruct (buf (uploadChan s)) as [|x rest] eqn:Hb;
    [exists []; apply only_pops_refl|].
  cbn [snd].
  destruct (process_frame workerID x (received x s)) as (t & [Hc Hch Hcx He Ht] & Hsn & _).
  exists ([EvRecv x] ++ t). split.
  - rewrite Ht. cbn [received trace set_trace]. now rewrite <- List.app_assoc.
  - rewrite sends_app, Hsn. reflexivity.
  - exists 1%nat. rewrite Hch. cbn [received uploadChan set_trace set_uploadChan].
    unfold chan_pop. rewrite Hb. reflexivity.
  - rewrite Hch. cbn [received uploadChan set_trace set_uploadChan].
    unfold chan_pop. rewrite Hb. reflexivity.
  - rewrite Hch. cbn [received uploadChan set_trace set_uploadChan].
    unfold chan_pop. rewrite Hb. reflexivity.
Qed.

Lemma workerLoop_only_pops workerID : forall coins s,
  exists t, only_pops s t (workerLoop workerID coins s).2.
Proof.
  induction coins as [|coin coins IH]; intros s.
  - exists []. apply only_pops_refl.
  - cbn [workerLoop]. unfold bind.
    destruct (workerTurn_only_pops workerID coin s) as (t1 & H1).
    destruct (workerTurn workerID coin s) as [[o|] s1]; cbn [snd] in *.
    + exists t1. exact H1.
    + destruct (IH s1) as (t2 & H2). exists (t1 ++ t2).
      eapply only_pops_trans; eassumption.
Qed.

Example failing_upload_steps :
  steps (trace (uploadFile photo
                  (fresh (sample false true 3) {[ photo := true ]} failing)).2)
  = [Attempt; Pause 5000000000; Attempt; Pause 5000000000; Attempt].
Proof. vm_compute. reflexivity. Qed.

Example first_try_upload :
  trace (process 7 photo
           (fresh (sample true false 3) {[ photo := true ]} succeeding)).2
  = [EvLog InfoLevel (MsgUploading 7 photo);
     EvRun ["rclone"; "copy"; photo; "google-photos:Uploaded Photos"] (Exited 0);
     EvLog InfoLevel (MsgUploadDone 7 photo);
     EvRemove photo None;
     EvLog InfoLevel (MsgRemoved 7 photo)].
Proof. vm_compute. reflexivity. Qed.

(** ** The watcher *)

Section Watcher.
Context `{FoldTables}.

Lemma handleFileCreated_eq coin x s :
  handleFileCreated coin x s =
  if isSupportedFile (config s) x
  then enqueue coin x
         (paused (seconds (WaitTime (Upload (config s))))
                 (logged InfoLevel (MsgDetected x) s))
  else (Returned, s).
Proof.
  unfold handleFileCreated, bind, get.
  destruct (isSupportedFile _ _); reflexivity.
Qed.

Lemma rangeExtensions_spec ext exts :
  rangeExtensions ext exts = true <->
  exists e, In e exts /\ EqualFold ext e = true.
Proof.
  induction exts as [|e0 exts IH]; simpl.
  - split; [discriminate | intros (e & [] & _)].
  - destruct (EqualFold ext e0) eqn:He.
    + split; [intros _; exists e0; auto | reflexivity].
    + rewrite IH. split.
      * intros (e & Hin & Heq). exists e. auto.
      * intros (e & [<-|Hin] & Heq); [congruence | exists e; auto].
Qed.

Lemma watchTurn_create event dd ds s :
  Z.land (Op event) fsnotify_Create = fsnotify_Create ->
  ctxDone s = false ->
  (watchTurn {| input := GotEvent event; drawDone := dd; drawSend := ds |} s).2
  = (handleFileCreated ds (Name event) s).2.
Proof.
  intros Hop Hctx. unfold watchTurn, bind, get.
  rewrite Hctx. cbn [input drawDone drawSend select2]. rewrite Hop, Z.eqb_refl.
  destruct (handleFileCreated ds (Name event) s) as [[] s']; reflexivity.
Qed.

Lemma only_pushes_refl s : only_pushes s [] s.
Proof.
  split; try reflexivity.
  - unfold since. now rewrite List.skipn_all.
  - exists []. now rewrite List.app_nil_r.
  - now rewrite List.app_nil_r.
Qed.

Lemma only_pushes_trans s xs s1 ys s2 :
  only_pushes s xs s1 -> only_pushes s1 ys s2 -> only_pushes s (xs ++ ys) s2.
Proof.
  intros [Hc1 Hx1 Hs1 [t1 Ht1] Hb1 Hp1 Hd1] [Hc2 Hx2 Hs2 [t2 Ht2] Hb2 Hp2 Hd2].
  split; try congruence.
  - rewrite (since_app _ _ _ Ht1) in Hs1. rewrite (since_app _ _ _ Ht2) in Hs2.
    erewrite since_app; [|rewrite Ht2, Ht1, <- List.app_assoc; reflexivity].
    rewrite sends_app. congruence.
  - exists (t1 ++ t2). rewrite Ht2, Ht1. now rewrite List.app_assoc.
  - rewrite Hb2, Hb1. now rewrite List.app_assoc.
Qed.

Lemma enqueue_pushes coin x s :
  only_pushes s [] (enqueue coin x s).2 \/ only_pushes s [x] (enqueue coin x s).2.
Proof.
  rewrite enqueue_eq. destruct (select2 _ _ _); try (left; apply only_pushes_refl).
  destruct (closed _); [left; apply only_pushes_refl|].
  right. cbn [snd]. split; try reflexivity.
  - erewrite since_app; [|cbn; rewrite <- List.app_assoc; reflexivity]. reflexivity.
  - eexists. cbn. rewrite <- List.app_assoc. reflexivity.
Qed.

Lemma only_pushes_logged l m s : only_pushes s [] (logged l m s).
Proof.
  split; try reflexivity.
  - now rewrite (since_app s (logged l m s) [EvLog l m]).
  - now exists [EvLog l m].
  - now rewrite List.app_nil_r.
Qed.

Lemma only_pushes_paused d s : only_pushes s [] (paused d s).
Proof.
  split; try reflexivity.
  - now rewrite (since_app s (paused d s) [EvSleep d]).
  - now exists [EvSleep d].
  - now rewrite List.app_nil_r.
Qed.

Lemma handleFileCreated_pushes coin x s :
  only_pushes s [] (handleFileCreated coin x s).2
  \/ (isSupportedFile (config s) x = true /\
      only_pushes s [x] (handleFileCreated coin x s).2).
Proof.
  rewrite handleFileCreated_eq.
  destruct (isSupportedFile (config s) x) eqn:Hsup;
    [|left; apply only_pushes_refl].
  set (s1 := paused _ _).
  assert (H1 : only_pushes s [] s1).
  { apply (only_pushes_trans s [] (logged InfoLevel (MsgDetected x) s) []);
      [apply only_pushes_logged | apply only_pushes_paused]. }
  destruct (enqueue_pushes coin x s1) as [H2|H2].
  - left. apply (only_pushes_trans s [] s1 []); assumption.
  - right. split; [reflexivity|].
    apply (only_pushes_trans s [] s1 [x]); assumption.
Qed.

Lemma watchTurn_pushes t s :
  only_pushes s [] (watchTurn t s).2
  \/ exists x, qualifies (config s) t = Some x /\
               only_pushes s [x] (watchTurn t s).2.
Proof.
  unfold watchTurn, bind, get, qualifies.
  destruct (select2 _ _ _); try (left; apply only_pushes_refl).
  destruct (input t) as [|event| |err|]; try (left; apply only_pushes_refl).
  - destruct (_ =? _); [|left; apply only_pushes_refl].
    cbn [andb].
    assert (Hstate : forall p : Outcome * State,
              (let '(a, s') := p in
               match a with
               | Returned => ret None
               | _ => ret (Some a)
               end s').2 = p.2).
    { intros [[] s']; reflexivity. }
    rewrite Hstate.
    destruct (handleFileCreated_pushes (drawSend t) (Name event) s) as [Hp|[Hsup Hp]].
    + now left.
    + right. exists (Name event). rewrite Hsup. now split.
  - left. rewrite logf_eq. cbn [snd]. apply only_pushes_logged.
Qed.

Lemma watchFiles_pushes : forall turns s,
  exists xs,
    only_pushes s xs (watchFiles turns s).2 /\
    xs `sublist_of` qualifying (config s) turns.
Proof.
  induction turns as [|t turns IH]; intros s.
  - exists []. split; [apply only_pushes_refl | apply sublist_nil_l].
  - cbn [watchFiles]. unfold bind at 1.
    pose proof (watchTurn_pushes t s) as Ht.
    destruct (watchTurn t s) as [[o|] s1]; cbn [snd] in *.
    + destruct Ht as [Ht|(x & Hq & Ht)].
      * exists []. split; [exact Ht | apply sublist_nil_l].
      * exists [x]. split; [exact Ht|].
        unfold qualifying. cbn [omap list_omap]. rewrite Hq.
        apply sublist_skip, sublist_nil_l.
    + destruct (IH s1) as (ys & Hys & Hsub).
      assert (Hcfg : config s1 = config s).
      { destruct Ht as [Ht|(x & _ & Ht)]; apply Ht. }
      rewrite Hcfg in Hsub.
      destruct Ht as [Ht|(x & Hq & Ht)].
      * exists ys. split; [apply (only_pushes_trans s [] s1 ys); assumption|].
        unfold qualifying. cbn [omap list_omap].
        destruct (qualifies (config s) t); [apply sublist_cons|]; exact Hsub.
      * exists (x :: ys). split; [apply (only_pushes_trans s [x] s1 ys); assumption|].
        unfold qualifying. cbn [omap list_omap]. rewrite Hq.
        now apply sublist_skip.
Qed.

Lemma watchTurn_exact t s :
  ctxDone s = false -> closed (uploadChan s) = false ->
  delivers t = true ->
  (List.length (buf (uploadChan s)) < cap (uploadChan s))%nat ->
  (watchTurn t s).1 = None /\
  only_pushes s (option_list (qualifies (config s) t)) (watchTurn t s).2.
Proof.
  intros Hctx Hcl Hdel Hroom.
  unfold watchTurn, bind, get, qualifies, delivers in *. rewrite Hctx.
  destruct (input t) as [|event| |err|]; try discriminate; cbn [select2].
  - destruct (_ =? _); [|split; [reflexivity | apply only_pushes_refl]].
    cbn [andb]. rewrite handleFileCreated_eq.
    destruct (isSupportedFile (config s) (Name event)) eqn:Hsup;
      [|split; [reflexivity | apply only_pushes_refl]].
    set (s1 := paused _ _).
    assert (H1 : only_pushes s [] s1).
    { apply (only_pushes_trans s [] (logged InfoLevel (MsgDetected (Name event)) s) []);
        [apply only_pushes_logged | apply only_pushes_paused]. }
    rewrite enqueue_eq. unfold send_ready.
    change (uploadChan s1) with (uploadChan s). change (ctxDone s1) with (ctxDone s).
    apply Nat.ltb_lt in Hroom. rewrite Hctx, Hcl, Hroom. cbn.
    split; [reflexivity|].
    apply (only_pushes_trans s [] s1 [Name event]); [exact H1|].
    split; try reflexivity.
    + now rewrite (since_app s1 (sent (Name event) s1)
                     [EvSend (Name event); EvLog DebugLevel (MsgQueued (Name event))])
        by (cbn; now rewrite <- List.app_assoc).
    + eexists. cbn. rewrite <- List.app_assoc. reflexivity.
  - split; [reflexivity|]. rewrite logf_eq. cbn [snd option_list].
    apply only_pushes_logged.
Qed.

Lemma qualifying_cons cfg t turns :
  qualifying cfg (t :: turns) = option_list (qualifies cfg t) ++ qualifying cfg turns.
Proof.
  unfold qualifying. cbn [omap list_omap]. now destruct (qualifies cfg t).
Qed.

Lemma watchFiles_exact : forall turns s,
  ctxDone s = false -> closed (uploadChan s) = false ->
  List.forallb delivers turns = true ->
  (List.length (buf (uploadChan s)) + List.length (qualifying (config s) turns)
   <= cap (uploadChan s))%nat ->
  (watchFiles turns s).1 = None /\
  only_pushes s (qualifying (config s) turns) (watchFiles turns s).2.
Proof.
  induction turns as [|t turns IH]; intros s Hctx Hcl Hdel Hroom.
  - split; [reflexivity | apply only_pushes_refl].
  - cbn [List.forallb] in Hdel. apply andb_true_iff in Hdel as [Hd Hdel].
    rewrite qualifying_cons in *. rewrite List.length_app in Hroom.
    cbn [watchFiles]. unfold bind.
    destruct (qualifies (config s) t) as [x|] eqn:Hq;
      cbn [option_list option_rect List.length List.app] in *.
    + destruct (watchTurn_exact t s Hctx Hcl Hd ltac:(lia)) as [Hnone Hp].
      rewrite Hq in Hp. cbn [option_list option_rect] in Hp.
      destruct (watchTurn t s) as [r s1]; cbn [fst snd] in *. subst r.
      destruct Hp as [Hc1 Hx1 Hs1 Ht1 Hb1 Hp1 Hd1].
      destruct (IH s1) as [Hr Hrest].
      { congruence. }
      { congruence. }
      { exact Hdel. }
      { rewrite Hc1, Hb1, Hp1, List.length_app. cbn [List.length]. lia. }
      split; [exact Hr|].
      rewrite Hc1 in Hrest.
      apply (only_pushes_trans s [x] s1 _); [now split | exact Hrest].
    + assert (Hpush : (watchTurn t s).1 = None /\ only_pushes s [] (watchTurn t s).2).
      { destruct (Nat.eq_dec (List.length (qualifying (config s) turns)) 0%nat) as [Hz|Hnz].
        - (* no room is needed: the turn sends nothing *)
          clear IH. unfold watchTurn, bind, get, qualifies, delivers in *.
          rewrite Hctx.
          destruct (input t) as [|event| |err|]; try discriminate; cbn [select2].
          + destruct (_ =? _); [|split; [reflexivity | apply only_pushes_refl]].
            cbn [andb] in Hq. rewrite handleFileCreated_eq.
            destruct (isSupportedFile (config s) (Name event)); [discriminate|].
            split; [reflexivity | apply only_pushes_refl].
          + split; [reflexivity|]. rewrite logf_eq. apply only_pushes_logged.
        - destruct (watchTurn_exact t s Hctx Hcl Hd ltac:(lia)) as [Hnone Hp].
          rewrite Hq in Hp. now split. }
      destruct Hpush as [Hnone Hp].
      destruct (watchTurn t s) as [r s1]; cbn [fst snd] in *. subst r.
      destruct Hp as [Hc1 Hx1 Hs1 Ht1 Hb1 Hp1 Hd1].
      destruct (IH s1) as [Hr Hrest].
      { congruence. }
      { congruence. }
      { exact Hdel. }
      { rewrite Hc1, Hb1, Hp1, List.app_nil_r. cbn [List.length] in Hroom. lia. }
      split; [exact Hr|].
      rewrite Hc1 in Hrest.
      apply (only_pushes_trans s [] s1 _); [now split | exact Hrest].
Qed.

End Watcher.

(** ** The channel *)

Lemma pushes_buf xs : forall c,
  pushes xs c = {| buf := buf c ++ xs; cap := cap c; closed := closed c |}.
Proof.
  induction xs as [|x xs IH]; intros [b n d]; cbn [pushes].
  - cbn. now rewrite List.app_nil_r.
  - rewrite IH. cbn. now rewrite <- List.app_assoc.
Qed.

Lemma pops_all : forall xs n d,
  pops (List.length xs) {| buf := xs; cap := n; closed := d |}
  = (xs, {| buf := []; cap := n; closed := d |}).
Proof.
  induction xs as [|x xs IH]; intros n d; [reflexivity|].
  cbn [List.length pops chan_pop buf cap closed]. now rewrite IH.
Qed.

(** ** Runs of the worker *)

Lemma recvs_app t1 t2 : recvs (t1 ++ t2) = recvs t1 ++ recvs t2.
Proof. apply List.flat_map_app. Qed.

Lemma retryLoop_started cfg args : forall n i s,
  (started (retryLoop cfg args n i s).2 <= started s + n)%nat.
Proof.
  induction n as [|n IH]; intros i s; [cbn; lia|].
  rewrite retryLoop_S. destruct (run_error _) as [e|]; cbv zeta.
  - destruct (_ <? _).
    + etransitivity; [apply IH|]. cbn. lia.
    + cbn. lia.
  - cbn. lia.
Qed.

Lemma retryLoop_recvs cfg args : forall n i s,
  recvs (since s (retryLoop cfg args n i s).2) = [].
Proof.
  induction n as [|n IH]; intros i s.
  - cbn. unfold since. now rewrite List.skipn_all.
  - destruct (retryLoop_after cfg args (S n) i s) as (t & Ht & _).
    rewrite (since_app _ _ _ (after_trace _ _ _ Ht)).
    revert t Ht. rewrite retryLoop_S.
    set (argv := "rclone" :: args).
    destruct (run_error _) as [e|]; cbv zeta.
    + set (s1 := logged _ _ _). destruct (_ <? _).
      * intros t Ht.
        set (s2 := paused (seconds (RetryInterval (Upload cfg))) s1) in *.
        specialize (IH (i + 1) s2).
        destruct (retryLoop_after cfg args n (i + 1) s2) as (t2 & Ht2 & _).
        rewrite (since_app _ _ _ (after_trace _ _ _ Ht2)) in IH.
        pose proof (after_trace _ _ _ Ht) as Htr.
        rewrite (after_trace _ _ _ Ht2) in Htr. cbn in Htr.
        rewrite <- !List.app_assoc in Htr. apply List.app_inv_head in Htr.
        subst t. cbn. exact IH.
      * intros t Ht. pose proof (after_trace _ _ _ Ht) as Htr. cbn in Htr.
        rewrite <- !List.app_assoc in Htr. apply List.app_inv_head in Htr.
        now subst t.
    + intros t Ht. pose proof (after_trace _ _ _ Ht) as Htr. cbn in Htr.
      apply List.app_inv_head in Htr. now subst t.
Qed.

Lemma uploadFile_effect path s :
  exists t,
    after s t (uploadFile path s).2 /\
    removes t = [] /\ sends t = [] /\ recvs t = [] /\
    (List.length (runs t) <= Z.to_nat (RetryCount (Upload (config s))))%nat /\
    List.Forall (fun a => a.1 = "rclone" :: rcloneArgs (config s) path) (runs t).
Proof.
  destruct (uploadFile_spec path s) as (t & Ht & Hargs & Hrm & Hsn).
  exists t. split; [exact Ht|]. split; [exact Hrm|]. split; [exact Hsn|].
  apply and_assoc. split; [|exact Hargs].
  pose proof (after_started _ _ _ Ht) as Hst.
  pose proof (after_trace _ _ _ Ht) as Htr.
  revert Hst Htr. rewrite uploadFile_guard.
  destruct (reported_missing path s).
  - cbn. intros Hst Htr.
    rewrite <- (List.app_nil_r (trace s)) in Htr at 1.
    apply List.app_inv_head in Htr. subst t. cbn. split; [reflexivity | lia].
  - intros Hst Htr. split.
    + pose proof (retryLoop_recvs (config s) (rcloneArgs (config s) path)
                    (Z.to_nat (RetryCount (Upload (config s)))) 0 s) as Hr.
      now rewrite (since_app _ _ _ Htr) in Hr.
    + pose proof (retryLoop_started (config s) (rcloneArgs (config s) path)
                    (Z.to_nat (RetryCount (Upload (config s)))) 0 s). lia.
Qed.

Lemma process_effect workerID x s :
  exists t,
    framed s t (process workerID x s).2 /\
    sends t = [] /\ recvs t = [] /\
    removes t `sublist_of` [x] /\
    (List.length (runs t) <= Z.to_nat (RetryCount (Upload (config s))))%nat /\
    started (process workerID x s).2 = (started s + List.length (runs t))%nat /\
    List.Forall (fun a => a.1 = "rclone" :: rcloneArgs (config s) x) (runs t) /\
    (DeleteAfterUpload (Rclone (config s)) = false ->
     files (process workerID x s).2 = files s /\ removes t = []) /\
    (forall p, p ∉ removes t -> files (process workerID x s).2 !! p = files s !! p) /\
    files (process workerID x s).2 ⊆ files s.
Proof.
  rewrite process_eq. cbv zeta.
  set (s1 := logged InfoLevel (MsgUploading workerID x) s).
  destruct (uploadFile_effect x s1) as (t & Ht & Hrm & Hsn & Hrc & Hruns & Hargs).
  change (config s1) with (config s) in Hruns, Hargs.
  pose proof (after_files _ _ _ Ht) as Hf. change (files s1) with (files s) in Hf.
  pose proof (after_started _ _ _ Ht) as Hst.
  change (started s1) with (started s) in Hst.
  pose proof (after_config _ _ _ Ht) as Hc. change (config s1) with (config s) in Hc.
  apply framed_after in Ht.
  pose proof (framed_trans _ _ _ _ _
                (framed_logged InfoLevel (MsgUploading workerID x) s) Ht) as H2.
  set (s2 := (uploadFile x s1).2) in *.
  destruct (uploadFile x s1).1 as [e|].
  - eexists. split; [|split; [|split; [|split; [|split; [|split; [|split; [|split]]]]]]].
    + cbn [snd]. eapply framed_trans; [exact H2 | apply framed_logged].
    + rewrite !sends_app, Hsn. reflexivity.
    + rewrite !recvs_app, Hrc. reflexivity.
    + rewrite !removes_app, Hrm. cbn. apply sublist_nil_l.
    + rewrite !runs_app. cbn. rewrite List.app_nil_r. exact Hruns.
    + rewrite !runs_app. cbn. rewrite List.app_nil_r. exact Hst.
    + rewrite !runs_app. cbn. rewrite List.app_nil_r. exact Hargs.
    + intros _. split; [exact Hf|]. rewrite !removes_app, Hrm. reflexivity.
    + split; [intros p _; cbn; now rewrite Hf | cbn; now rewrite Hf].
  - set (s3 := logged InfoLevel (MsgUploadDone workerID x) s2).
    pose proof (framed_trans _ _ _ _ _ H2
                  (framed_logged InfoLevel (MsgUploadDone workerID x) s2)) as H3.
    fold s3 in H3.
    change (config s3) with (config s2). rewrite Hc.
    destruct (DeleteAfterUpload (Rclone (config s))) eqn:Hdel.
    + pose proof (framed_trans _ _ _ _ _ H3 (framed_removed x s3)) as H4.
      assert (Hfiles : files (removed x s3) = files s \/
                       files (removed x s3) = delete x (files s)).
      { unfold removed. destruct (remove_result x s3); cbn; rewrite Hf; auto. }
      assert (Hlast : forall l m,
                (forall p, p ∉ removes (((([EvLog InfoLevel (MsgUploading workerID x)] ++ t) ++
                     [EvLog InfoLevel (MsgUploadDone workerID x)]) ++
                     [EvRemove x (remove_result x s3)]) ++ [EvLog l m]) ->
                   files (removed x s3) !! p = files s !! p) /\
                files (removed x s3) ⊆ files s).
      { intros l m. split.
        - intros p Hp. rewrite !removes_app, Hrm in Hp. cbn in Hp.
          destruct Hfiles as [-> | ->]; [reflexivity|].
          apply lookup_delete_ne. intros ->. apply Hp. constructor.
        - destruct Hfiles as [-> | ->]; [reflexivity | apply delete_subseteq]. }
      destruct (remove_result x s3) as [e|] eqn:Hres; cbn [snd].
      * eexists. split; [|split; [|split; [|split; [|split; [|split; [|split; [|split]]]]]]].
        -- eapply framed_trans; [exact H4 | apply framed_logged].
        -- rewrite !sends_app, Hsn. reflexivity.
        -- rewrite !recvs_app, Hrc. reflexivity.
        -- rewrite !removes_app, Hrm. cbn. reflexivity.
        -- rewrite !runs_app. cbn. rewrite !List.app_nil_r. exact Hruns.
        -- rewrite !runs_app. cbn. rewrite !List.app_nil_r.
           unfold removed. rewrite Hres. cbn. exact Hst.
        -- rewrite !runs_app. cbn. rewrite !List.app_nil_r. exact Hargs.
        -- discriminate.
        -- apply (Hlast ErrorLevel (MsgRemoveFailed workerID x e)).
      * eexists. split; [|split; [|split; [|split; [|split; [|split; [|split; [|split]]]]]]].
        -- eapply framed_trans; [exact H4 | apply framed_logged].
        -- rewrite !sends_app, Hsn. reflexivity.
        -- rewrite !recvs_app, Hrc. reflexivity.
        -- rewrite !removes_app, Hrm. cbn. reflexivity.
        -- rewrite !runs_app. cbn. rewrite !List.app_nil_r. exact Hruns.
        -- rewrite !runs_app. cbn. rewrite !List.app_nil_r.
           unfold removed. rewrite Hres. cbn. exact Hst.
        -- rewrite !runs_app. cbn. rewrite !List.app_nil_r. exact Hargs.
        -- discriminate.
        -- apply (Hlast InfoLevel (MsgRemoved workerID x)).
    + eexists. split; [|split; [|split; [|split; [|split; [|split; [|split; [|split]]]]]]].
      * cbn [snd]. exact H3.
      * rewrite !sends_app, Hsn. reflexivity.
      * rewrite !recvs_app, Hrc. reflexivity.
      * rewrite !removes_app, Hrm. cbn. apply sublist_nil_l.
      * rewrite !runs_app. cbn. rewrite !List.app_nil_r. exact Hruns.
      * rewrite !runs_app. cbn. rewrite !List.app_nil_r. exact Hst.
      * rewrite !runs_app. cbn. rewrite !List.app_nil_r. exact Hargs.
      * intros _. split; [cbn; exact Hf|]. rewrite !removes_app, Hrm. reflexivity.
      * split; [intros p _; cbn; now rewrite Hf | cbn; now rewrite Hf].
Qed.

Lemma worked_refl s : worked s [] [] s.
Proof.
  split; try reflexivity; cbn; try lia; try constructor; try reflexivity.
  now rewrite List.app_nil_r.
Qed.

Lemma worked_trans s xs t1 s1 ys t2 s2 :
  worked s xs t1 s1 -> worked s1 ys t2 s2 -> worked s (xs ++ ys) (t1 ++ t2) s2.
Proof.
  intros [Hc1 Hx1 He1 Ht1 Hb1 Hp1 Hd1 Hr1 Hs1 Hm1 Hn1 Hst1 Ha1 Hk1 Hf1 Hu1]
         [Hc2 Hx2 He2 Ht2 Hb2 Hp2 Hd2 Hr2 Hs2 Hm2 Hn2 Hst2 Ha2 Hk2 Hf2 Hu2].
  split.
  - congruence.
  - congruence.
  - congruence.
  - rewrite Ht2, Ht1. now rewrite List.app_assoc.
  - rewrite Hb1, Hb2. now rewrite List.app_assoc.
  - congruence.
  - congruence.
  - rewrite recvs_app. congruence.
  - rewrite sends_app, Hs1, Hs2. reflexivity.
  - rewrite removes_app. now apply sublist_app.
  - rewrite runs_app, !List.length_app. rewrite Hc1 in Hn2. nia.
  - rewrite runs_app, List.length_app. lia.
  - rewrite runs_app. apply List.Forall_app. split.
    + eapply List.Forall_impl; [|exact Ha1].
      intros a (x & Hin & Ha). exists x. split; [apply List.in_or_app; auto | exact Ha].
    + eapply List.Forall_impl; [|exact Ha2].
      intros a (x & Hin & Ha). exists x. split; [apply List.in_or_app; auto|].
      now rewrite <- Hc1.
  - intros Hdel. destruct (Hk1 Hdel) as [Hfa Hra].
    rewrite <- Hc1 in Hdel. destruct (Hk2 Hdel) as [Hfb Hrb].
    split; [congruence|]. rewrite removes_app, Hra, Hrb. reflexivity.
  - intros p Hp. rewrite removes_app in Hp.
    rewrite Hf2, Hf1; [reflexivity | |]; intros Hin; apply Hp;
      apply elem_of_app; auto.
  - etransitivity; eassumption.
Qed.

Lemma workerTurn_worked workerID coin s :
  match workerTurn workerID coin s with
  | (None, s') =>
      exists x rest t,
        buf (uploadChan s) = x :: rest /\ worked s [x] t s' /\
        (ctxDone s = true -> coin = false)
  | (Some Returned, s') =>
      s' = s /\ (ctxDone s = true \/ closed (uploadChan s) = true) /\
      (buf (uploadChan s) = [] \/ (ctxDone s = true /\ coin = true))
  | (Some Blocked, s') =>
      s' = s /\ ctxDone s = false /\ closed (uploadChan s) = false /\
      buf (uploadChan s) = []
  | (Some Panicked, _) => False
  end.
Proof.
  rewrite workerTurn_eq. unfold recv_ready.
  destruct (ctxDone s) eqn:Hctx, (closed (uploadChan s)) eqn:Hcl,
    (buf (uploadChan s)) as [|x rest] eqn:Hb, coin;
    cbn [orb negb Nat.eqb List.length select2 snd]; auto 6.
  all: try (destruct (process_effect workerID x (received x s))
      as (t & [Hc Hch Hcx He Ht] & Hsn & Hrc & Hrm & Hruns & Hst & Hargs & Hkeep & Hfl & Hsub);
    exists x, rest, ([EvRecv x] ++ t); split; [reflexivity|];
    split; [|auto; discriminate];
    split;
    [ exact Hc | exact Hcx | exact He
    | rewrite Ht; cbn [received trace set_trace]; now rewrite <- List.app_assoc
    | rewrite Hch; cbn [received uploadChan set_trace set_uploadChan];
      unfold chan_pop; rewrite Hb; reflexivity
    | rewrite Hch; cbn [received uploadChan set_trace set_uploadChan];
      unfold chan_pop; rewrite Hb; reflexivity
    | rewrite Hch; cbn [received uploadChan set_trace set_uploadChan];
      unfold chan_pop; rewrite Hb; reflexivity
    | rewrite recvs_app, Hrc; reflexivity
    | rewrite sends_app, Hsn; reflexivity
    | rewrite removes_app; exact Hrm
    | rewrite runs_app; cbn [List.length runs List.flat_map List.app];
      change (config (received x s)) with (config s) in Hruns; lia
    | rewrite runs_app; exact Hst
    | rewrite runs_app; cbn [runs List.flat_map List.app];
      eapply List.Forall_impl; [|exact Hargs];
      intros a Ha; exists x; split; [now left | exact Ha]
    | intros Hdel; destruct (Hkeep Hdel) as [Hfa Hra]; split; [exact Hfa|];
      rewrite removes_app, Hra; reflexivity
    | intros p Hp; rewrite removes_app in Hp; now apply Hfl
    | exact Hsub ]).
Qed.

(** A run of the worker's loop: the paths taken, and how it ended. *)
Lemma workerLoop_worked workerID : forall coins s,
  exists xs t,
    worked s xs t (workerLoop workerID coins s).2 /\
    (ctxDone s = true -> List.Forall (eq false) (List.firstn (List.length xs) coins)) /\
    match (workerLoop workerID coins s).1 with
    | None => List.length xs = List.length coins
    | Some Returned =>
        (List.length xs < List.length coins)%nat /\
        (ctxDone s = true \/ closed (uploadChan s) = true) /\
        (buf (uploadChan (workerLoop workerID coins s).2) = [] \/
         (ctxDone s = true /\ List.nth_error coins (List.length xs) = Some true))
    | Some Blocked =>
        (List.length xs < List.length coins)%nat /\
        ctxDone s = false /\ closed (uploadChan s) = false /\
        buf (uploadChan (workerLoop workerID coins s).2) = []
    | Some Panicked => False
    end.
Proof.
  induction coins as [|coin coins IH]; intros s.
  - exists [], []. split; [apply worked_refl|]. split; [constructor | reflexivity].
  - cbn [workerLoop]. unfold bind.
    pose proof (workerTurn_worked workerID coin s) as Hturn.
    destruct (workerTurn workerID coin s) as [[[]|] s1]; cbn [fst snd] in *.
    + destruct Hturn as (-> & Hwhy & Hhow).
      exists [], []. split; [apply worked_refl|]. split; [constructor|].
      cbn. split; [lia|]. split; [exact Hwhy|].
      destruct Hhow as [Hb|[Hc ->]]; auto.
    + destruct Hturn as (-> & Hctx & Hcl & Hb).
      exists [], []. split; [apply worked_refl|]. split; [constructor|].
      cbn. split; [lia|]. auto.
    + contradiction.
    + destruct Hturn as (x & rest & t1 & Hb & Hw & Hcoin).
      destruct (IH s1) as (xs & t2 & Hw2 & Hcoins & Hend).
      exists (x :: xs), (t1 ++ t2). split; [|split].
      * apply (worked_trans s [x] t1 s1 xs t2); assumption.
      * intros Hctx. cbn. constructor; [symmetry; now apply Hcoin|].
        apply Hcoins. now rewrite (worked_ctx _ _ _ _ Hw).
      * rewrite (worked_ctx _ _ _ _ Hw), (worked_closed _ _ _ _ Hw) in Hend.
        destruct (workerLoop workerID coins s1).1 as [[]|]; cbn [List.length];
          cbn [List.nth_error]; [| |exact Hend|lia].
        -- destruct Hend as (Hlen & Hwhy & Hhow). split; [lia|]. auto.
        -- destruct Hend as (Hlen & Hrest). split; [lia|]. exact Hrest.
Qed.

Lemma worked_logged l m s : worked s [] [EvLog l m] (logged l m s).
Proof. split; try reflexivity; cbn; try lia; try constructor; reflexivity. Qed.

Lemma uploadWorker_eq workerID coins s :
  uploadWorker workerID coins s
  = workerLoop workerID coins (logged InfoLevel (MsgWorkerStarted workerID) s).
Proof. reflexivity. Qed.

Lemma uploadWorker_worked workerID coins s :
  exists xs t,
    worked s xs t (uploadWorker workerID coins s).2 /\
    (ctxDone s = true -> List.Forall (eq false) (List.firstn (List.length xs) coins)) /\
    match (uploadWorker workerID coins s).1 with
    | None => List.length xs = List.length coins
    | Some Returned =>
        (List.length xs < List.length coins)%nat /\
        (ctxDone s = true \/ closed (uploadChan s) = true) /\
        (buf (uploadChan (uploadWorker workerID coins s).2) = [] \/
         (ctxDone s = true /\ List.nth_error coins (List.length xs) = Some true))
    | Some Blocked =>
        (List.length xs < List.length coins)%nat /\
        ctxDone s = false /\ closed (uploadChan s) = false /\
        buf (uploadChan (uploadWorker workerID coins s).2) = []
    | Some Panicked => False
    end.
Proof.
  rewrite uploadWorker_eq.
  set (s0 := logged InfoLevel (MsgWorkerStarted workerID) s).
  destruct (workerLoop_worked workerID coins s0) as (xs & t & Hw & Hcoins & Hend).
  exists xs, ([EvLog InfoLevel (MsgWorkerStarted workerID)] ++ t).
  split; [|split].
  - apply (worked_trans s [] _ s0 xs t); [apply worked_logged | exact Hw].
  - exact Hcoins.
  - exact Hend.
Qed.

Lemma worked_since s xs t s' : worked s xs t s' -> since s s' = t.
Proof. intros Hw. apply since_app, Hw. Qed.

(** ** Retrying until the tool succeeds *)

Lemma warned_app a b : warned (a ++ b) = warned a ++ warned b.
Proof. apply List.flat_map_app. Qed.

Lemma retryLoop_first_success cfg args : forall j n i s,
  (j < n)%nat ->
  i + Z.of_nat n = RetryCount (Upload cfg) ->
  (forall m, (m < j)%nat ->
     exec s (started s + m)%nat ("rclone" :: args) <> Exited 0) ->
  exec s (started s + j)%nat ("rclone" :: args) = Exited 0 ->
  exists t,
    (retryLoop cfg args n i s).1 = None /\
    after s t (retryLoop cfg args n i s).2 /\
    steps t = paced (S j) (seconds (RetryInterval (Upload cfg))) /\
    List.length (runs t) = S j /\
    sleeps t = List.repeat (seconds (RetryInterval (Upload cfg))) j /\
    warned t = numbered j i (RetryCount (Upload cfg)).
Proof.
  induction j as [|j IH]; intros n i s Hn Hi Hfail Hok;
    (destruct n as [|n]; [lia|]); rewrite retryLoop_S.
  - rewrite Nat.add_0_r in Hok. rewrite Hok. cbn [run_error Z.eqb].
    eexists. split; [reflexivity|]. split; [apply after_ran|].
    rewrite Hok. cbn. auto.
  - set (argv := "rclone" :: args) in *.
    pose proof (Hfail 0%nat ltac:(lia)) as H0. rewrite Nat.add_0_r in H0.
    destruct (run_error (exec s (started s) argv)) as [e|] eqn:He;
      [|now apply run_error_None in He].
    cbv zeta. set (s1 := logged _ _ _).
    assert (H1 : after s [EvRun argv (exec s (started s) argv);
                          EvLog WarnLevel (MsgAttemptFailed (i + 1) (RetryCount (Upload cfg)) e)] s1).
    { apply (after_trans s [_] (ran argv s) [_]); [apply after_ran | apply after_logged]. }
    destruct (Z.ltb_spec i (RetryCount (Upload cfg) - 1)); [|lia].
    set (s2 := paused (seconds (RetryInterval (Upload cfg))) s1).
    destruct (IH n (i + 1) s2) as (t & Hr & Ht & Hsteps & Hruns & Hsl & Hw).
    + lia.
    + lia.
    + intros m Hm. cbn [s2 s1 paused logged ran exec started set_slept set_trace set_started].
      replace (S (started s) + m)%nat with (started s + S m)%nat by lia.
      apply Hfail. lia.
    + cbn [s2 s1 paused logged ran exec started set_slept set_trace set_started].
      replace (S (started s) + j)%nat with (started s + S j)%nat by lia.
      exact Hok.
    + eexists. split; [exact Hr|]. split; [|split; [|split; [|split]]].
      * eapply after_trans; [exact H1|].
        eapply (after_trans _ [_] _ t); [apply after_paused | exact Ht].
      * rewrite !steps_app, Hsteps. reflexivity.
      * rewrite !runs_app, !List.length_app, Hruns. reflexivity.
      * rewrite !sleeps_app, Hsl. reflexivity.
      * rewrite !warned_app, Hw. reflexivity.
Qed.

(** ** Delays that do not wait *)

Lemma seconds_no_wait n : no_wait n -> seconds n <= 0.
Proof.
  intros [Hn|Hn].
  - rewrite seconds_exact by lia. lia.
  - unfold seconds, wrap64, time_Second.
    assert (Hq : (n * 1000000000 + 2 ^ 63) mod 2 ^ 64
                 = n * 1000000000 + 2 ^ 63 - 2 ^ 64).
    { symmetry. apply (Z.mod_unique _ _ 1); lia. }
    rewrite Hq. lia.
Qed.

Lemma retryLoop_no_wait cfg args : forall n i s,
  seconds (RetryInterval (Upload cfg)) <= 0 ->
  slept (retryLoop cfg args n i s).2 = slept s.
Proof.
  induction n as [|n IH]; intros i s Hd; [reflexivity|].
  rewrite retryLoop_S. destruct (run_error _) as [e|]; cbv zeta; [|reflexivity].
  destruct (_ <? _); [|reflexivity].
  rewrite IH by exact Hd. cbn. lia.
Qed.

(** ** [Start] and [Stop] *)

Lemma spawnWorkers_seq : forall n i,
  spawnWorkers n i = List.map (fun k => Worker (i + Z.of_nat k)) (List.seq 0 n).
Proof.
  induction n as [|n IH]; intros i; [reflexivity|].
  cbn [spawnWorkers List.seq List.map]. rewrite Z.add_0_r. f_equal.
  rewrite IH, <- List.seq_shift, List.map_map.
  apply List.map_ext. intros k. f_equal. lia.
Qed.

Lemma spawnWorkers_NoDup n i : List.NoDup (spawnWorkers n i ++ [Watcher]).
Proof.
  rewrite spawnWorkers_seq. apply List.NoDup_app.
  - apply List.NoDup_map_NoDup_ForallPairs; [|apply List.seq_NoDup].
    intros a b _ _ Hab. injection Hab as Hab. lia.
  - constructor; [intros [] | constructor].
  - intros g Hg [<-|[]]. apply List.in_map_iff in Hg as (k & Hk & _). discriminate.
Qed.

Lemma Start_eq added s :
  Start added s =
  let s1 := logged InfoLevel MsgStarting s in
  let dir := WatchDirectory (config s) in
  if reported_missing dir s then (inr (WatchDirectoryMissing dir), s1)
  else
    match added with
    | Some e => (inr (WatcherAddFailed e), s1)
    | None =>
        (inl (spawnWorkers (Z.to_nat (ConcurrentUploads (Upload (config s)))) 0
              ++ [Watcher]),
         logged InfoLevel (MsgWatching dir) s1)
    end.
Proof.
  unfold Start, reported_missing, os_Stat, bind, get, ret. rewrite logf_eq. cbv zeta.
  change (files (logged InfoLevel MsgStarting s)) with (files s).
  change (config (logged InfoLevel MsgStarting s)) with (config s).
  change (lookupErr (logged InfoLevel MsgStarting s)) with (lookupErr s).
  destruct (files s !! WatchDirectory (config s)); cbn [fst os_IsNotExist].
  - destruct added; reflexivity.
  - destruct (lookupErr s (WatchDirectory (config s))); destruct added; reflexivity.
Qed.

Lemma Stop_eq s :
  Stop s = (tt, set_uploadChan (chan_close (uploadChan s))
                  (set_ctxDone true (logged InfoLevel MsgStopping s))).
Proof. reflexivity. Qed.

(** ** Runs of the watcher *)

Section WatcherRuns.
Context `{FoldTables}.

Lemma watched_refl s : watched s [] 0 s.
Proof.
  split; [apply only_pushes_refl| | | |]; try reflexivity.
  - unfold since. now rewrite List.skipn_all.
  - lia.
Qed.

Lemma since_trans s s1 s2 t1 t2 :
  trace s1 = trace s ++ t1 -> trace s2 = trace s1 ++ t2 ->
  since s s2 = since s s1 ++ since s1 s2.
Proof.
  intros H1 H2. rewrite (since_app _ _ _ H1), (since_app _ _ _ H2).
  apply since_app. rewrite H2, H1. now rewrite List.app_assoc.
Qed.

Lemma watched_trans s xs n s1 ys m s2 :
  watched s xs n s1 -> watched s1 ys m s2 -> watched s (xs ++ ys) (n + m) s2.
Proof.
  intros [Hp1 Hs1 Hn1 Hf1 Hst1] [Hp2 Hs2 Hn2 Hf2 Hst2].
  pose proof (pushed_config _ _ _ Hp1) as Hc.
  split; [eapply only_pushes_trans; eassumption| | | |]; try congruence.
  - destruct (pushed_trace _ _ _ Hp1) as [t1 Ht1].
    destruct (pushed_trace _ _ _ Hp2) as [t2 Ht2].
    rewrite (since_trans _ _ _ _ _ Ht1 Ht2), sleeps_app, Hs1, Hs2, Hc.
    now rewrite List.repeat_app.
  - rewrite Hn2, Hn1, Hc. lia.
Qed.

Lemma watched_logged l m s : watched s [] 0 (logged l m s).
Proof.
  split; [apply only_pushes_logged| | | |]; try reflexivity.
  - now rewrite (since_app s (logged l m s) [EvLog l m]).
  - cbn. lia.
Qed.

Lemma watched_settled x s : watched s [] 1 (settled x s).
Proof.
  split; [| | | |]; try reflexivity.
  - apply (only_pushes_trans s [] (logged InfoLevel (MsgDetected x) s) []);
      [apply only_pushes_logged | apply only_pushes_paused].
  - rewrite (since_app s (settled x s)
               [EvLog InfoLevel (MsgDetected x);
                EvSleep (seconds (WaitTime (Upload (config s))))]); [reflexivity|].
    cbn. now rewrite <- List.app_assoc.
  - cbn. lia.
Qed.

Lemma watched_sent x s :
  watched s [x] 0 (sent x s).
Proof.
  split; [| | | |]; try reflexivity.
  - split; try reflexivity.
    + now rewrite (since_app s (sent x s)
                     [EvSend x; EvLog DebugLevel (MsgQueued x)])
        by (cbn; now rewrite <- List.app_assoc).
    + eexists. cbn. rewrite <- List.app_assoc. reflexivity.
  - now rewrite (since_app s (sent x s)
                   [EvSend x; EvLog DebugLevel (MsgQueued x)])
      by (cbn; now rewrite <- List.app_assoc).
  - cbn. lia.
Qed.

(** A turn that is handed something other than a supported creation. *)
Lemma watchTurn_skip t s :
  ctxDone s = false -> delivers t = true -> qualifies (config s) t = None ->
  (watchTurn t s).1 = None /\ watched s [] 0 (watchTurn t s).2.
Proof.
  intros Hctx Hdel Hq. unfold watchTurn, bind, get, qualifies, delivers in *.
  rewrite Hctx.
  destruct (input t) as [|event| |err|]; try discriminate; cbn [select2].
  - destruct (_ =? _); [|split; [reflexivity | apply watched_refl]].
    cbn [andb] in Hq. rewrite handleFileCreated_eq.
    destruct (isSupportedFile (config s) (Name event)); [discriminate|].
    split; [reflexivity | apply watched_refl].
  - split; [reflexivity|]. rewrite logf_eq. apply watched_logged.
Qed.

(** A turn that is handed a supported creation while the queue has room,
    and while it has none. *)
Lemma watchTurn_send t x s :
  ctxDone s = false -> closed (uploadChan s) = false ->
  qualifies (config s) t = Some x ->
  (List.length (buf (uploadChan s)) < cap (uploadChan s))%nat ->
  watchTurn t s = (None, sent x (settled x s)).
Proof.
  intros Hctx Hcl Hq Hroom. unfold watchTurn, bind, get, qualifies in *.
  rewrite Hctx.
  destruct (input t) as [|event| |err|]; try discriminate; cbn [select2].
  destruct (_ =? _); [|discriminate]. cbn [andb] in Hq.
  rewrite handleFileCreated_eq.
  destruct (isSupportedFile (config s) (Name event)); [|discriminate].
  injection Hq as <-. fold (settled (Name event) s).
  rewrite enqueue_eq. unfold send_ready.
  change (uploadChan (settled (Name event) s)) with (uploadChan s).
  change (ctxDone (settled (Name event) s)) with (ctxDone s).
  apply Nat.ltb_lt in Hroom. rewrite Hctx, Hcl, Hroom. reflexivity.
Qed.

Lemma watchTurn_full t x s :
  ctxDone s = false -> closed (uploadChan s) = false ->
  qualifies (config s) t = Some x ->
  (cap (uploadChan s) <= List.length (buf (uploadChan s)))%nat ->
  watchTurn t s = (Some Blocked, settled x s).
Proof.
  intros Hctx Hcl Hq Hroom. unfold watchTurn, bind, get, qualifies in *.
  rewrite Hctx.
  destruct (input t) as [|event| |err|]; try discriminate; cbn [select2].
  destruct (_ =? _); [|discriminate]. cbn [andb] in Hq.
  rewrite handleFileCreated_eq.
  destruct (isSupportedFile (config s) (Name event)); [|discriminate].
  injection Hq as <-. fold (settled (Name event) s).
  rewrite enqueue_eq. unfold send_ready.
  change (uploadChan (settled (Name event) s)) with (uploadChan s).
  change (ctxDone (settled (Name event) s)) with (ctxDone s).
  apply Nat.ltb_ge in Hroom. rewrite Hctx, Hcl, Hroom. reflexivity.
Qed.

Lemma watchFiles_run : forall turns s,
  ctxDone s = false -> closed (uploadChan s) = false ->
  List.forallb delivers turns = true ->
  (List.length (buf (uploadChan s)) <= cap (uploadChan s))%nat ->
  let q := qualifying (config s) turns in
  let room := (cap (uploadChan s) - List.length (buf (uploadChan s)))%nat in
  if (List.length q <=? room)%nat
  then (watchFiles turns s).1 = None /\
       watched s q (List.length q) (watchFiles turns s).2
  else (watchFiles turns s).1 = Some Blocked /\
       watched s (List.firstn room q) (S room) (watchFiles turns s).2.
Proof.
  induction turns as [|t turns IH]; intros s Hctx Hcl Hdel Hcap; cbv zeta.
  - cbn. split; [reflexivity | apply watched_refl].
  - cbn [List.forallb] in Hdel. apply andb_true_iff in Hdel as [Hd Hdel].
    rewrite qualifying_cons. cbn [watchFiles]. unfold bind.
    destruct (qualifies (config s) t) as [x|] eqn:Hq;
      cbn [option_list option_rect List.app List.length].
    + destruct (Nat.ltb_spec (List.length (buf (uploadChan s))) (cap (uploadChan s)))
        as [Hroom|Hfull].
      * rewrite (watchTurn_send t x s Hctx Hcl Hq Hroom).
        set (s1 := sent x (settled x s)).
        assert (Hw : watched s [x] 1 s1).
        { apply (watched_trans s [] 1 (settled x s) [x] 0);
            [apply watched_settled | apply watched_sent]. }
        specialize (IH s1 Hctx Hcl Hdel).
        cbv zeta in IH.
        change (config s1) with (config s) in IH.
        change (cap (uploadChan s1)) with (cap (uploadChan s)) in IH.
        change (buf (uploadChan s1)) with (buf (uploadChan s) ++ [x]) in IH.
        rewrite List.length_app in IH. cbn [List.length] in IH.
        specialize (IH ltac:(lia)).
        set (q := qualifying (config s) turns) in *.
        replace (cap (uploadChan s) - List.length (buf (uploadChan s)))%nat
          with (S (cap (uploadChan s) - (List.length (buf (uploadChan s)) + 1)))%nat
          by lia.
        set (room := (cap (uploadChan s) - (List.length (buf (uploadChan s)) + 1))%nat) in *.
        change (S (List.length q) <=? S room)%nat with (List.length q <=? room)%nat.
        destruct (List.length q <=? room)%nat.
        -- destruct IH as [Hr Hrest]. split; [exact Hr|].
           apply (watched_trans s [x] 1 s1 q (List.length q)); assumption.
        -- destruct IH as [Hr Hrest]. split; [exact Hr|]. cbn [List.firstn].
           apply (watched_trans s [x] 1 s1 (List.firstn room q) (S room)); assumption.
      * rewrite (watchTurn_full t x s Hctx Hcl Hq Hfull).
        replace (cap (uploadChan s) - List.length (buf (uploadChan s)))%nat
          with 0%nat by lia.
        cbn. split; [reflexivity | apply watched_settled].
    + destruct (watchTurn_skip t s Hctx Hd Hq) as [Hnone Hw].
      destruct (watchTurn t s) as [r s1]; cbn [fst snd] in *. subst r.
      pose proof (watched_pushes _ _ _ _ Hw) as Hp.
      destruct Hp as [Hc1 Hx1 _ _ Hb1 Hp1 Hd1]. rewrite List.app_nil_r in Hb1.
      specialize (IH s1 ltac:(congruence) ltac:(congruence) Hdel ltac:(congruence)).
      cbv zeta in IH. rewrite Hc1, Hb1, Hp1 in IH.
      destruct (_ <=? _)%nat; destruct IH as [Hr Hrest]; (split; [exact Hr|]).
      * apply (watched_trans s [] 0 s1 _ _); assumption.
      * apply (watched_trans s [] 0 s1 _ _); assumption.
Qed.

Lemma watchTurn_idle t s :
  qualifies (config s) t = None ->
  (forall err, input t <> GotError err) ->
  (watchTurn t s).2 = s.
Proof.
  intros Hq Herr. unfold watchTurn, bind, get, qualifies in *.
  destruct (select2 _ _ _); try reflexivity.
  destruct (input t) as [|event| |err|]; try reflexivity.
  - destruct (_ =? _); [|reflexivity]. cbn [andb] in Hq.
    rewrite handleFileCreated_eq.
    destruct (isSupportedFile (config s) (Name event)); [discriminate|].
    reflexivity.
  - now destruct (Herr err).
Qed.

(** Once the context is done a turn of the watcher does not block. *)
Lemma watchTurn_done t s :
  ctxDone s = true ->
  (watchTurn t s).1 <> Some Blocked /\
  ((watchTurn t s).1 = Some Panicked -> closed (uploadChan s) = true) /\
  (delivers t = false \/ drawDone t = true -> (watchTurn t s).1 = Some Returned).
Proof.
  intros Hctx. unfold watchTurn, bind, get, delivers. rewrite Hctx.
  destruct (input t) as [|event| |err|]; cbn [select2].
  - repeat split; try discriminate; reflexivity.
  - destruct (drawDone t); cbn [fst].
    + repeat split; try discriminate; reflexivity.
    + assert (Hh : (handleFileCreated (drawSend t) (Name event) s).1 <> Blocked /\
                   ((handleFileCreated (drawSend t) (Name event) s).1 = Panicked ->
                    closed (uploadChan s) = true)).
      { rewrite handleFileCreated_eq.
        destruct (isSupportedFile _ _); [|split; discriminate].
        rewrite enqueue_eq.
        change (ctxDone (paused _ _)) with (ctxDone s).
        change (uploadChan (paused _ _)) with (uploadChan s).
        rewrite Hctx. unfold send_ready.
        destruct (closed (uploadChan s)), (_ <? _)%nat, (drawSend t);
          cbn; split; congruence. }
      destruct (_ =? _); [|repeat split; try discriminate; intros [|]; discriminate].
      destruct (handleFileCreated (drawSend t) (Name event) s) as [[] s1];
        cbn [fst] in *; destruct Hh as [Hb Hp];
        (split; [try discriminate; congruence|]);
        (split; [try discriminate; auto|]); intros [|]; discriminate.
  - destruct (drawDone t); repeat split; try discriminate; reflexivity.
  - destruct (drawDone t); cbn [fst]; repeat split; try discriminate;
      try reflexivity; intros [|]; discriminate.
  - destruct (drawDone t); repeat split; try discriminate; reflexivity.
Qed.

Lemma watchFiles_done : forall turns s,
  ctxDone s = true ->
  (watchFiles turns s).1 <> Some Blocked /\
  ((watchFiles turns s).1 = Some Panicked -> closed (uploadChan s) = true) /\
  (List.existsb (fun t => negb (delivers t) || drawDone t) turns = true ->
   (watchFiles turns s).1 <> None).
Proof.
  induction turns as [|t turns IH]; intros s Hctx.
  - cbn. repeat split; discriminate.
  - cbn [watchFiles List.existsb]. unfold bind.
    destruct (watchTurn_done t s Hctx) as (Hb & Hp & Hr).
    destruct (watchTurn_pushes t s) as [Hw|(x & _ & Hw)].
    all: destruct (watchTurn t s) as [[o|] s1]; cbn [fst snd] in *.
    all: try (split; [exact Hb|]; split; [exact Hp|]; discriminate).
    all: destruct (IH s1 ltac:(rewrite (pushed_ctx _ _ _ Hw); exact Hctx))
           as (Hb' & Hp' & Hr').
    all: split; [exact Hb'|]; split;
           [intros Hpan; rewrite <- (pushed_closed _ _ _ Hw); now apply Hp'|].
    all: intros Hex; apply orb_true_iff in Hex as [Hex|Hex]; [|now apply Hr'].
    all: exfalso; assert (Hcase : delivers t = false \/ drawDone t = true)
           by (apply orb_true_iff in Hex as [Hex|Hex];
               [left; now apply negb_true_iff in Hex | now right]).
    all: specialize (Hr Hcase); discriminate.
Qed.

Lemma enqueue_closed coin x s :
  closed (uploadChan s) = true -> (enqueue coin x s).2 = s.
Proof.
  intros Hcl. rewrite enqueue_eq.
  destruct (select2 _ _ _); try reflexivity. now rewrite Hcl.
Qed.

Lemma watchTurn_closed t s :
  closed (uploadChan s) = true -> only_pushes s [] (watchTurn t s).2.
Proof.
  intros Hcl. unfold watchTurn, bind, get.
  destruct (select2 _ _ _); try apply only_pushes_refl.
  destruct (input t) as [|event| |err|]; try apply only_pushes_refl.
  - destruct (_ =? _); [|apply only_pushes_refl].
    rewrite handleFileCreated_eq.
    destruct (isSupportedFile (config s) (Name event)); [|apply only_pushes_refl].
    fold (settled (Name event) s).
    assert (Hs : forall p : Outcome * State,
              (let '(a, s') := p in
               match a with
               | Returned => ret None
               | _ => ret (Some a)
               end s').2 = p.2).
    { intros [[] s']; reflexivity. }
    rewrite Hs, enqueue_closed by exact Hcl. apply watched_settled.
  - rewrite logf_eq. apply only_pushes_logged.
Qed.

Lemma watchFiles_closed : forall turns s,
  closed (uploadChan s) = true ->
  only_pushes s [] (watchFiles turns s).2.
Proof.
  induction turns as [|t turns IH]; intros s Hcl; [apply only_pushes_refl|].
  cbn [watchFiles]. unfold bind.
  pose proof (watchTurn_closed t s Hcl) as Hp.
  destruct (watchTurn t s) as [[o|] s1]; cbn [snd] in *; [exact Hp|].
  apply (only_pushes_trans s [] s1 []); [exact Hp|].
  apply IH. now rewrite (pushed_closed _ _ _ Hp).
Qed.

End WatcherRuns.

End ProgFacts.

(** * Part V: the properties of the specification *)

Import GoString Utf8 Unicode Strings Filepath LibFacts ProgFacts.

(** ** C1: creation events and the queue *)

Section C1.
Context `{FoldTables}.

(** C1 (as amended): a creation event whose path has no supported
    extension is dropped without a trace; one whose path has a supported
    extension is, after the settle delay, sent exactly once when the send
    is the case taken (context not done, channel open and with room), and
    is given up, nothing being sent, when the context is done and the
    [select] takes that case; the [select] sends in whatever state the
    settle delay ends, as long as the context is not done and the channel is
    open and has room; no event is sent more than once; and the watcher's
    loop hands every event that has the [Create] bit to
    [handleFileCreated]. *)
Theorem C1_creation_event_enqueue (coin : bool) (filePath : string) (s : State) :
  let r := handleFileCreated coin filePath s in
  (isSupportedFile (config s) filePath = false -> r = (Returned, s))
  /\ (isSupportedFile (config s) filePath = true ->
      ctxDone s = false -> closed (uploadChan s) = false ->
      (List.length (buf (uploadChan s)) < cap (uploadChan s))%nat ->
      r.1 = Returned /\
      trace r.2 = trace s ++
        [EvLog InfoLevel (MsgDetected filePath);
         EvSleep (seconds (WaitTime (Upload (config s))));
         EvSend filePath;
         EvLog DebugLevel (MsgQueued filePath)] /\
      buf (uploadChan r.2) = buf (uploadChan s) ++ [filePath])
  /\ (isSupportedFile (config s) filePath = true ->
      ctxDone s = true ->
      send_ready (uploadChan s) = false \/ coin = false ->
      r.1 = Returned /\ uploadChan r.2 = uploadChan s /\ sends (since s r.2) = [])
  /\ (forall s1,
        ctxDone s1 = false -> closed (uploadChan s1) = false ->
        (List.length (buf (uploadChan s1)) < cap (uploadChan s1))%nat ->
        enqueue coin filePath s1 = (Returned, sent filePath s1))
  /\ (exists t, trace r.2 = trace s ++ t /\
        ((sends t = [] /\ buf (uploadChan r.2) = buf (uploadChan s))
         \/ (sends t = [filePath] /\
             buf (uploadChan r.2) = buf (uploadChan s) ++ [filePath])))
  /\ (forall event dd,
        Name event = filePath ->
        Z.land (Op event) fsnotify_Create = fsnotify_Create ->
        ctxDone s = false ->
        (watchTurn {| input := GotEvent event; drawDone := dd; drawSend := coin |} s).2
        = r.2).
Proof.
  cbv zeta.
  assert (Hselect : forall s1,
            ctxDone s1 = false -> closed (uploadChan s1) = false ->
            (List.length (buf (uploadChan s1)) < cap (uploadChan s1))%nat ->
            enqueue coin filePath s1 = (Returned, sent filePath s1)).
  { intros s1 Hctx Hcl Hroom. rewrite enqueue_eq. unfold send_ready.
    apply Nat.ltb_lt in Hroom. now rewrite Hctx, Hcl, Hroom. }
  rewrite handleFileCreated_eq.
  destruct (isSupportedFile (config s) filePath) eqn:Hsup.
  - set (s1 := paused _ _).
    assert (Hs1 : trace s1 = trace s ++ [EvLog InfoLevel (MsgDetected filePath);
                     EvSleep (seconds (WaitTime (Upload (config s))))]).
    { cbn. now rewrite <- List.app_assoc. }
    rewrite enqueue_eq.
    change (uploadChan s1) with (uploadChan s). change (ctxDone s1) with (ctxDone s).
    split; [discriminate|]. split; [|split; [|split; [exact Hselect|split]]].
    + intros _ Hctx Hcl Hroom. unfold send_ready. rewrite Hctx, Hcl.
      apply Nat.ltb_lt in Hroom. rewrite Hroom. cbn.
      split; [reflexivity|]. split; [|reflexivity].
      rewrite <- !List.app_assoc. reflexivity.
    + intros _ Hctx Hgiveup. rewrite Hctx.
      assert (Hpick : select2 (send_ready (uploadChan s)) true coin = Second).
      { destruct Hgiveup as [-> | ->]; [reflexivity|].
        destruct (send_ready _); reflexivity. }
      rewrite Hpick. cbn [fst snd]. split; [reflexivity|]. split; [reflexivity|].
      now rewrite (since_app _ _ _ Hs1).
    + destruct (select2 _ _ coin).
      * destruct (closed (uploadChan s)).
        -- eexists. split; [exact Hs1|]. left. now split.
        -- eexists. split.
           ++ cbn [snd sent logged trace set_trace]. rewrite Hs1.
              rewrite <- !List.app_assoc. reflexivity.
           ++ right. now split.
      * eexists. split; [exact Hs1|]. left. now split.
      * eexists. split; [exact Hs1|]. left. now split.
    + intros event dd Hname Hop Hctx. rewrite (watchTurn_create _ _ _ _ Hop Hctx).
      rewrite Hname, handleFileCreated_eq, Hsup, enqueue_eq. reflexivity.
  - split; [reflexivity|]. split; [discriminate|]. split; [discriminate|].
    split; [exact Hselect|]. split.
    + exists []. split; [now rewrite List.app_nil_r|]. left. now split.
    + intros event dd Hname Hop Hctx. rewrite (watchTurn_create _ _ _ _ Hop Hctx).
      rewrite Hname, handleFileCreated_eq, Hsup. reflexivity.
Qed.

End C1.

(** C1, at the README's configuration: a fresh uploader takes in the
    photo. *)
Lemma C1_witness :
  isSupportedFile (H := asciiOrbits) (sample false true 3) photo = true /\
  buf (uploadChan (handleFileCreated (H := asciiOrbits) true photo
                     (fresh (sample false true 3) ∅ failing)).2) = [photo].
Proof.
  split; [reflexivity|].
  pose proof (C1_creation_event_enqueue (H := asciiOrbits) true photo
                (fresh (sample false true 3) ∅ failing)) as (_ & Hsend & _).
  destruct (Hsend eq_refl eq_refl eq_refl ltac:(cbn; lia)) as (_ & _ & Hbuf).
  exact Hbuf.
Defined.

(** C1 as stated fails: with the context done and the queue full, the event
    of a supported file is not enqueued, whatever the draw. *)
Lemma C1_cancelled_event_not_enqueued :
  isSupportedFile (H := asciiOrbits) (config stopped_full) photo = true /\
  ctxDone stopped_full = true /\
  (handleFileCreated (H := asciiOrbits) true photo stopped_full).1 = Returned /\
  sends (since stopped_full
           (handleFileCreated (H := asciiOrbits) true photo stopped_full).2) = [] /\
  uploadChan (handleFileCreated (H := asciiOrbits) true photo stopped_full).2
    = uploadChan stopped_full /\
  sends (since stopped_full
           (handleFileCreated (H := asciiOrbits) false photo stopped_full).2) = [] /\
  uploadChan (handleFileCreated (H := asciiOrbits) false photo stopped_full).2
    = uploadChan stopped_full.
Proof. repeat split. Qed.

(** ** C2: retries *)

(** C2 (as amended): for a retry count [K >= 1] and a file that exists, a
    tool that fails on every invocation is invoked exactly [K] times, with
    one sleep of the retry interval between two consecutive attempts
    ([K - 1] sleeps, none after the last), each of the interval's seconds
    in nanoseconds as long as that product fits an [int64]; the upload
    returns an error, and the worker drops the path: neither [process] nor
    any run of the worker loop sends anything to the queue. *)
Theorem C2_retries_exhausted (workerID : Z) (filePath : string) (s : State) :
  is_Some (files s !! filePath) ->
  1 <= RetryCount (Upload (config s)) ->
  always_fails (exec s) ->
  let K := RetryCount (Upload (config s)) in
  let d := seconds (RetryInterval (Upload (config s))) in
  (exists t cause,
     (uploadFile filePath s).1 = Some (UploadFailed K cause) /\
     after s t (uploadFile filePath s).2 /\
     List.length (runs t) = Z.to_nat K /\
     sleeps t = List.repeat d (Z.to_nat K - 1) /\
     steps t = paced (Z.to_nat K) d /\
     sends t = [])
  /\ (exists t cause,
        trace (process workerID filePath s).2 = trace s ++ t ++
          [EvLog ErrorLevel (MsgUploadFailed workerID filePath (UploadFailed K cause))] /\
        List.length (runs t) = Z.to_nat K /\
        sends t = [] /\
        uploadChan (process workerID filePath s).2 = uploadChan s /\
        files (process workerID filePath s).2 = files s)
  /\ (forall coins s0, exists t,
        trace (workerLoop workerID coins s0).2 = trace s0 ++ t /\ sends t = [])
  /\ (-9223372036 <= RetryInterval (Upload (config s)) <= 9223372036 ->
      d = RetryInterval (Upload (config s)) * 1000000000).
Proof.
  intros [b Hb] HK Hfail K d.
  assert (Hn : exists n, Z.to_nat K = S n /\ 0 + Z.of_nat (S n) = K).
  { exists (Z.to_nat K - 1)%nat. lia. }
  destruct Hn as (n & Hn & Hi).
  assert (Hup : forall s1, files s1 = files s -> config s1 = config s ->
            exec s1 = exec s ->
            exists t cause,
              (uploadFile filePath s1).1 = Some (UploadFailed K cause) /\
              after s1 t (uploadFile filePath s1).2 /\
              List.length (runs t) = Z.to_nat K /\
              sleeps t = List.repeat d (Z.to_nat K - 1) /\
              steps t = paced (Z.to_nat K) d /\
              sends t = []).
  { intros s1 Hf Hc He. rewrite uploadFile_eq, Hf, Hb, Hc. fold K. rewrite Hn.
    destruct (retryLoop_all_fail (config s) (rcloneArgs (config s) filePath) n 0 s1)
      as (t & cause & Heq & Ht & Hsteps & Hruns & Hsl).
    { now rewrite He. }
    { exact Hi. }
    destruct (retryLoop_after (config s) (rcloneArgs (config s) filePath) (S n) 0 s1)
      as (t' & Ht' & _ & _ & Hsn).
    assert (t' = t) as ->.
    { destruct Ht as [_ _ _ _ _ Htr _ _], Ht' as [_ _ _ _ _ Htr' _ _].
      rewrite Htr in Htr'. now apply List.app_inv_head in Htr'. }
    exists t, cause. rewrite Heq at 1. cbn [fst].
    replace (S n - 1)%nat with n by lia. fold d in Hsteps, Hsl. auto 10. }
  split; [|split; [|split]]; [| | |apply seconds_exact].
  - now apply Hup.
  - rewrite process_eq. cbv zeta.
    set (s1 := logged InfoLevel (MsgUploading workerID filePath) s).
    destruct (Hup s1) as (t & cause & Hr & Ht & Hruns & _ & _ & Hsn); try reflexivity.
    rewrite Hr. cbn [snd]. destruct Ht as [_ Hch _ Hf _ Htr _ _].
    exists ([EvLog InfoLevel (MsgUploading workerID filePath)] ++ t), cause.
    split; [|split; [|split; [|split]]].
    + cbn [logged trace set_trace]. rewrite Htr. cbn [s1 logged trace set_trace].
      now rewrite <- !List.app_assoc.
    + rewrite runs_app. exact Hruns.
    + rewrite sends_app, Hsn. reflexivity.
    + cbn [logged uploadChan set_trace]. now rewrite Hch.
    + cbn [logged files set_trace]. now rewrite Hf.
  - intros coins s0. destruct (workerLoop_only_pops workerID coins s0) as (t & [Ht Hs _ _ _]).
    now exists t.
Qed.

(** C2 at the README's configuration: three attempts, two sleeps of five
    seconds. *)
Lemma C2_witness :
  exists t cause,
    (uploadFile photo (fresh (sample false true 3) {[ photo := true ]} failing)).1
      = Some (UploadFailed 3 cause) /\
    List.length (runs t) = 3%nat /\
    steps t = [Attempt; Pause 5000000000; Attempt; Pause 5000000000; Attempt].
Proof.
  destruct (C2_retries_exhausted 0 photo
              (fresh (sample false true 3) {[ photo := true ]} failing))
    as ((t & cause & Hr & _ & Hruns & _ & Hsteps & _) & _).
  - exists true. reflexivity.
  - cbn. lia.
  - intros k argv. discriminate.
  - exists t, cause. split; [exact Hr|]. split; [exact Hruns | exact Hsteps].
Defined.

(** C2 as stated fails at a retry count of zero, where the upload returns
    no error although the tool would fail, and at a path that does not
    exist, where the tool is not invoked at all. *)
Lemma C2_zero_retries_or_missing_file :
  (uploadFile photo (fresh (sample false true 0) {[ photo := true ]} failing)).1 = None /\
  runs (trace (uploadFile photo (fresh (sample false true 0) {[ photo := true ]} failing)).2) = [] /\
  (uploadFile photo (fresh (sample false true 3) ∅ failing)).1 = Some (FileMissing photo) /\
  runs (trace (uploadFile photo (fresh (sample false true 3) ∅ failing)).2) = [].
Proof. vm_compute. repeat split. Qed.

(** ** C3: the command line and its verdict *)

(** C3 (as amended): a path that passes the existence check, the retry
    count being at least one, has the tool invoked for it, at least once
    and at most retry-count times; the invocations are the processes the
    worker starts one after the other, each of them
    [rclone copy <path> <remote>:<album>] with [--checksum] appended exactly
    when the duplicate check is on.  An invocation counts as a success
    exactly when the process exited with status zero: the upload returns
    [nil] right after the first such exit, and an error only after attempts
    none of which exited with zero.  A path that fails the existence check,
    and any path when the retry count is zero or less, has no invocation at
    all. *)
Theorem C3_rclone_invocation (workerID : Z) (filePath : string) (s : State) :
  let cfg := config s in
  let K := RetryCount (Upload cfg) in
  let argv :=
    ["rclone"; "copy"; filePath;
     RemoteName (Rclone cfg) +:+ ":" +:+ AlbumName (Rclone cfg)]
    ++ (if CheckDuplicates (Rclone cfg) then ["--checksum"] else []) in
  let rs := runs (since s (uploadFile filePath s).2) in
  (reported_missing filePath s = false -> 1 <= K ->
     (1 <= List.length rs <= Z.to_nat K)%nat /\
     List.hd_error rs = Some (argv, exec s (started s) argv))
  /\ rs = List.map (fun k => (argv, exec s (started s + k)%nat argv))
                   (List.seq 0 (List.length rs))
  /\ runs (since s (process workerID filePath s).2) = rs
  /\ started (uploadFile filePath s).2 = (started s + List.length rs)%nat
  /\ match (uploadFile filePath s).1 with
     | None =>
         rs = [] \/
         exists rs0, rs = rs0 ++ [(argv, Exited 0)] /\ List.Forall failed rs0
     | Some e =>
         (e = FileMissing filePath /\ rs = []) \/
         (List.Forall failed rs /\ rs <> [] /\
          exists cause, e = UploadFailed K cause)
     end
  /\ (reported_missing filePath s = true \/ K <= 0 -> rs = [])
  /\ (forall r, run_error r = None <-> r = Exited 0).
Proof.
  intros cfg K argv rs.
  assert (Hargv : "rclone" :: rcloneArgs cfg filePath = argv).
  { unfold argv, rcloneArgs. destruct (CheckDuplicates (Rclone cfg)); reflexivity. }
  assert (Hnone : runs (since s s) = []).
  { unfold since. now rewrite List.skipn_all. }
  destruct (uploadFile_spec filePath s) as (t & Ht & _).
  pose proof (after_started _ _ _ Ht) as Hst.
  pose proof (since_app _ _ _ (after_trace _ _ _ Ht)) as Hsince.
  assert (Hlen : started (uploadFile filePath s).2 = (started s + List.length rs)%nat).
  { unfold rs. now rewrite Hsince. }
  clear t Ht Hst Hsince.
  assert (Hmap : rs = List.map (fun k => (argv, exec s (started s + k)%nat argv))
                        (List.seq 0 (List.length rs))).
  { replace (List.length rs) with (started (uploadFile filePath s).2 - started s)%nat
      by lia.
    unfold rs. rewrite uploadFile_guard.
    destruct (reported_missing filePath s); cbn [snd].
    - now rewrite Hnone, Nat.sub_diag.
    - fold cfg. rewrite <- Hargv. apply retryLoop_runs_env. }
  split; [|split; [exact Hmap|split; [apply process_runs|split; [exact Hlen|split; [|split]]]]].
  - intros Hguard HK.
    assert (Hle : (List.length rs <= Z.to_nat K)%nat).
    { pose proof (retryLoop_started cfg (rcloneArgs cfg filePath) (Z.to_nat K) 0 s) as Hup.
      revert Hlen. rewrite uploadFile_guard, Hguard. fold cfg K. lia. }
    assert (Hpos : (1 <= List.length rs)%nat).
    { unfold rs. rewrite uploadFile_guard, Hguard. fold cfg K.
      destruct (Z.to_nat K) as [|n] eqn:Hn; [lia|].
      rewrite retryLoop_since_S. cbv zeta.
      destruct (run_error _); cbn; lia. }
    split; [lia|]. rewrite Hmap.
    destruct (List.length rs); [lia|]. cbn. now rewrite <- plus_n_O.
  - unfold rs. rewrite uploadFile_guard.
    destruct (reported_missing filePath s); cbn [fst snd].
    + left. now split.
    + fold cfg K.
      destruct (retryLoop_verdict cfg (rcloneArgs cfg filePath) (Z.to_nat K) 0 s)
        as (t & Ht & Hv).
      { destruct (Z.to_nat K) eqn:Hn; [now left | right; unfold K in *; lia]. }
      rewrite (since_app _ _ _ (after_trace _ _ _ Ht)).
      destruct (retryLoop cfg _ _ 0 s).1 as [e|].
      * right. exact Hv.
      * destruct Hv as [[_ ->]|(t0 & -> & Hf)]; [now left|].
        right. exists (runs t0). rewrite runs_app, Hargv. now split.
  - intros Hno. unfold rs. rewrite uploadFile_guard.
    destruct (reported_missing filePath s) eqn:Hguard; cbn [snd]; [exact Hnone|].
    destruct Hno as [Hno|HK]; [discriminate|].
    fold cfg K. replace (Z.to_nat K) with 0%nat by lia. exact Hnone.
  - apply run_error_None.
Qed.

(** C3 at the README's configuration: one invocation, with [--checksum],
    that exits with zero. *)
Lemma C3_witness :
  runs (since (fresh (sample false true 3) {[ photo := true ]} succeeding)
          (process 0 photo
             (fresh (sample false true 3) {[ photo := true ]} succeeding)).2)
  = [(["rclone"; "copy"; photo; "google-photos:Uploaded Photos"; "--checksum"],
      Exited 0)].
Proof.
  destruct (C3_rclone_invocation 0 photo
              (fresh (sample false true 3) {[ photo := true ]} succeeding))
    as (_ & _ & Hp & _).
  rewrite Hp. vm_compute. reflexivity.
Defined.

(** C3 as stated fails at a retry count of zero: the worker processes the
    path, reports the upload as done, and the tool was never invoked. *)
Lemma C3_processed_without_invocation :
  runs (trace (process 0 photo
                 (fresh (sample false true 0) {[ photo := true ]} succeeding)).2)
    = [] /\
  trace (process 0 photo
           (fresh (sample false true 0) {[ photo := true ]} succeeding)).2
    = [EvLog InfoLevel (MsgUploading 0 photo);
       EvLog InfoLevel (MsgUploadDone 0 photo)].
Proof. vm_compute. split; reflexivity. Qed.

(** ** C4: removal after upload *)

(** C4 (as amended): after a successful upload with [delete_after_upload]
    on, the worker calls [os.Remove] on the path, once; when the removal
    succeeds the file no longer exists, and when it fails the failure is
    logged and the files are as before.  With [delete_after_upload] off the
    worker makes no removal and the files are as before. *)
Theorem C4_delete_after_upload (workerID : Z) (filePath : string) (s : State) :
  (uploadFile filePath s).1 = None ->
  let s' := (process workerID filePath s).2 in
  exists t, trace s' = trace s ++ t /\
    (DeleteAfterUpload (Rclone (config s)) = true ->
       removes t = [filePath] /\
       (files s !! filePath = Some true ->
          files s' = delete filePath (files s) /\ files s' !! filePath = None) /\
       (files s !! filePath <> Some true ->
          files s' = files s /\
          exists e, List.last t (EvSleep 0) =
                    EvLog ErrorLevel (MsgRemoveFailed workerID filePath e)))
    /\ (DeleteAfterUpload (Rclone (config s)) = false ->
          removes t = [] /\ files s' = files s).
Proof.
  intros Hok s'. subst s'. rewrite process_eq. cbv zeta.
  set (s1 := logged InfoLevel (MsgUploading workerID filePath) s).
  rewrite (uploadFile_inputs filePath s1 s (same_inputs_logged _ _ s)), Hok.
  destruct (uploadFile_spec filePath s1) as (t & Ht & _ & Hrm & _).
  destruct Ht as [Hc _ _ Hf _ Htr _ _].
  set (s2 := (uploadFile filePath s1).2) in *.
  set (s3 := logged InfoLevel (MsgUploadDone workerID filePath) s2).
  assert (Hc3 : config s3 = config s) by (cbn; now rewrite Hc).
  assert (Hf3 : files s3 = files s) by (cbn; now rewrite Hf).
  assert (Ht3 : trace s3 = trace s ++ [EvLog InfoLevel (MsgUploading workerID filePath)]
                  ++ t ++ [EvLog InfoLevel (MsgUploadDone workerID filePath)]).
  { cbn [s3 logged trace set_trace]. rewrite Htr. cbn [s1 logged trace set_trace].
    now rewrite <- !List.app_assoc. }
  rewrite Hc3. destruct (DeleteAfterUpload (Rclone (config s))).
  - unfold remove_result, removed, remove_result. rewrite Hf3.
    destruct (files s !! filePath) as [[]|] eqn:Hfile; cbn [snd].
    + eexists. split.
      * cbn [logged trace set_trace set_files]. rewrite Ht3.
        rewrite <- !List.app_assoc. reflexivity.
      * split; [|discriminate]. intros _. split; [|split].
        -- rewrite !removes_app, Hrm. reflexivity.
        -- intros _. cbn [logged files set_trace set_files]. rewrite Hf3.
           split; [reflexivity | apply lookup_delete_eq].
        -- congruence.
    + eexists. split.
      * cbn [logged trace set_trace]. rewrite Ht3.
        rewrite <- !List.app_assoc. reflexivity.
      * split; [|discriminate]. intros _. split; [|split].
        -- rewrite !removes_app, Hrm. reflexivity.
        -- discriminate.
        -- intros _. cbn [logged files set_trace]. split; [exact Hf3|].
           eexists. rewrite !List.app_assoc. rewrite List.last_last. reflexivity.
    + eexists. split.
      * cbn [logged trace set_trace]. rewrite Ht3.
        rewrite <- !List.app_assoc. reflexivity.
      * split; [|discriminate]. intros _. split; [|split].
        -- rewrite !removes_app, Hrm. reflexivity.
        -- discriminate.
        -- intros _. cbn [logged files set_trace]. split; [exact Hf3|].
           eexists. rewrite !List.app_assoc. rewrite List.last_last. reflexivity.
  - cbn [snd]. eexists. split; [exact Ht3|]. split; [discriminate|].
    intros _. split; [|exact Hf3].
    rewrite !removes_app, Hrm. reflexivity.
Qed.

(** C4 with the flag on and a removable file: the file is gone. *)
Lemma C4_witness :
  files (process 0 photo (fresh (sample true true 3) {[ photo := true ]} succeeding)).2
    !! photo = None.
Proof.
  destruct (C4_delete_after_upload 0 photo
              (fresh (sample true true 3) {[ photo := true ]} succeeding))
    as (t & _ & Hon & _).
  - vm_compute. reflexivity.
  - destruct Hon as (_ & Hgone & _); [reflexivity|].
    destruct Hgone as (_ & Hnone); [vm_compute; reflexivity|]. exact Hnone.
Defined.

(** C4 as stated fails when the removal fails: the upload succeeded, the
    flag is on, and the file is still there, with the failure logged. *)
Lemma C4_removal_can_fail :
  (uploadFile photo (fresh (sample true true 3) {[ photo := false ]} succeeding)).1 = None /\
  DeleteAfterUpload (Rclone (sample true true 3)) = true /\
  files (process 0 photo (fresh (sample true true 3) {[ photo := false ]} succeeding)).2
    !! photo = Some false /\
  List.last (trace (process 0 photo
                      (fresh (sample true true 3) {[ photo := false ]} succeeding)).2)
            (EvSleep 0)
  = EvLog ErrorLevel (MsgRemoveFailed 0 photo (PathError "remove" photo EACCES)).
Proof. vm_compute. repeat split. Qed.

(** ** C5: a file that vanished *)

(** C5 (as amended): the existence check of [uploadFile] fires on a path
    that is not on disk exactly when [os.Stat] answers [ENOENT].  It then
    returns its error at once and leaves the state as it was: no process is
    started, nothing is slept, nothing is logged; the worker logs the
    failure and goes on.  When the look-up of the vanished file fails in
    another way ([ENOTDIR], [EACCES]) the check does not fire: [uploadFile]
    runs its retry loop as for a file that exists, and with a retry count of
    at least one the tool is invoked. *)
Theorem C5_missing_file_fails_fast (workerID : Z) (filePath : string) (s : State) :
  files s !! filePath = None ->
  let K := RetryCount (Upload (config s)) in
  let argv := "rclone" :: rcloneArgs (config s) filePath in
  (reported_missing filePath s = true <-> lookupErr s filePath = ENOENT)
  /\ (lookupErr s filePath = ENOENT ->
      uploadFile filePath s = (Some (FileMissing filePath), s)
      /\ process workerID filePath s =
         (tt, logged ErrorLevel (MsgUploadFailed workerID filePath (FileMissing filePath))
                (logged InfoLevel (MsgUploading workerID filePath) s))
      /\ runs (since s (process workerID filePath s).2) = []
      /\ sleeps (since s (process workerID filePath s).2) = [])
  /\ (lookupErr s filePath <> ENOENT ->
      uploadFile filePath s
      = retryLoop (config s) (rcloneArgs (config s) filePath) (Z.to_nat K) 0 s
      /\ (1 <= K ->
          List.hd_error (runs (since s (process workerID filePath s).2))
          = Some (argv, exec s (started s) argv))).
Proof.
  intros Hmiss K argv.
  assert (Hguard : reported_missing filePath s = true <-> lookupErr s filePath = ENOENT).
  { rewrite reported_missing_eq, Hmiss.
    destruct (lookupErr s filePath); split; congruence. }
  split; [exact Hguard|]. split.
  - intros Herr.
    assert (Hup : forall s1, files s1 = files s -> lookupErr s1 = lookupErr s ->
              uploadFile filePath s1 = (Some (FileMissing filePath), s1)).
    { intros s1 Hf Hl. rewrite uploadFile_eq, Hf, Hmiss, Hl, Herr. reflexivity. }
    assert (Hp : process workerID filePath s =
       (tt, logged ErrorLevel (MsgUploadFailed workerID filePath (FileMissing filePath))
              (logged InfoLevel (MsgUploading workerID filePath) s))).
    { rewrite process_eq. cbv zeta. now rewrite Hup. }
    split; [now apply Hup|]. split; [exact Hp|].
    rewrite Hp. unfold since. cbn [snd logged trace set_trace].
    rewrite <- List.app_assoc, List.skipn_app, List.skipn_all, Nat.sub_diag.
    split; reflexivity.
  - intros Herr.
    assert (Hno : reported_missing filePath s = false).
    { destruct (reported_missing filePath s); [|reflexivity].
      exfalso. apply Herr. now apply Hguard. }
    split; [now rewrite uploadFile_guard, Hno|].
    intros HK. rewrite process_runs, uploadFile_guard, Hno. fold K.
    destruct (Z.to_nat K) as [|n] eqn:Hn; [lia|].
    rewrite retryLoop_since_S. cbv zeta. fold argv.
    destruct (run_error _); reflexivity.
Qed.

(** C5 on an empty disk: nothing has the photo's name, and the upload fails
    at once. *)
Lemma C5_witness :
  uploadFile photo (fresh (sample false true 3) ∅ succeeding)
  = (Some (FileMissing photo), fresh (sample false true 3) ∅ succeeding).
Proof.
  destruct (C5_missing_file_fails_fast 0 photo
              (fresh (sample false true 3) ∅ succeeding)) as (_ & Hup & _).
  - vm_compute. reflexivity.
  - destruct Hup as (Hup & _); [reflexivity | exact Hup].
Defined.

(** C5 as stated fails for a file that vanished together with its
    directory: the photo is not on disk, [os.Stat] answers [ENOTDIR], and
    the tool is invoked three times before the upload gives up. *)
Lemma C5_vanished_file_still_uploaded :
  files misplaced !! photo = None /\
  List.length (runs (trace (uploadFile photo misplaced).2)) = 3%nat /\
  (uploadFile photo misplaced).1 = Some (UploadFailed 3 (ExitError 1)).
Proof. vm_compute. repeat split. Qed.

(** ** C6: blocking points and cancellation *)

Section C6.
Context `{FoldTables}.


End C6.



(** ** C7: the queue *)

(** C7 (as amended): the upload queue is a bounded FIFO whose capacity is
    the constant 100 of [NewPhotoUploader], whatever the configuration: a
    send can proceed on an open channel exactly while there is room, the
    push of the watcher never takes the buffer past the capacity and waits
    on a full queue, and paths leave in the order they came. *)
Theorem C7_queue_bounded_fifo (cfg : Config) :
  NewPhotoUploader (inl cfg) None
    = inl {| p_config := cfg; p_uploadChan := make_chan 100; p_ctxDone := false |}
  /\ (forall c, closed c = false ->
        (send_ready c = true <-> (List.length (buf c) < cap c)%nat))
  /\ (forall xs c,
        pops (List.length (buf c ++ xs)) (pushes xs c)
        = (buf c ++ xs, {| buf := []; cap := cap c; closed := closed c |}))
  /\ (forall coin x s,
        (List.length (buf (uploadChan s)) <= cap (uploadChan s))%nat ->
        (List.length (buf (uploadChan (enqueue coin x s).2))
         <= cap (uploadChan (enqueue coin x s).2))%nat)
  /\ (forall coin x s,
        ctxDone s = false -> closed (uploadChan s) = false ->
        (cap (uploadChan s) <= List.length (buf (uploadChan s)))%nat ->
        enqueue coin x s = (Blocked, s))
  /\ (forall coin x s,
        (enqueue coin x s).1 = Returned ->
        buf (uploadChan (enqueue coin x s).2) = buf (uploadChan s)
        \/ buf (uploadChan (enqueue coin x s).2) = buf (uploadChan s) ++ [x])
  /\ (forall workerID coin s x rest,
        buf (uploadChan s) = x :: rest -> ctxDone s = false ->
        buf (uploadChan (workerTurn workerID coin s).2) = rest /\
        exists t, since s (workerTurn workerID coin s).2 = EvRecv x :: t).
Proof.
  split; [reflexivity|]. split; [|split; [|split; [|split; [|split]]]].
  - intros c Hc. unfold send_ready. rewrite Hc. cbn. apply Nat.ltb_lt.
  - intros xs c. rewrite pushes_buf. apply pops_all.
  - intros coin x s Hle. rewrite enqueue_eq. unfold send_ready.
    destruct (closed (uploadChan s)) eqn:Hcl.
    + cbn [orb]. destruct (select2 _ _ _); exact Hle.
    + cbn [orb]. destruct (_ <? _)%nat eqn:Hroom.
      * apply Nat.ltb_lt in Hroom. destruct (select2 _ _ _); try exact Hle.
        cbn [snd sent logged uploadChan set_trace set_uploadChan chan_push buf cap].
        rewrite List.length_app. cbn [List.length]. lia.
      * destruct (ctxDone s); exact Hle.
  - intros coin x s Hctx Hcl Hfull. rewrite enqueue_eq, Hctx. unfold send_ready.
    rewrite Hcl. apply Nat.ltb_ge in Hfull. now rewrite Hfull.
  - intros coin x s _. rewrite enqueue_eq.
    destruct (select2 _ _ _); auto. destruct (closed _); auto.
  - intros workerID coin s x rest Hbuf Hctx. rewrite workerTurn_eq, Hctx.
    unfold recv_ready. rewrite Hbuf. rewrite orb_true_r. cbn [select2 snd].
    destruct (process_frame workerID x (received x s)) as (t & [_ Hch _ _ Ht] & _).
    split.
    + rewrite Hch. cbn [received uploadChan set_trace set_uploadChan].
      unfold chan_pop. now rewrite Hbuf.
    + exists t. apply since_app. rewrite Ht. cbn [received trace set_trace].
      now rewrite <- List.app_assoc.
Qed.

(** C7 as stated fails: two configurations that differ in every setting
    get the same capacity, the 100 written in [NewPhotoUploader]. *)
Lemma C7_capacity_not_configurable :
  NewPhotoUploader (inl (sample false true 3)) None
    = inl {| p_config := sample false true 3;
             p_uploadChan := {| buf := []; cap := 100; closed := false |};
             p_ctxDone := false |} /\
  NewPhotoUploader (inl other_config) None
    = inl {| p_config := other_config;
             p_uploadChan := {| buf := []; cap := 100; closed := false |};
             p_ctxDone := false |}.
Proof. split; reflexivity. Qed.

(** ** C8: a retry count of zero or less *)

(** C8 (as amended): for a path that exists and a retry count of zero or
    less, [uploadFile] returns [nil] and leaves the state as it was, so
    the tool is never invoked; with [delete_after_upload] on, the worker
    then calls [os.Remove] on the file, which is deleted when that removal
    succeeds, although it was never uploaded. *)
Theorem C8_nonpositive_retry_count
    (workerID : Z) (filePath : string) (removable : bool) (s : State) :
  files s !! filePath = Some removable ->
  RetryCount (Upload (config s)) <= 0 ->
  uploadFile filePath s = (None, s)
  /\ runs (since s (process workerID filePath s).2) = []
  /\ (DeleteAfterUpload (Rclone (config s)) = true ->
      removes (since s (process workerID filePath s).2) = [filePath] /\
      (removable = true ->
         files (process workerID filePath s).2 = delete filePath (files s) /\
         files (process workerID filePath s).2 !! filePath = None) /\
      (removable = false -> files (process workerID filePath s).2 = files s)).
Proof.
  intros Hfile HK.
  assert (Hup : forall s1, files s1 = files s -> config s1 = config s ->
            uploadFile filePath s1 = (None, s1)).
  { intros s1 Hf Hc. rewrite uploadFile_eq, Hf, Hfile, Hc.
    replace (Z.to_nat (RetryCount (Upload (config s)))) with 0%nat by lia.
    reflexivity. }
  split; [now apply Hup|].
  rewrite process_eq. cbv zeta.
  rewrite (Hup (logged InfoLevel (MsgUploading workerID filePath) s)) by reflexivity.
  cbn [fst snd]. cbn [logged config set_trace].
  destruct (DeleteAfterUpload (Rclone (config s))).
  - unfold remove_result, removed, remove_result. cbn [logged files set_trace].
    rewrite Hfile. destruct removable; cbn [snd].
    + split; [|intros _; split; [|split]].
      * erewrite since_app; [|cbn; rewrite <- !List.app_assoc; reflexivity].
        reflexivity.
      * erewrite since_app; [|cbn; rewrite <- !List.app_assoc; reflexivity].
        reflexivity.
      * intros _. cbn. split; [reflexivity | apply lookup_delete_eq].
      * discriminate.
    + split; [|intros _; split; [|split]].
      * erewrite since_app; [|cbn; rewrite <- !List.app_assoc; reflexivity].
        reflexivity.
      * erewrite since_app; [|cbn; rewrite <- !List.app_assoc; reflexivity].
        reflexivity.
      * discriminate.
      * reflexivity.
  - split; [|discriminate].
    erewrite since_app; [|cbn; rewrite <- !List.app_assoc; reflexivity].
    reflexivity.
Qed.

Lemma C8_witness :
  uploadFile photo (fresh (sample true true 0) {[ photo := true ]} failing)
    = (None, fresh (sample true true 0) {[ photo := true ]} failing) /\
  files (process 0 photo (fresh (sample true true 0) {[ photo := true ]} failing)).2
    !! photo = None.
Proof.
  destruct (C8_nonpositive_retry_count 0 photo true
              (fresh (sample true true 0) {[ photo := true ]} failing))
    as (Hup & _ & Hdel).
  - vm_compute. reflexivity.
  - cbn. lia.
  - split; [exact Hup|].
    destruct Hdel as (_ & Hgone & _); [reflexivity|].
    destruct Hgone as (_ & Hnone); [reflexivity | exact Hnone].
Defined.

(** C8 as stated fails when the removal fails: the retry count is zero, the
    flag is on, the file exists and is still there afterwards. *)
Lemma C8_file_can_survive :
  RetryCount (Upload (sample true true 0)) = 0 /\
  DeleteAfterUpload (Rclone (sample true true 0)) = true /\
  (uploadFile photo (fresh (sample true true 0) {[ photo := false ]} failing)).1 = None /\
  files (process 0 photo (fresh (sample true true 0) {[ photo := false ]} failing)).2
    !! photo = Some false.
Proof. vm_compute. repeat split. Qed.

(** ** C9: a failed upload *)

(** C9: when the upload returns an error the worker logs it and goes on to
    its next turn: it calls no removal and the files are as they were,
    whatever [delete_after_upload] says. *)
Theorem C9_failed_upload_keeps_file
    (workerID : Z) (filePath : string) (e : error) (s : State) :
  (uploadFile filePath s).1 = Some e ->
  files (process workerID filePath s).2 = files s
  /\ removes (since s (process workerID filePath s).2) = []
  /\ List.last (trace (process workerID filePath s).2) (EvSleep 0)
     = EvLog ErrorLevel (MsgUploadFailed workerID filePath e).
Proof.
  intros Herr. rewrite process_eq. cbv zeta.
  set (s1 := logged InfoLevel (MsgUploading workerID filePath) s).
  rewrite (uploadFile_inputs filePath s1 s (same_inputs_logged _ _ s)), Herr.
  destruct (uploadFile_spec filePath s1) as (t & Ht & _ & Hrm & _).
  destruct Ht as [_ _ _ Hf _ Htr _ _]. cbn [snd].
  split; [|split].
  - cbn [logged files set_trace]. now rewrite Hf.
  - erewrite since_app.
    2: { cbn [logged trace set_trace]. rewrite Htr. cbn [s1 logged trace set_trace].
         rewrite <- !List.app_assoc. reflexivity. }
    rewrite !removes_app, Hrm. reflexivity.
  - cbn [logged trace set_trace]. apply List.last_last.
Qed.

Lemma C9_witness :
  files (process 0 photo (fresh (sample true true 3) {[ photo := true ]} failing)).2
  = {[ photo := true ]}.
Proof.
  destruct (C9_failed_upload_keeps_file 0 photo
              (UploadFailed 3 (ExitError 1))
              (fresh (sample true true 3) {[ photo := true ]} failing))
    as (Hfiles & _).
  - vm_compute. reflexivity.
  - exact Hfiles.
Defined.

(** ** C10: extension matching *)

Section C10.
Context `{FoldTables}.

(** C10: [isSupportedFile] holds exactly when [EqualFold] matches
    [filepath.Ext] of the path, leading dot included, against some
    configured entry; on ASCII strings that match is equality up to the case
    of letters; an entry without a leading dot matches no path that has an
    extension; and a path without extension is accepted exactly when the
    empty string is configured. *)
Theorem C10_extension_matching (cfg : Config) (filePath : string) :
  (isSupportedFile cfg filePath = true <->
   exists entry, In entry (SupportedExtensions cfg) /\
                 EqualFold (Ext filePath) entry = true)
  /\ (Ext filePath = "" \/
      exists pre rest, filePath = pre +:+ String "." rest /\
                       Ext filePath = String "." rest /\ no_dot_sep rest)
  /\ (forall entry, isASCII (Ext filePath) -> isASCII entry ->
        (EqualFold (Ext filePath) entry = true <->
         equal_ignoring_case (Ext filePath) entry))
  /\ (forall entry, (forall rest, entry <> String "." rest) ->
        Ext filePath <> "" -> EqualFold (Ext filePath) entry = false)
  /\ (Ext filePath = "" ->
        (isSupportedFile cfg filePath = true <-> In "" (SupportedExtensions cfg))).
Proof.
  assert (Hsup : isSupportedFile cfg filePath = true <->
                 exists entry, In entry (SupportedExtensions cfg) /\
                               EqualFold (Ext filePath) entry = true).
  { unfold isSupportedFile. apply rangeExtensions_spec. }
  split; [exact Hsup|]. split; [apply Ext_shape|]. split; [|split].
  - intros entry Ha Hb. now apply EqualFold_ascii.
  - intros entry Hnodot Hext.
    destruct (Ext_shape filePath) as [He|(pre & rest & _ & He & _)]; [congruence|].
    rewrite He. now apply EqualFold_dot_nodot.
  - intros He. rewrite Hsup, He. split.
    + intros (entry & Hin & Heq). apply EqualFold_empty_l in Heq. now subst.
    + intros Hin. exists "". split; [exact Hin | now apply EqualFold_empty_l].
Qed.

End C10.

(** C10 at the README's list with its dots taken off: [".HEIC"] no longer
    matches. *)
Lemma C10_witness :
  EqualFold (H := asciiOrbits) (Ext photo) "heic" = false /\
  EqualFold (H := asciiOrbits) (Ext photo) ".heic" = true.
Proof.
  destruct (C10_extension_matching (H := asciiOrbits) (sample false true 3) photo)
    as (_ & _ & Hcase & Hnodot & _).
  split.
  - apply Hnodot; [intros rest; discriminate | discriminate].
  - apply Hcase; [repeat constructor | repeat constructor | reflexivity].
Defined.

(** ** Further properties *)

(** X1: a worker only takes from the queue.  Over any number of turns of
    its loop it sends nothing, and what the channel holds afterwards is what
    it held before with some paths taken off the front; capacity and
    closedness are untouched. *)
Theorem X1_worker_only_takes (workerID : Z) (coins : list bool) (s : State) :
  exists t k,
    trace (uploadWorker workerID coins s).2 = trace s ++ t /\
    sends t = [] /\
    buf (uploadChan (uploadWorker workerID coins s).2)
      = List.skipn k (buf (uploadChan s)) /\
    cap (uploadChan (uploadWorker workerID coins s).2) = cap (uploadChan s) /\
    closed (uploadChan (uploadWorker workerID coins s).2) = closed (uploadChan s).
Proof.
  unfold uploadWorker. unfold bind at 1. rewrite logf_eq.
  set (s1 := logged InfoLevel (MsgWorkerStarted workerID) s).
  destruct (workerLoop_only_pops workerID coins s1) as (t & [Ht Hs [k Hk] Hc Hd]).
  exists ([EvLog InfoLevel (MsgWorkerStarted workerID)] ++ t), k.
  split; [|split; [|split; [|split]]].
  - rewrite Ht. cbn [s1 logged trace set_trace]. now rewrite <- List.app_assoc.
  - rewrite sends_app, Hs. reflexivity.
  - exact Hk.
  - exact Hc.
  - exact Hd.
Qed.

Section X2.
Context `{FoldTables}.

(** X2: once the queue is closed, as [Stop] leaves it, the event of a
    supported file makes [handleFileCreated] panic whenever its [select]
    takes the send: always while the context is not done, and on the draw of
    the send when it is. *)
Theorem X2_send_on_closed_queue_panics (coin : bool) (filePath : string) (s : State) :
  isSupportedFile (config s) filePath = true ->
  closed (uploadChan s) = true ->
  ctxDone s = false \/ coin = true ->
  (handleFileCreated coin filePath s).1 = Panicked.
Proof.
  intros Hsup Hclosed Hsend.
  rewrite handleFileCreated_eq, Hsup, enqueue_eq.
  cbn [paused logged uploadChan ctxDone set_slept set_trace].
  unfold send_ready. rewrite Hclosed. cbn [orb].
  destruct Hsend as [-> | ->].
  - reflexivity.
  - destruct (ctxDone s); reflexivity.
Qed.

End X2.

(** X2 after [Stop]: the watcher, back from its settle delay, panics on the
    draw of the send. *)
Lemma X2_witness :
  closed (uploadChan (Stop (fresh (sample false true 3) ∅ failing)).2) = true /\
  (handleFileCreated (H := asciiOrbits) true photo
     (Stop (fresh (sample false true 3) ∅ failing)).2).1 = Panicked.
Proof.
  split; [reflexivity|].
  apply (X2_send_on_closed_queue_panics (H := asciiOrbits)).
  - reflexivity.
  - reflexivity.
  - now right.
Defined.

Section X3.
Context `{FoldTables}.

(** X3: what the watcher's loop puts on the queue.  Over any inputs and
    from any state, the paths [watchFiles] sends are, in order, some of the
    names of its Create events with a supported extension, and the queue
    afterwards is the queue before with exactly those paths at the back.
    Every one of them is sent, one entry per event and with no check against
    the paths sent before, when the context is never done, the queue is open
    and has room for them, and each turn is handed an event or an error; the
    loop is then still running. *)
Theorem X3_watcher_sends_created_in_order (turns : list WatchTurn) (s : State) :
  (exists xs,
     xs `sublist_of` qualifying (config s) turns /\
     sends (since s (watchFiles turns s).2) = xs /\
     buf (uploadChan (watchFiles turns s).2) = buf (uploadChan s) ++ xs) /\
  (ctxDone s = false ->
   closed (uploadChan s) = false ->
   List.forallb delivers turns = true ->
   (List.length (buf (uploadChan s)) + List.length (qualifying (config s) turns)
    <= cap (uploadChan s))%nat ->
   (watchFiles turns s).1 = None /\
   sends (since s (watchFiles turns s).2) = qualifying (config s) turns /\
   buf (uploadChan (watchFiles turns s).2)
     = buf (uploadChan s) ++ qualifying (config s) turns).
Proof.
  split.
  - destruct (watchFiles_pushes turns s) as (xs & Hp & Hsub).
    exists xs. split; [exact Hsub|]. split; apply Hp.
  - intros Hctx Hcl Hdel Hroom.
    destruct (watchFiles_exact turns s Hctx Hcl Hdel Hroom) as [Hr Hp].
    split; [exact Hr|]. split; apply Hp.
Qed.

End X3.

(** X3 on the sample: the photo created twice is queued twice, the text
    file and the plain write are not queued. *)
Lemma X3_witness :
  qualifying (H := asciiOrbits) (sample false true 3) recreated = [photo; photo] /\
  buf (uploadChan (watchFiles (H := asciiOrbits) recreated
                     (fresh (sample false true 3) ∅ failing)).2)
    = [photo; photo].
Proof.
  assert (Hq : qualifying (H := asciiOrbits) (sample false true 3) recreated
               = [photo; photo]) by (vm_compute; reflexivity).
  split; [exact Hq|].
  destruct (X3_watcher_sends_created_in_order (H := asciiOrbits) recreated
              (fresh (sample false true 3) ∅ failing)) as [_ Hall].
  destruct Hall as (_ & _ & Hbuf); [reflexivity | reflexivity | reflexivity | |].
  - change (config (fresh (sample false true 3) ∅ failing))
      with (sample false true 3).
    rewrite Hq. cbn. lia.
  - rewrite Hbuf.
    change (config (fresh (sample false true 3) ∅ failing))
      with (sample false true 3).
    rewrite Hq. reflexivity.
Defined.

(** *** The worker's loop *)

(** X4: while the context is not done a worker takes the queued paths in
    the order of the queue, one per turn: after as many turns as there are
    draws it has received the first paths of the queue, that many or all of
    them, and the rest is still queued; it is still in its loop when the
    queue was at least that long, and otherwise it has emptied the queue and
    is parked at its [select] (open queue) or has returned on the closed
    queue. *)
Theorem X4_worker_drains_in_order (workerID : Z) (coins : list bool) (s : State) :
  ctxDone s = false ->
  let r := uploadWorker workerID coins s in
  let queue := buf (uploadChan s) in
  let k := Nat.min (List.length coins) (List.length queue) in
  recvs (since s r.2) = List.firstn k queue /\
  buf (uploadChan r.2) = List.skipn k queue /\
  r.1 = (if (List.length coins <=? List.length queue)%nat then None
         else if closed (uploadChan s) then Some Returned else Some Blocked).
Proof.
  intros Hctx r queue k. subst r queue k.
  destruct (uploadWorker_worked workerID coins s) as (xs & t & Hw & _ & Hend).
  rewrite (worked_since _ _ _ _ Hw), (worked_recvs _ _ _ _ Hw).
  pose proof (worked_buf _ _ _ _ Hw) as Hb.
  set (s' := (uploadWorker workerID coins s).2) in *.
  assert (Hlen : List.length (buf (uploadChan s))
                 = (List.length xs + List.length (buf (uploadChan s')))%nat).
  { now rewrite Hb, List.length_app. }
  assert (Hk : Nat.min (List.length coins) (List.length (buf (uploadChan s)))
               = List.length xs /\
               (uploadWorker workerID coins s).1 =
               (if (List.length coins <=? List.length (buf (uploadChan s)))%nat
                then None
                else if closed (uploadChan s) then Some Returned else Some Blocked)).
  { destruct (uploadWorker workerID coins s).1 as [[]|].
    - destruct Hend as (Hlt & [Hc|Hcl] & [He|[Hc' _]]); try congruence.
      rewrite He in Hlen. cbn in Hlen. rewrite Hcl.
      destruct (Nat.leb_spec (List.length coins) (List.length (buf (uploadChan s))));
        [lia|]. split; [lia | reflexivity].
    - destruct Hend as (Hlt & _ & Hcl & He).
      rewrite He in Hlen. cbn in Hlen. rewrite Hcl.
      destruct (Nat.leb_spec (List.length coins) (List.length (buf (uploadChan s))));
        [lia|]. split; [lia | reflexivity].
    - contradiction.
    - destruct (Nat.leb_spec (List.length coins) (List.length (buf (uploadChan s))));
        [|lia]. split; [lia | reflexivity]. }
  destruct Hk as [-> ->].
  rewrite Hb. rewrite List.firstn_app, List.firstn_all, Nat.sub_diag.
  rewrite List.skipn_app, List.skipn_all, Nat.sub_diag. cbn.
  now rewrite List.app_nil_r.
Qed.

(** X4 on the sample: three turns on a queue of two photos leave the
    worker parked. *)
Lemma X4_witness :
  recvs (since queued (uploadWorker 0 [true; true; true] queued).2)
    = [photo; "/data/photos/IMG_0002.heic"] /\
  (uploadWorker 0 [true; true; true] queued).1 = Some Blocked.
Proof.
  destruct (X4_worker_drains_in_order 0 [true; true; true] queued eq_refl)
    as (Hrecv & _ & Hend).
  split; [exact Hrecv | exact Hend].
Defined.

(** X5: once the context is done a worker neither blocks nor panics.  It
    takes one more queued path, in order, for every consecutive draw of the
    queue, and returns at the first draw of the context or when the queue is
    empty; so it has returned after more turns than paths were queued. *)
Theorem X5_worker_after_cancel (workerID : Z) (coins : list bool) (s : State) :
  ctxDone s = true ->
  let r := uploadWorker workerID coins s in
  exists xs,
    buf (uploadChan s) = xs ++ buf (uploadChan r.2) /\
    recvs (since s r.2) = xs /\
    List.Forall (eq false) (List.firstn (List.length xs) coins) /\
    match r.1 with
    | None => List.length xs = List.length coins
    | Some Returned =>
        buf (uploadChan r.2) = [] \/
        List.nth_error coins (List.length xs) = Some true
    | _ => False
    end /\
    ((List.length (buf (uploadChan s)) < List.length coins)%nat ->
     r.1 = Some Returned).
Proof.
  intros Hctx r. subst r.
  destruct (uploadWorker_worked workerID coins s) as (xs & t & Hw & Hcoins & Hend).
  exists xs. rewrite (worked_since _ _ _ _ Hw).
  pose proof (worked_buf _ _ _ _ Hw) as Hb.
  split; [exact Hb|]. split; [apply Hw|]. split; [now apply Hcoins|].
  destruct (uploadWorker workerID coins s).1 as [[]|].
  - split; [|reflexivity].
    destruct Hend as (_ & _ & [He|[_ Hn]]); auto.
  - destruct Hend as (_ & Hc & _). congruence.
  - contradiction.
  - split; [exact Hend|]. intros Hlt.
    rewrite Hb, List.length_app in Hlt. lia.
Qed.

(** X5 on the sample after [Stop]: the worker that keeps drawing the queue
    still takes both photos, and then returns. *)
Lemma X5_witness :
  (uploadWorker 0 [false; false; false] (Stop queued).2).1 = Some Returned.
Proof.
  destruct (X5_worker_after_cancel 0 [false; false; false] (Stop queued).2 eq_refl)
    as (xs & _ & _ & _ & _ & Hend).
  apply Hend. cbn. lia.
Defined.

(** X6: over any run of a worker the tool is started at most
    [RetryCount] times for each path the worker took, every invocation is
    the [rclone copy] command of one of those paths, and the count of
    processes goes up by exactly the invocations made; with a retry count
    of zero or less the tool is never started. *)
Theorem X6_tool_runs_bounded (workerID : Z) (coins : list bool) (s : State) :
  let r := uploadWorker workerID coins s in
  let t := since s r.2 in
  (List.length (runs t)
   <= List.length (recvs t) * Z.to_nat (RetryCount (Upload (config s))))%nat /\
  started r.2 = (started s + List.length (runs t))%nat /\
  List.Forall (fun a => exists x, In x (recvs t) /\
                 a.1 = "rclone" :: rcloneArgs (config s) x) (runs t) /\
  (RetryCount (Upload (config s)) <= 0 -> runs t = []).
Proof.
  cbv zeta.
  destruct (uploadWorker_worked workerID coins s) as (xs & t & Hw & _ & _).
  rewrite (worked_since _ _ _ _ Hw), (worked_recvs _ _ _ _ Hw).
  pose proof (worked_runs _ _ _ _ Hw) as Hruns.
  split; [exact Hruns|]. split; [apply Hw|]. split; [apply Hw|].
  intros HK. replace (Z.to_nat _) with 0%nat in Hruns by lia.
  rewrite Nat.mul_0_r in Hruns. destruct (runs t); [reflexivity | cbn in Hruns; lia].
Qed.

(** X7: over any run of a worker the only files that can go are paths the
    worker took from the queue: the removals are among the paths taken, in
    their order, no file appears, and every other path is on disk with the
    same flag as before; with [delete_after_upload] off nothing is removed
    and the files are the same. *)
Theorem X7_worker_removes_only_taken (workerID : Z) (coins : list bool) (s : State) :
  let r := uploadWorker workerID coins s in
  let t := since s r.2 in
  removes t `sublist_of` recvs t /\
  files r.2 ⊆ files s /\
  (forall p, p ∉ recvs t -> files r.2 !! p = files s !! p) /\
  (DeleteAfterUpload (Rclone (config s)) = false ->
   files r.2 = files s /\ removes t = []).
Proof.
  cbv zeta.
  destruct (uploadWorker_worked workerID coins s) as (xs & t & Hw & _ & _).
  rewrite (worked_since _ _ _ _ Hw), (worked_recvs _ _ _ _ Hw).
  pose proof (worked_removes _ _ _ _ Hw) as Hsub.
  split; [exact Hsub|]. split; [apply Hw|]. split; [|apply Hw].
  intros p Hp. apply (worked_files _ _ _ _ Hw).
  intros Hin. apply Hp. eapply elem_of_sublist; eassumption.
Qed.

(** *** Retries and delays *)

(** X8: for a file that exists, when the tool fails on its first [j]
    invocations and exits with zero on the next, [j] being below the retry
    count, the upload returns [nil] after exactly [j + 1] invocations of the
    same command with one pause of the retry interval between two of them;
    the warnings are numbered 1 to [j] out of the retry count, and neither
    the files nor the queue change. *)
Theorem X8_retry_until_first_success (filePath : string) (j : nat) (s : State) :
  let cfg := config s in
  let argv := "rclone" :: rcloneArgs cfg filePath in
  let d := seconds (RetryInterval (Upload cfg)) in
  is_Some (files s !! filePath) ->
  Z.of_nat j < RetryCount (Upload cfg) ->
  (forall m, (m < j)%nat -> exec s (started s + m)%nat argv <> Exited 0) ->
  exec s (started s + j)%nat argv = Exited 0 ->
  let r := uploadFile filePath s in
  let t := since s r.2 in
  r.1 = None /\
  steps t = paced (S j) d /\
  List.map fst (runs t) = List.repeat argv (S j) /\
  warned t = numbered j 0 (RetryCount (Upload cfg)) /\
  started r.2 = (started s + S j)%nat /\
  slept r.2 = slept s + Z.of_nat j * Z.max 0 d /\
  files r.2 = files s /\ uploadChan r.2 = uploadChan s.
Proof.
  intros cfg argv d [b Hb] HK Hfail Hok r t. subst r t.
  rewrite uploadFile_eq, Hb. fold cfg.
  destruct (retryLoop_first_success cfg (rcloneArgs cfg filePath) j
              (Z.to_nat (RetryCount (Upload cfg))) 0 s)
    as (t & Hr & Ht & Hsteps & Hruns & Hsl & Hw); try assumption; try lia.
  destruct (retryLoop_after cfg (rcloneArgs cfg filePath)
              (Z.to_nat (RetryCount (Upload cfg))) 0 s) as (t' & Ht' & Hargs & _).
  assert (t' = t) as ->.
  { pose proof (after_trace _ _ _ Ht) as E1. pose proof (after_trace _ _ _ Ht') as E2.
    rewrite E1 in E2. now apply List.app_inv_head in E2. }
  rewrite (since_app _ _ _ (after_trace _ _ _ Ht)).
  split; [exact Hr|]. split; [exact Hsteps|]. split; [|split; [exact Hw|split; [|split; [|split]]]].
  - rewrite <- Hruns. clear - Hargs. fold argv in Hargs.
    induction Hargs as [|a l Ha _ IH]; [reflexivity|]. cbn. now rewrite Ha, IH.
  - rewrite (after_started _ _ _ Ht), Hruns. reflexivity.
  - rewrite (after_slept _ _ _ Ht), Hsl, nap_repeat. reflexivity.
  - apply Ht.
  - apply Ht.
Qed.

(** X8 at the README's configuration with a tool that fails twice: three
    invocations, two pauses of five seconds. *)
Lemma X8_witness :
  (uploadFile photo (fresh (sample false true 3) {[ photo := true ]} flaky)).1
    = None /\
  slept (uploadFile photo (fresh (sample false true 3) {[ photo := true ]} flaky)).2
    = 10000000000.
Proof.
  destruct (X8_retry_until_first_success photo 2
              (fresh (sample false true 3) {[ photo := true ]} flaky))
    as (Hr & _ & _ & _ & _ & Hslept & _).
  - exists true. vm_compute. reflexivity.
  - cbn. lia.
  - intros [|[|m]] Hm; [discriminate | discriminate | lia].
  - reflexivity.
  - split; [exact Hr | exact Hslept].
Defined.

Section X9.
Context `{FoldTables}.

(** X9: a [wait_time] or a [retry_interval] from -9223372036 to 0
    seconds, or one from 9223372037 to 18446744073 seconds, whose
    nanoseconds wrap around to a negative [int64], makes the sleep return
    at once: the watcher handles the event, and the worker retries, without
    any time spent sleeping.  From 0 to 9223372036 seconds the sleep lasts
    the configured seconds.  A negative number of seconds from -18446744073
    to -9223372037 wraps the other way, to a positive duration, and is
    slept: so it is not every [wait_time] below zero that does not wait. *)
Theorem X9_delays_that_do_not_wait (s : State) :
  (no_wait (WaitTime (Upload (config s))) ->
   forall coin x, slept (handleFileCreated coin x s).2 = slept s)
  /\ (no_wait (RetryInterval (Upload (config s))) ->
      forall workerID x,
        slept (uploadFile x s).2 = slept s /\
        slept (process workerID x s).2 = slept s)
  /\ (forall n, 0 <= n <= 9223372036 -> seconds n = n * 1000000000)
  /\ (forall n, no_wait n ->
        seconds n <= 0 /\
        forall s0, slept (time_Sleep (seconds n) s0).2 = slept s0)
  /\ (forall n, -18446744073 <= n <= -9223372037 ->
        seconds n = n * 1000000000 + 2 ^ 64 /\ 0 < seconds n)
  /\ (forall coin x,
        isSupportedFile (config s) x = true ->
        -18446744073 <= WaitTime (Upload (config s)) <= -9223372037 ->
        slept (handleFileCreated coin x s).2
        = slept s + (WaitTime (Upload (config s)) * 1000000000 + 2 ^ 64)).
Proof.
  assert (Hwrap : forall n, -18446744073 <= n <= -9223372037 ->
            seconds n = n * 1000000000 + 2 ^ 64).
  { intros n Hn. unfold seconds, wrap64, time_Second.
    assert (Hq : (n * 1000000000 + 2 ^ 63) mod 2 ^ 64
                 = n * 1000000000 + 2 ^ 63 + 2 ^ 64).
    { symmetry. apply (Z.mod_unique _ _ (-1)); lia. }
    rewrite Hq. lia. }
  split; [|split; [|split; [|split; [|split]]]].
  - intros HW coin x. apply seconds_no_wait in HW.
    rewrite handleFileCreated_eq. destruct (isSupportedFile _ _); [|reflexivity].
    rewrite enqueue_eq.
    destruct (select2 _ _ _); [destruct (closed _)| |]; cbn; lia.
  - intros HR workerID x. apply seconds_no_wait in HR.
    assert (Hup : forall s0, config s0 = config s ->
              slept (uploadFile x s0).2 = slept s0).
    { intros s0 Hc. rewrite uploadFile_guard.
      destruct (reported_missing x s0); [reflexivity|].
      apply retryLoop_no_wait. now rewrite Hc. }
    split; [now apply Hup|].
    rewrite process_eq. cbv zeta.
    set (s1 := logged InfoLevel (MsgUploading workerID x) s).
    specialize (Hup s1 eq_refl).
    destruct (uploadFile x s1).1; [cbn; exact Hup|].
    destruct (DeleteAfterUpload _); [|cbn; exact Hup].
    unfold removed.
    destruct (remove_result x _); cbn; exact Hup.
  - intros n Hn. apply seconds_exact. lia.
  - intros n Hn. apply seconds_no_wait in Hn. split; [exact Hn|].
    intros s0. cbn. lia.
  - intros n Hn. rewrite (Hwrap n Hn). split; [reflexivity | lia].
  - intros coin x Hsup HW.
    rewrite handleFileCreated_eq, Hsup, enqueue_eq, <- (Hwrap _ HW).
    pose proof (Hwrap _ HW) as Hpos.
    destruct (select2 _ _ _); [destruct (closed _)| |]; cbn; lia.
Qed.

End X9.

(** *** The watcher's loop *)

Section X10.
Context `{FoldTables}.

(** X10: the watcher sleeps the settle delay inside its loop, once for
    every creation of a supported file, one after the other: while the
    context is not done and the open queue has room for them, a run over
    events and errors sleeps as many settle delays as it has such events,
    and the time slept is their number times [wait_time]. *)
Theorem X10_settle_delays_add_up (turns : list WatchTurn) (s : State) :
  ctxDone s = false ->
  closed (uploadChan s) = false ->
  List.forallb delivers turns = true ->
  (List.length (buf (uploadChan s)) + List.length (qualifying (config s) turns)
   <= cap (uploadChan s))%nat ->
  let W := WaitTime (Upload (config s)) in
  let n := List.length (qualifying (config s) turns) in
  let s' := (watchFiles turns s).2 in
  sleeps (since s s') = List.repeat (seconds W) n /\
  slept s' = slept s + Z.of_nat n * Z.max 0 (seconds W) /\
  (0 <= W <= 9223372036 -> slept s' = slept s + Z.of_nat n * (W * 1000000000)).
Proof.
  intros Hctx Hcl Hdel Hroom W n s'. subst W n s'.
  pose proof (watchFiles_run turns s Hctx Hcl Hdel ltac:(lia)) as Hrun.
  cbv zeta in Hrun.
  destruct (Nat.leb_spec (List.length (qualifying (config s) turns))
              (cap (uploadChan s) - List.length (buf (uploadChan s)))); [|lia].
  destruct Hrun as [_ Hw].
  split; [apply Hw|]. split; [apply Hw|].
  intros HW. rewrite (watched_slept _ _ _ _ Hw), seconds_exact by lia. lia.
Qed.

End X10.

(** X10 on the sample: the photo created twice costs two delays of thirty
    seconds. *)
Lemma X10_witness :
  slept (watchFiles (H := asciiOrbits) recreated
           (fresh (sample false true 3) ∅ failing)).2
    = 60000000000.
Proof.
  destruct (X10_settle_delays_add_up (H := asciiOrbits) recreated
              (fresh (sample false true 3) ∅ failing))
    as (_ & _ & Hslept).
  - reflexivity.
  - reflexivity.
  - reflexivity.
  - vm_compute. lia.
  - rewrite Hslept by (cbn; lia). vm_compute. reflexivity.
Defined.

Section X11.
Context `{FoldTables}.

(** X11: when more supported files are created than the open queue has
    room for, the context not being done, the watcher enqueues the first of
    them up to the capacity, in order, sleeps the settle delay once more for
    the next one, and is then parked at the [select] of
    [handleFileCreated] with the queue full. *)
Theorem X11_full_queue_blocks_watcher (turns : list WatchTurn) (s : State) :
  ctxDone s = false ->
  closed (uploadChan s) = false ->
  List.forallb delivers turns = true ->
  (List.length (buf (uploadChan s)) <= cap (uploadChan s))%nat ->
  (cap (uploadChan s) <
   List.length (buf (uploadChan s)) + List.length (qualifying (config s) turns))%nat ->
  let room := (cap (uploadChan s) - List.length (buf (uploadChan s)))%nat in
  let r := watchFiles turns s in
  r.1 = Some Blocked /\
  sends (since s r.2) = List.firstn room (qualifying (config s) turns) /\
  buf (uploadChan r.2)
    = buf (uploadChan s) ++ List.firstn room (qualifying (config s) turns) /\
  List.length (buf (uploadChan r.2)) = cap (uploadChan s) /\
  sleeps (since s r.2)
    = List.repeat (seconds (WaitTime (Upload (config s)))) (S room).
Proof.
  intros Hctx Hcl Hdel Hcap Hmore room r. subst room r.
  pose proof (watchFiles_run turns s Hctx Hcl Hdel Hcap) as Hrun.
  cbv zeta in Hrun.
  destruct (Nat.leb_spec (List.length (qualifying (config s) turns))
              (cap (uploadChan s) - List.length (buf (uploadChan s)))); [lia|].
  destruct Hrun as [Hr Hw]. pose proof (watched_pushes _ _ _ _ Hw) as Hp.
  split; [exact Hr|]. split; [apply Hp|]. split; [apply Hp|]. split; [|apply Hw].
  rewrite (pushed_buf _ _ _ Hp), List.length_app, List.length_firstn. lia.
Qed.

End X11.

(** X11 on the sample: with a hundred paths queued the next photo parks the
    watcher after its settle delay. *)
Lemma X11_witness :
  (watchFiles (H := asciiOrbits) recreated crowded).1 = Some Blocked /\
  sleeps (since crowded (watchFiles (H := asciiOrbits) recreated crowded).2)
    = [30000000000].
Proof.
  destruct (X11_full_queue_blocks_watcher (H := asciiOrbits) recreated crowded)
    as (Hr & _ & _ & _ & Hsl).
  - reflexivity.
  - reflexivity.
  - reflexivity.
  - vm_compute. lia.
  - vm_compute. lia.
  - split; [exact Hr | exact Hsl].
Defined.

Section X12.
Context `{FoldTables}.

(** X12: events that are not creations (writes, removals, renames, mode
    changes) and creations of files without a supported extension leave no
    trace at all: a run of the watcher over such events only ends in the
    state it began in, with no line logged, no sleep and nothing sent. *)
Theorem X12_other_events_leave_no_trace (turns : list WatchTurn) (s : State) :
  qualifying (config s) turns = [] ->
  (forall t err, In t turns -> input t <> GotError err) ->
  (watchFiles turns s).2 = s.
Proof.
  revert s. induction turns as [|t turns IH]; intros s Hq Herr; [reflexivity|].
  rewrite qualifying_cons in Hq. apply List.app_eq_nil in Hq as [Hq1 Hq2].
  assert (Hq : qualifies (config s) t = None).
  { destruct (qualifies (config s) t); [discriminate | reflexivity]. }
  cbn [watchFiles]. unfold bind.
  pose proof (watchTurn_idle t s Hq (fun err => Herr t err (or_introl eq_refl))) as Hs.
  destruct (watchTurn t s) as [[o|] s1]; cbn [snd] in *; subst s1; [reflexivity|].
  apply IH; [exact Hq2|]. intros t' err Hin. apply Herr. now right.
Qed.

End X12.

(** X12 on the sample: a text file created and the photo written to. *)
Lemma X12_witness :
  (watchFiles (H := asciiOrbits)
     [seen "/data/photos/notes.txt" fsnotify_Create; seen photo fsnotify_Write]
     (fresh (sample false true 3) ∅ failing)).2
  = fresh (sample false true 3) ∅ failing.
Proof.
  apply (X12_other_events_leave_no_trace (H := asciiOrbits)).
  - reflexivity.
  - intros t err [<-|[<-|[]]]; discriminate.
Defined.

Section X13.
Context `{FoldTables}.

(** X13: once the context is done the watcher is never parked: every turn
    of its loop returns, handles one more event, or panics, the last only
    on a closed queue.  It has left its loop by the first turn that finds
    its channels closed or empty or that draws the context, and when that is
    its very first turn it returns without any effect. *)
Theorem X13_watcher_after_cancel (turns : list WatchTurn) (s : State) :
  ctxDone s = true ->
  let r := watchFiles turns s in
  r.1 <> Some Blocked /\
  (closed (uploadChan s) = false -> r.1 <> Some Panicked) /\
  (List.existsb (fun t => negb (delivers t) || drawDone t) turns = true ->
   r.1 = Some Returned \/ r.1 = Some Panicked) /\
  (forall t rest, turns = t :: rest ->
     delivers t = false \/ drawDone t = true -> r = (Some Returned, s)).
Proof.
  intros Hctx r. subst r.
  destruct (watchFiles_done turns s Hctx) as (Hb & Hp & Hstop).
  split; [exact Hb|]. split; [|split].
  - intros Hcl Hpan. apply Hp in Hpan. congruence.
  - intros Hex. specialize (Hstop Hex).
    destruct (watchFiles turns s).1 as [[]|]; auto; contradiction.
  - intros t rest -> Hcase. cbn [watchFiles]. unfold bind.
    unfold watchTurn, bind, get, delivers in *. rewrite Hctx.
    destruct Hcase as [Hd | Hd].
    + destruct (input t); try discriminate; cbn [select2];
        destruct (drawDone t); reflexivity.
    + rewrite Hd. destruct (input t); reflexivity.
Qed.

End X13.

(** X13 on the sample: the context done and the watcher's channel closed. *)
Lemma X13_witness :
  watchFiles (H := asciiOrbits)
    [{| input := EventsClosed; drawDone := false; drawSend := true |}]
    stopped_full
  = (Some Returned, stopped_full).
Proof.
  destruct (X13_watcher_after_cancel (H := asciiOrbits)
              [{| input := EventsClosed; drawDone := false; drawSend := true |}]
              stopped_full eq_refl) as (_ & _ & _ & Hfirst).
  apply (Hfirst _ [] eq_refl). now left.
Defined.

(** *** Starting and stopping *)

(** X14: [Start] launches its goroutines exactly when [os.Stat] does not
    report the watch directory as not existing and the watcher accepts it:
    one worker for each of [concurrent_uploads], numbered from zero, and the
    watcher last, all different, after two lines of log; with
    [concurrent_uploads] zero or less it launches the watcher alone.  When
    it fails it has logged its first line only and launched nothing; the
    error names the missing directory exactly when [os.Stat] answered
    [ENOENT], and when the look-up fails in another way ([ENOTDIR],
    [EACCES]) [Start] goes on to [watcher.Add] and returns the error of
    that call.  It touches neither the queue, the context nor the files. *)
Theorem X14_start_launches (added : option error) (s : State) :
  let dir := WatchDirectory (config s) in
  let n := Z.to_nat (ConcurrentUploads (Upload (config s))) in
  let r := Start added s in
  (r.1 = inl (List.map (fun k => Worker (Z.of_nat k)) (List.seq 0 n) ++ [Watcher])
   <-> reported_missing dir s = false /\ added = None)
  /\ (forall gs, r.1 = inl gs ->
        List.length gs = S n /\ List.NoDup gs /\
        since s r.2 = [EvLog InfoLevel MsgStarting; EvLog InfoLevel (MsgWatching dir)])
  /\ (forall e, r.1 = inr e ->
        since s r.2 = [EvLog InfoLevel MsgStarting] /\
        (e = WatchDirectoryMissing dir <-> reported_missing dir s = true) /\
        (forall cause, e = WatcherAddFailed cause <->
                       reported_missing dir s = false /\ added = Some cause))
  /\ (reported_missing dir s = true <->
      files s !! dir = None /\ lookupErr s dir = ENOENT)
  /\ (ConcurrentUploads (Upload (config s)) <= 0 ->
      forall gs, r.1 = inl gs -> gs = [Watcher])
  /\ (uploadChan r.2 = uploadChan s /\ ctxDone r.2 = ctxDone s /\
      files r.2 = files s /\ started r.2 = started s /\ slept r.2 = slept s).
Proof.
  cbv zeta. rewrite Start_eq. cbv zeta.
  set (dir := WatchDirectory (config s)).
  set (n := Z.to_nat (ConcurrentUploads (Upload (config s)))).
  set (s1 := logged InfoLevel MsgStarting s).
  assert (H1 : since s s1 = [EvLog InfoLevel MsgStarting]) by now apply since_app.
  assert (H2 : since s (logged InfoLevel (MsgWatching dir) s1)
               = [EvLog InfoLevel MsgStarting; EvLog InfoLevel (MsgWatching dir)]).
  { apply since_app. cbn. now rewrite <- List.app_assoc. }
  assert (Hmiss : reported_missing dir s = true <->
                  files s !! dir = None /\ lookupErr s dir = ENOENT).
  { rewrite reported_missing_eq. destruct (files s !! dir).
    - split; [discriminate | intros [? _]; discriminate].
    - destruct (lookupErr s dir); split; try discriminate; auto;
        intros [_ ?]; discriminate. }
  destruct (reported_missing dir s) eqn:Hdir; [|destruct added as [e0|]]; cbn [fst snd].
  - split; [split; [discriminate | intros [? _]; discriminate]|].
    split; [discriminate|].
    split; [|split; [exact Hmiss | split; [discriminate | now repeat split]]].
    intros e He. injection He as <-. split; [exact H1|]. split; [now split|].
    intros cause. split; [discriminate | intros [? _]; discriminate].
  - split; [split; [discriminate | intros [_ ?]; discriminate]|].
    split; [discriminate|].
    split; [|split; [exact Hmiss | split; [discriminate | now repeat split]]].
    intros e He. injection He as <-. split; [exact H1|]. split; [split; discriminate|].
    intros cause. split.
    + intros Hc. injection Hc as ->. now split.
    + intros [_ Hc]. now injection Hc as ->.
  - split; [split; [intros _; now split | intros _; now rewrite spawnWorkers_seq]|].
    split; [|split; [discriminate | split; [exact Hmiss | split; [|now repeat split]]]].
    + intros gs Hgs. injection Hgs as <-. split; [|split; [|exact H2]].
      * rewrite List.length_app, spawnWorkers_seq, List.length_map, List.length_seq.
        cbn. lia.
      * apply spawnWorkers_NoDup.
    + intros Hn gs Hgs. injection Hgs as <-.
      replace n with 0%nat by (unfold n; lia). reflexivity.
Qed.

Section X18.
Context `{FoldTables}.

(** X18: after [Stop] on an open queue the context is done and the queue
    closed, with what it held still in it.  From then on the watcher puts
    nothing into the queue and is never parked, and a worker is never parked
    and never panics: it has returned after more turns than paths were left
    in the queue. *)
Theorem X18_after_stop (s : State) :
  closed (uploadChan s) = false ->
  let s' := (Stop s).2 in
  (ctxDone s' = true /\ closed (uploadChan s') = true /\
   buf (uploadChan s') = buf (uploadChan s) /\
   since s s' = [EvLog InfoLevel MsgStopping] /\ files s' = files s)
  /\ (forall turns,
        let r := watchFiles turns s' in
        sends (since s' r.2) = [] /\
        uploadChan r.2 = uploadChan s' /\
        r.1 <> Some Blocked)
  /\ (forall workerID coins,
        let r := uploadWorker workerID coins s' in
        r.1 <> Some Blocked /\ r.1 <> Some Panicked /\
        ((List.length (buf (uploadChan s)) < List.length coins)%nat ->
         r.1 = Some Returned)).
Proof.
  intros Hopen s'. subst s'. rewrite Stop_eq. cbn [snd].
  set (s' := set_uploadChan _ _).
  assert (Hctx : ctxDone s' = true) by reflexivity.
  assert (Hcl : closed (uploadChan s') = true) by reflexivity.
  assert (Hbuf : buf (uploadChan s') = buf (uploadChan s)) by reflexivity.
  split; [|split].
  - split; [exact Hctx|]. split; [exact Hcl|]. split; [exact Hbuf|].
    split; [now apply since_app | reflexivity].
  - intros turns.
    pose proof (watchFiles_closed turns s' Hcl) as Hp.
    destruct (watchFiles_done turns s' Hctx) as (Hb & _).
    split; [apply Hp|]. split; [|exact Hb].
    destruct Hp as [_ _ _ _ Hb' Hc' Hd']. rewrite List.app_nil_r in Hb'.
    destruct (uploadChan (watchFiles turns s').2), (uploadChan s'); cbn in *.
    congruence.
  - intros workerID coins.
    destruct (uploadWorker_worked workerID coins s') as (xs & t & Hw & _ & Hend).
    pose proof (worked_buf _ _ _ _ Hw) as Hb. rewrite Hbuf in Hb.
    destruct (uploadWorker workerID coins s').1 as [[]|].
    + repeat split; discriminate.
    + destruct Hend as (_ & Hc & _). congruence.
    + contradiction.
    + split; [discriminate|]. split; [discriminate|]. intros Hlt.
      rewrite Hb, List.length_app in Hlt. lia.
Qed.

End X18.

(** X18 on the sample: with two photos left in the queue a worker has
    returned after three turns. *)
Lemma X18_witness :
  (uploadWorker 1 [false; false; false] (Stop queued).2).1 = Some Returned.
Proof.
  destruct (X18_after_stop (H := asciiOrbits) queued eq_refl) as (_ & _ & Hw).
  destruct (Hw 1 [false; false; false]) as (_ & _ & Hend).
  apply Hend. cbn. lia.
Defined.

(** *** Extensions *)

Section Extensions.
Context `{FoldTables}.

(** X15: [filepath.Ext], and with it [isSupportedFile], reads the last
    element of the path only: what stands before the last separator, dots
    included, does not matter.  The extension of a name that ends in a dot
    followed by neither dot nor separator is that ending, also when nothing
    stands before the dot; taking the extension twice changes nothing; and a
    last element without a dot has the empty extension, which is supported
    exactly when the empty string is configured. *)
Theorem X15_extension_of_last_element
    (cfg : Config) (dir name base rest path : string) :
  Ext (dir +:+ String "/" name) = Ext name
  /\ isSupportedFile cfg (dir +:+ String "/" name) = isSupportedFile cfg name
  /\ (no_dot_sep rest -> Ext (base +:+ String "." rest) = String "." rest)
  /\ Ext (Ext path) = Ext path
  /\ ((forall i, String.get i name <> Some "."%char) ->
      Ext (dir +:+ String "/" name) = "" /\
      (isSupportedFile cfg (dir +:+ String "/" name) = true <->
       In "" (SupportedExtensions cfg))).
Proof.
  pose proof (Ext_last_element dir name) as Hlast.
  split; [exact Hlast|]. split; [|split; [|split]].
  - unfold isSupportedFile. now rewrite Hlast.
  - apply Ext_suffix.
  - apply Ext_idempotent.
  - intros Hno. rewrite Hlast, (Ext_no_dot name Hno). split; [reflexivity|].
    unfold isSupportedFile. rewrite Hlast, (Ext_no_dot name Hno).
    rewrite rangeExtensions_spec. split.
    + intros (e & Hin & He). apply EqualFold_empty_l in He. now subst e.
    + intros Hin. exists "". split; [exact Hin | now apply EqualFold_empty_l].
Qed.

(** X16: a path that ends in a configured extension (a dot followed by
    neither dot nor separator) is supported, whatever stands before the dot
    and wherever the entry stands in the list; so is a path whose ending
    differs from the entry in the case of ASCII letters only; and a file
    supported under one list is supported under every list that has the
    same entries and more. *)
Theorem X16_listed_extension_is_supported
    (cfg : Config) (base rest : string) :
  no_dot_sep rest ->
  In (String "." rest) (SupportedExtensions cfg) ->
  isSupportedFile cfg (base +:+ String "." rest) = true
  /\ (forall rest',
        no_dot_sep rest' -> isASCII rest -> isASCII rest' ->
        equal_ignoring_case rest' rest ->
        isSupportedFile cfg (base +:+ String "." rest') = true)
  /\ (forall cfg' p,
        (forall e, In e (SupportedExtensions cfg) -> In e (SupportedExtensions cfg')) ->
        isSupportedFile cfg p = true -> isSupportedFile cfg' p = true).
Proof.
  intros Hrest Hin. split; [|split].
  - unfold isSupportedFile. rewrite (Ext_suffix base rest Hrest).
    apply rangeExtensions_spec. exists (String "." rest).
    split; [exact Hin | apply EqualFold_refl].
  - intros rest' Hrest' Ha Ha' Heq.
    unfold isSupportedFile. rewrite (Ext_suffix base rest' Hrest').
    apply rangeExtensions_spec. exists (String "." rest). split; [exact Hin|].
    apply EqualFold_ascii.
    + unfold isASCII in *. rewrite bytes_cons. constructor; [vm_compute; reflexivity | exact Ha'].
    + unfold isASCII in *. rewrite bytes_cons. constructor; [vm_compute; reflexivity | exact Ha].
    + unfold equal_ignoring_case in *. rewrite !bytes_cons. cbn [List.map].
      now rewrite Heq.
  - intros cfg' p Hsub. unfold isSupportedFile. rewrite !rangeExtensions_spec.
    intros (e & He & Hf). exists e. split; [now apply Hsub | exact Hf].
Qed.

End Extensions.

(** X16 at the README's list: a hidden file named [.heic]. *)
Lemma X16_witness :
  isSupportedFile (H := asciiOrbits) (sample false true 3)
    ("/data/photos/" +:+ ".heic") = true.
Proof.
  destruct (X16_listed_extension_is_supported (H := asciiOrbits)
              (sample false true 3) "/data/photos/" "heic") as (Hsup & _).
  - intros [|[|[|[|i]]]] c Hc; cbn in Hc; try discriminate;
      injection Hc as <-; split; discriminate.
  - right. left. reflexivity.
  - exact Hsup.
Defined.

(** *** From the event to the upload *)

Section X17.
Context `{FoldTables}.

(** X17: the path of one creation event makes the whole way.  On an empty
    open queue, the context not done, the creation of a supported file that
    exists is logged, waited for, sent; the next turn of a worker receives
    that same path, runs [rclone copy] on it, and, the tool exiting with
    zero at once, logs the upload as done; the queue is empty again.  With
    [delete_after_upload] on, the file is then removed, or the failure of
    the removal is logged and the file stays; with it off the files are as
    before. *)
Theorem X17_created_file_is_uploaded
    (workerID : Z) (t : WatchTurn) (coin : bool) (x : string) (s : State) :
  ctxDone s = false ->
  closed (uploadChan s) = false ->
  buf (uploadChan s) = [] ->
  (0 < cap (uploadChan s))%nat ->
  qualifies (config s) t = Some x ->
  is_Some (files s !! x) ->
  1 <= RetryCount (Upload (config s)) ->
  exec s (started s) ("rclone" :: rcloneArgs (config s) x) = Exited 0 ->
  let s1 := (watchTurn t s).2 in
  let r := workerTurn workerID coin s1 in
  buf (uploadChan s1) = [x] /\
  r.1 = None /\
  buf (uploadChan r.2) = [] /\
  since s r.2 =
    [EvLog InfoLevel (MsgDetected x);
     EvSleep (seconds (WaitTime (Upload (config s))));
     EvSend x;
     EvLog DebugLevel (MsgQueued x);
     EvRecv x;
     EvLog InfoLevel (MsgUploading workerID x);
     EvRun ("rclone" :: rcloneArgs (config s) x) (Exited 0);
     EvLog InfoLevel (MsgUploadDone workerID x)]
    ++ (if DeleteAfterUpload (Rclone (config s))
        then match files s !! x with
             | Some true =>
                 [EvRemove x None; EvLog InfoLevel (MsgRemoved workerID x)]
             | _ =>
                 [EvRemove x (Some (PathError "remove" x EACCES));
                  EvLog ErrorLevel
                    (MsgRemoveFailed workerID x (PathError "remove" x EACCES))]
             end
        else []) /\
  files r.2 =
    (if DeleteAfterUpload (Rclone (config s))
     then match files s !! x with
          | Some true => delete x (files s)
          | _ => files s
          end
     else files s).
Proof.
  intros Hctx Hcl Hbuf Hcap Hq [b Hb] HK Hok s1 r. subst r s1.
  rewrite (watchTurn_send t x s Hctx Hcl Hq) by (rewrite Hbuf; cbn; lia).
  cbn [snd]. set (s1 := sent x (settled x s)).
  assert (Hb1 : buf (uploadChan s1) = [x]).
  { cbn [s1 sent logged uploadChan set_trace set_uploadChan chan_push buf settled paused set_slept].
    now rewrite Hbuf. }
  split; [exact Hb1|].
  rewrite workerTurn_eq. unfold recv_ready. rewrite Hb1.
  change (ctxDone s1) with (ctxDone s). change (closed (uploadChan s1)) with (closed (uploadChan s)).
  rewrite Hctx, Hcl. cbn [orb negb Nat.eqb List.length select2 fst snd].
  rewrite process_eq. cbv zeta.
  set (s2 := logged InfoLevel (MsgUploading workerID x) (received x s1)).
  assert (Hup : uploadFile x s2 = (None, ran ("rclone" :: rcloneArgs (config s) x) s2)).
  { rewrite uploadFile_eq.
    change (files s2) with (files s). change (config s2) with (config s).
    rewrite Hb.
    destruct (Z.to_nat (RetryCount (Upload (config s)))) as [|n] eqn:Hn; [lia|].
    rewrite retryLoop_S.
    change (exec s2) with (exec s). change (started s2) with (started s).
    rewrite Hok. reflexivity. }
  rewrite Hup. cbn [fst snd].
  set (s3 := logged InfoLevel (MsgUploadDone workerID x) _).
  assert (Htr : trace s3 = trace s ++
            [EvLog InfoLevel (MsgDetected x);
             EvSleep (seconds (WaitTime (Upload (config s))));
             EvSend x;
             EvLog DebugLevel (MsgQueued x);
             EvRecv x;
             EvLog InfoLevel (MsgUploading workerID x);
             EvRun ("rclone" :: rcloneArgs (config s) x) (Exited 0);
             EvLog InfoLevel (MsgUploadDone workerID x)]).
  { cbn. rewrite Hok. rewrite <- !List.app_assoc. reflexivity. }
  assert (Hch : buf (uploadChan s3) = []).
  { change (uploadChan s3) with ((chan_pop (uploadChan s1)).2).
    unfold chan_pop. rewrite Hb1. reflexivity. }
  change (config s3) with (config s).
  destruct (DeleteAfterUpload (Rclone (config s))).
  - unfold remove_result, removed, remove_result.
    change (files s3) with (files s). rewrite Hb.
    destruct b; cbn [fst snd].
    + split; [reflexivity|]. split; [exact Hch|]. split; [|reflexivity].
      apply since_app. cbn [logged trace set_trace set_files]. rewrite Htr.
      now rewrite <- !List.app_assoc.
    + split; [reflexivity|]. split; [exact Hch|]. split; [|reflexivity].
      apply since_app. cbn [logged trace set_trace set_files]. rewrite Htr.
      now rewrite <- !List.app_assoc.
  - cbn [fst snd]. split; [reflexivity|]. split; [exact Hch|]. split; [|reflexivity].
    apply since_app. rewrite Htr. now rewrite List.app_nil_r.
Qed.

End X17.

(** X17 at the README's configuration with removal on. *)
Lemma X17_witness :
  files (workerTurn 0 true
           (watchTurn (H := asciiOrbits) (seen photo fsnotify_Create)
              (fresh (sample true true 3) {[ photo := true ]} succeeding)).2).2
  = delete photo {[ photo := true ]}.
Proof.
  destruct (X17_created_file_is_uploaded (H := asciiOrbits) 0
              (seen photo fsnotify_Create) true photo
              (fresh (sample true true 3) {[ photo := true ]} succeeding))
    as (_ & _ & _ & _ & Hfiles).
  - reflexivity.
  - reflexivity.
  - reflexivity.
  - cbn. lia.
  - vm_compute. reflexivity.
  - exists true. vm_compute. reflexivity.
  - cbn. lia.
  - reflexivity.
  - rewrite Hfiles. vm_compute. reflexivity.
Defined.

(** *** A new uploader *)

Section X19.
Context `{FoldTables}.

(** X19: [NewPhotoUploader] succeeds exactly when the configuration was
    loaded and the watcher created, and the uploader it returns starts with
    an empty open queue of a hundred places and a context that is not done.
    So while no worker takes anything out, its watcher enqueues the first
    hundred supported creations it is handed, in order, and is parked at the
    next one. *)
Theorem X19_new_uploader_takes_a_hundred
    (loaded : Config + error) (watcher : option error) (p : PhotoUploader)
    (disk : gmap string bool) (env : nat -> list string -> RunResult)
    (turns : list WatchTurn) :
  NewPhotoUploader loaded watcher = inl p ->
  List.forallb delivers turns = true ->
  let s := boot p disk env in
  let q := qualifying (config s) turns in
  let r := watchFiles turns s in
  loaded = inl (config s) /\ watcher = None /\
  uploadChan s = make_chan 100 /\ ctxDone s = false /\
  buf (uploadChan r.2) = List.firstn 100 q /\
  sends (since s r.2) = List.firstn 100 q /\
  r.1 = (if (List.length q <=? 100)%nat then None else Some Blocked).
Proof.
  intros Hnew Hdel s q r. subst s q r.
  destruct loaded as [cfg|e]; [|discriminate].
  destruct watcher as [e|]; [discriminate|].
  injection Hnew as <-. cbn [boot p_config p_uploadChan p_ctxDone config].
  set (s := boot _ disk env).
  split; [reflexivity|]. split; [reflexivity|]. split; [reflexivity|].
  split; [reflexivity|].
  pose proof (watchFiles_run turns s eq_refl eq_refl Hdel ltac:(cbn; lia)) as Hrun.
  cbv zeta in Hrun.
  change (cap (uploadChan s) - List.length (buf (uploadChan s)))%nat
    with 100%nat in Hrun.
  change (config s) with cfg in Hrun.
  destruct (List.length (qualifying cfg turns) <=? 100)%nat eqn:Hlen;
    destruct Hrun as [Hr Hw]; pose proof (watched_pushes _ _ _ _ Hw) as Hp.
  - apply Nat.leb_le in Hlen.
    rewrite (pushed_buf _ _ _ Hp), (pushed_sends _ _ _ Hp).
    rewrite List.firstn_all2 by exact Hlen. auto.
  - rewrite (pushed_buf _ _ _ Hp), (pushed_sends _ _ _ Hp). auto.
Qed.

End X19.

(** X19 on the sample: a new uploader takes in the photo created twice. *)
Lemma X19_witness :
  buf (uploadChan
         (watchFiles (H := asciiOrbits) recreated
            (boot {| p_config := sample false true 3;
                     p_uploadChan := make_chan 100;
                     p_ctxDone := false |} ∅ failing)).2)
  = [photo; photo].
Proof.
  destruct (X19_new_uploader_takes_a_hundred (H := asciiOrbits)
              (inl (sample false true 3)) None
              {| p_config := sample false true 3;
                 p_uploadChan := make_chan 100;
                 p_ctxDone := false |} ∅ failing recreated eq_refl eq_refl)
    as (_ & _ & _ & _ & Hbuf & _).
  rewrite Hbuf. vm_compute. reflexivity.
Defined.
